(** * RSDatasetGenerator: tile acquisition and mosaic assembly core

    A shallow embedding of the Python sources

      - [src/downloaders/base.py]            (TileInfo, DownloadResult, TileCache, BaseDownloader)
      - [src/downloaders/sync_downloader.py] (SyncDownloader)
      - [src/downloaders/async_downloader.py] (AsyncDownloader.download_tiles_batch)
      - [src/processors/image_processor.py]  (TileMerger, ImageProcessor)
      - [src/processors/data_processor.py]   (DataProcessor)
      - [src/processors/data_loader.py]      (GeoPoint)
      - [src/processors/metadata_manager.py] (MetadataManager)

    Python objects that are mutated in place (the cache, the canvas, the
    downloader) are modelled by explicit state passing; code that can raise is
    modelled in an error monad whose [Raise] carries the Python exception. *)

From Stdlib Require Import ZArith List Lia QArith Qabs Qpower Lqa.
From Corelib Require Import PrimFloat FloatOps SpecFloat FloatAxioms.
From stdpp Require Import gmap strings list fin_maps pretty.

Local Open Scope Z_scope.
#[local] Set Warnings "-clear-no-such-hyp".

(* ===================================================================== *)
(** * Python runtime: exceptions and the statements that may raise        *)
(* ===================================================================== *)

(** The exception classes the modelled code raises or catches.  All of them
    derive from Python's [Exception]. *)
Inductive exn : Type :=
| IndexError                       (* list.pop on an empty list *)
| ValueError (msg : string)        (* list.remove of an absent element, ... *)
| KeyError                         (* del d[k] of an absent key *)
| AttributeError (name : string)   (* attribute lookup that finds no attribute *)
| DownloadError (msg : string)     (* utils.DownloadError *)
| DataProcessingError (msg : string)
| RequestsTimeout                  (* requests.exceptions.Timeout *)
| RequestsConnectionError          (* requests.exceptions.ConnectionError *)
| HTTPError (status_code : Z)      (* requests.exceptions.HTTPError *)
| OverflowError (msg : string)     (* float result out of range, int(inf) *)
| OSError (msg : string)           (* file system failures *)
| LibraryError (class msg : string).  (* a library's own exception class *)

(** [str(e)] as far as the code formats it into messages. *)
Definition exn_str (e : exn) : string :=
  match e with
  | IndexError => "pop from empty list"
  | ValueError m => m
  | KeyError => "KeyError"
  | AttributeError n => "object has no attribute " +:+ n
  | DownloadError m => m
  | DataProcessingError m => m
  | RequestsTimeout => "timeout"
  | RequestsConnectionError => "connection error"
  | HTTPError c => "HTTP " +:+ pretty c
  | OverflowError m => m
  | OSError m => m
  | LibraryError _ m => m
  end.

Inductive result (A : Type) : Type :=
| Ok (a : A)
| Raise (e : exn).
Arguments Ok {A} a.
Arguments Raise {A} e.

#[global] Instance result_ret : MRet result := fun _ a => Ok a.
#[global] Instance result_bind : MBind result := fun _ _ k m =>
  match m with
  | Ok a => k a
  | Raise e => Raise e
  end.

Definition is_ok {A} (r : result A) : bool :=
  match r with Ok _ => true | Raise _ => false end.

(** [range(a, b)] *)
Definition range (a b : Z) : list Z := seqZ a (b - a).

(** [list.remove(x)]: drops the first occurrence, [ValueError] when absent. *)
Fixpoint list_remove {A} `{EqDecision A} (x : A) (l : list A) : result (list A) :=
  match l with
  | [] => Raise (ValueError "list.remove(x): x not in list")
  | y :: l' =>
      if decide (y = x) then Ok l'
      else match list_remove x l' with
           | Ok l'' => Ok (y :: l'')
           | Raise e => Raise e
           end
  end.

(** [list.pop(0)] *)
Definition list_pop0 {A} (l : list A) : result (A * list A) :=
  match l with
  | [] => Raise IndexError
  | y :: l' => Ok (y, l')
  end.

(** [del d[k]] *)
Definition dict_del {K V} `{Countable K} (k : K) (d : gmap K V) : result (gmap K V) :=
  match d !! k with
  | Some _ => Ok (delete k d)
  | None => Raise KeyError
  end.

(** [a // b] is [Z.div] (both floor); [1 << n] raises on a negative count. *)
Definition py_lshift (a n : Z) : result Z :=
  if n <? 0 then Raise (ValueError "negative shift count") else Ok (Z.shiftl a n).

(* ===================================================================== *)
(** * base.py: TileCache                                                  *)
(* ===================================================================== *)

Module TileCache.
Section WithImage.
Context {Image : Type}.

(** A cache key is the triple [(x, y, z)]. *)
Abbreviation Key := (Z * Z * Z)%type (only parsing).

Record t : Type := mk {
  max_size : Z;
  _cache : gmap (Z * Z * Z) Image;
  _access_order : list (Z * Z * Z)
}.

(** [TileCache(max_size)] *)
Definition init (max_size : Z) : t :=
  {| max_size := max_size; _cache := ∅; _access_order := [] |}.

(** [TileCache.get]: on a hit the key moves to the end of [_access_order]. *)
Definition get (self : t) (key : Key) : result (option Image * t) :=
  match _cache self !! key with
  | Some img =>
      (order ← list_remove key (_access_order self);
       Ok (Some img,
           {| max_size := max_size self;
              _cache := _cache self;
              _access_order := order ++ [key] |}))
  | None => Ok (None, self)
  end.

(** [TileCache.put] *)
Definition put (self : t) (key : Key) (image : Image) : result t :=
  (self1 ←
     match _cache self !! key with
     | Some _ =>
         (* update of an existing entry *)
         (order ← list_remove key (_access_order self);
          Ok {| max_size := max_size self;
                _cache := _cache self;
                _access_order := order |})
     | None =>
         if Z.of_nat (size (_cache self)) >=? max_size self then
           (* drop the least recently used entry *)
           ('(oldest_key, order) ← list_pop0 (_access_order self);
            cache ← dict_del oldest_key (_cache self);
            Ok {| max_size := max_size self;
                  _cache := cache;
                  _access_order := order |})
         else Ok self
     end;
   Ok {| max_size := max_size self1;
         _cache := <[key := image]> (_cache self1);
         _access_order := _access_order self1 ++ [key] |}).

(** [TileCache.clear] *)
Definition clear (self : t) : t :=
  {| max_size := max_size self; _cache := ∅; _access_order := [] |}.

(** [TileCache.size] *)
Definition size_ (self : t) : Z := Z.of_nat (size (_cache self)).

(** The key that the next capacity-exceeding [put] removes: the head of the
    access order (the least recently used key). *)
Definition lru_key (self : t) : option Key := head (_access_order self).

(** A run of cache operations, as a client issues them. *)
Inductive op : Type :=
| OpGet (key : Key)
| OpPut (key : Key) (image : Image)
| OpClear.

Definition step (self : t) (o : op) : result t :=
  match o with
  | OpGet key => (r ← get self key ; Ok (snd r))
  | OpPut key image => put self key image
  | OpClear => Ok (clear self)
  end.

Fixpoint run (ops : list op) (self : t) : result t :=
  match ops with
  | [] => Ok self
  | o :: ops' => (self' ← step self o ; run ops' self')
  end.

(** [put_all] inserts the pairs in list order. *)
Definition put_all (kvs : list (Key * Image)) (self : t) : result t :=
  run (map (fun kv => OpPut (fst kv) (snd kv)) kvs) self.

(** Representation invariant: the access order lists every cached key once. *)
Definition wf (self : t) : Prop :=
  NoDup (_access_order self) /\
  dom (_cache self) = list_to_set (_access_order self).

End WithImage.
Arguments t : clear implicits.
Arguments op : clear implicits.
End TileCache.

(* ===================================================================== *)
(** * Floats, as CPython has them (IEEE 754 binary64)                     *)
(* ===================================================================== *)

(** [float(n)] of an [int]: the nearest binary64, ties to even. *)
Definition float_of_Z (n : Z) : float :=
  SF2Prim (binary_normalize prec emax n 0 false).

(** [int(f)]: truncation toward zero; NaN and the infinities raise. *)
Definition int_of_float (f : float) : result Z :=
  match Prim2SF f with
  | S754_zero _ => Ok 0
  | S754_finite s m e =>
      let a := if 0 <=? e then Z.shiftl (Z.pos m) e else Z.shiftr (Z.pos m) (- e) in
      Ok (if s then - a else a)
  | S754_infinity _ => Raise (OverflowError "cannot convert float infinity to integer")
  | S754_nan => Raise (ValueError "cannot convert float NaN to integer")
  end.

(** [math.pi] *)
Definition math_pi : float := 0x1.921fb54442d18p+1%float.

(** [math.radians(x)] and [math.degrees(x)] multiply by a constant. *)
Definition math_radians (x : float) : float := (x * (math_pi / 180))%float.
Definition math_degrees (x : float) : float := (x * (180 / math_pi))%float.

(** The C library functions behind [math.tan], [math.asinh], [math.atan],
    [math.sinh] and the float power [b ** n].  They are not part of the
    repository: the model takes them as an interface.  Each may raise
    ([ValueError] for a domain error, [OverflowError] for a range error). *)
Class LibM : Type := {
  math_tan : float -> result float;
  math_asinh : float -> result float;
  math_atan : float -> result float;
  math_sinh : float -> result float;
  float_pow : float -> Z -> result float
}.

(* ===================================================================== *)
(** * PIL images                                                          *)
(* ===================================================================== *)

(** An RGB pixel. *)
Definition color : Type := Z * Z * Z.

(** A raster image: its size and the colour at every position inside it. *)
Record Image : Type := mkImage {
  width : Z;
  height : Z;
  pixels : Z -> Z -> color
}.

(** [image.size] *)
Definition size_of (img : Image) : Z * Z := (width img, height img).

(** [Image.new('RGB', size, color)] *)
Definition Image_new (size : Z * Z) (c : color) : Image :=
  {| width := fst size; height := snd size; pixels := fun _ _ => c |}.

(** [image.getpixel((x, y))] *)
Definition getpixel (img : Image) (x y : Z) : option color :=
  if (0 <=? x) && (x <? width img) && (0 <=? y) && (y <? height img)
  then Some (pixels img x y) else None.

(** [dst.paste(src, (left, upper))]: the box of [src]'s size at the offset
    takes [src]'s pixels; the size of [dst] does not change. *)
Definition paste (dst src : Image) (box : Z * Z) : Image :=
  {| width := width dst;
     height := height dst;
     pixels := fun x y =>
       if (fst box <=? x) && (x <? fst box + width src) &&
          (snd box <=? y) && (y <? snd box + height src)
       then pixels src (x - fst box) (y - snd box)
       else pixels dst x y |}.

(** What the model needs of the imaging library beyond the above: the
    resampling filter of [resize] and the glyphs [ImageDraw] writes when
    [_fill_missing_tile] marks a grey tile (the text MISSING in the default
    font, or the two diagonals, or nothing when drawing failed). *)
Class PIL : Type := {
  resample_lanczos : Image -> Z * Z -> Z -> Z -> color;
  missing_marker : Image -> Z -> Z -> option color
}.

(** [image.resize(size, Image.Resampling.LANCZOS)] *)
Definition resize `{PIL} (img : Image) (size : Z * Z) : Image :=
  {| width := fst size; height := snd size;
     pixels := resample_lanczos img size |}.

(** A byte string as far as the code inspects one: [len(data)] and what
    [Image.open(BytesIO(data)).convert('RGB')] makes of it ([None]: the
    decoder raises). *)
Record Bytes : Type := mkBytes {
  bytes_len : Z;
  bytes_image : option Image
}.

(* ===================================================================== *)
(** * base.py: TileInfo and DownloadResult                                *)
(* ===================================================================== *)

Record TileInfo : Type := mkTileInfo {
  x : Z;
  y : Z;
  z : Z;
  url : string;
  file_path : string
}.

(** [TileInfo.key] *)
Definition key (t : TileInfo) : Z * Z * Z := (x t, y t, z t).

Record DownloadResult : Type := mkDownloadResult {
  tile_info : TileInfo;
  success : bool;
  image : option Image;
  error : option string;
  download_time : Q;
  file_size : Z;
  from_cache : bool
}.

(** [result.download_time = t] *)
Definition set_download_time (t : Q) (r : DownloadResult) : DownloadResult :=
  mkDownloadResult (tile_info r) (success r) (image r) (error r) t
                   (file_size r) (from_cache r).

(* ===================================================================== *)
(** * image_processor.py: TileMerger                                      *)
(* ===================================================================== *)

Module TileMerger.
Section WithPIL.
Context `{PIL}.

(** [self.tile_size] *)
Definition tile_size : Z := 256.

(** The dictionary [tile_map] after the first loop of [merge_tiles]. *)
Definition build_tile_map (download_results : list DownloadResult)
  : gmap (Z * Z) Image :=
  fold_left
    (fun tile_map result =>
       match success result, image result with
       | true, Some img =>
           <[(x (tile_info result), y (tile_info result)) := img]> tile_map
       | _, _ => tile_map
       end)
    download_results ∅.

(** The grey tile of [_fill_missing_tile], marker drawn. *)
Definition gray_tile : Image :=
  let gray := Image_new (tile_size, tile_size) (128, 128, 128) in
  {| width := width gray; height := height gray;
     pixels := fun x y =>
       match missing_marker gray x y with
       | Some c => c
       | None => pixels gray x y
       end |}.

(** [TileMerger._fill_missing_tile] *)
Definition _fill_missing_tile (image : Image) (x y : Z) : Image :=
  paste image gray_tile (x, y).

(** The variables the second loop of [merge_tiles] updates. *)
Record merge_state : Type := mkMergeState {
  merged_image : Image;
  successful_tiles : Z;
  missing_tiles : list (Z * Z)
}.

(** Body of the inner loop, for the grid cell [(grid_x, grid_y)]. *)
Definition merge_cell (tile_map : gmap (Z * Z) Image) (start_x start_y : Z)
    (grid_y : Z) (st : merge_state) (grid_x : Z) : merge_state :=
  let tile_x := start_x + grid_x in
  let tile_y := start_y + grid_y in
  let pixel_x := grid_x * tile_size in
  let pixel_y := grid_y * tile_size in
  match tile_map !! (tile_x, tile_y) with
  | Some tile_image =>
      let tile_image :=
        if decide (size_of tile_image = (tile_size, tile_size)) then tile_image
        else resize tile_image (tile_size, tile_size) in
      {| merged_image := paste (merged_image st) tile_image (pixel_x, pixel_y);
         successful_tiles := successful_tiles st + 1;
         missing_tiles := missing_tiles st |}
  | None =>
      {| merged_image := _fill_missing_tile (merged_image st) pixel_x pixel_y;
         successful_tiles := successful_tiles st;
         missing_tiles := missing_tiles st ++ [(tile_x, tile_y)] |}
  end.

(** [TileMerger.merge_tiles], with the loop variables it ends with. *)
Definition merge_tiles_state (download_results : list DownloadResult)
    (grid_size : Z) (center_tile : TileInfo) : merge_state :=
  let output_width := grid_size * tile_size in
  let output_height := grid_size * tile_size in
  let merged_image := Image_new (output_width, output_height) (0, 0, 0) in
  let tile_map := build_tile_map download_results in
  let half_grid := grid_size `div` 2 in
  let start_x := x center_tile - half_grid in
  let start_y := y center_tile - half_grid in
  fold_left
    (fun st grid_y =>
       fold_left (merge_cell tile_map start_x start_y grid_y)
                 (range 0 grid_size) st)
    (range 0 grid_size)
    {| merged_image := merged_image; successful_tiles := 0; missing_tiles := [] |}.

Definition merge_tiles (download_results : list DownloadResult)
    (grid_size : Z) (center_tile : TileInfo) : Image :=
  merged_image (merge_tiles_state download_results grid_size center_tile).

End WithPIL.
End TileMerger.

(* ===================================================================== *)
(** * data_loader.py: GeoPoint; image_processor.py: ImageProcessor        *)
(* ===================================================================== *)

Record GeoPoint : Type := mkGeoPoint {
  longitude : float;
  latitude : float;
  properties : list (string * string);
  index : Z
}.

(** Projections share one name space: a field whose name another record
    or a constant already has carries a prefix, with the source's name next
    to it. *)
Record PixelCoordinate : Type := mkPixelCoordinate {
  px_x : float;      (* PixelCoordinate.x *)
  px_y : float       (* PixelCoordinate.y *)
}.

(** The dictionary [bounds] of an [ImageMetadata]. *)
Record Bounds : Type := mkBounds {
  min_lon : float;
  min_lat : float;
  max_lon : float;
  max_lat : float
}.

(** One entry of [ImageMetadata.pixel_coordinates]. *)
Record PixelRecord : Type := mkPixelRecord {
  point_index : Z;
  rec_longitude : float;                    (* 'longitude' *)
  rec_latitude : float;                     (* 'latitude' *)
  pixel_x : float;
  pixel_y : float;
  rec_properties : list (string * string)   (* 'properties' *)
}.

Record ImageMetadata : Type := mkImageMetadata {
  md_width : Z;       (* ImageMetadata.width *)
  md_height : Z;      (* ImageMetadata.height *)
  zoom_level : Z;
  md_tile_size : Z;   (* ImageMetadata.tile_size *)
  md_grid_size : Z;   (* ImageMetadata.grid_size *)
  center_point : GeoPoint;
  bounds : Bounds;
  pixel_coordinates : list PixelRecord
}.

Module ImageProcessor.
Section WithLibs.
Context `{LibM} `{PIL}.

(** [ImageProcessor._geo_to_tile_float] *)
Definition _geo_to_tile_float (lon lat : float) (zoom : Z) : result (float * float) :=
  let lat_rad := math_radians lat in
  n ← float_pow 2 zoom;
  let x := ((lon + 180) / 360 * n)%float in
  t ← math_tan lat_rad;
  a ← math_asinh t;
  let y := ((1 - a / math_pi) / 2 * n)%float in
  Ok (x, y).

(** [ImageProcessor._geo_to_tile] *)
Definition _geo_to_tile (lon lat : float) (zoom : Z) : result (Z * Z) :=
  let lat_rad := math_radians lat in
  n ← float_pow 2 zoom;
  x ← int_of_float ((lon + 180) / 360 * n)%float;
  t ← math_tan lat_rad;
  a ← math_asinh t;
  y ← int_of_float ((1 - a / math_pi) / 2 * n)%float;
  Ok (x, y).

(** [ImageProcessor._tile_to_geo] *)
Definition _tile_to_geo (x y zoom : Z) : result (float * float) :=
  n ← float_pow 2 zoom;
  let lon := (float_of_Z x / n * 360 - 180)%float in
  s ← math_sinh (math_pi * (1 - float_of_Z (2 * y) / n))%float;
  lat_rad ← math_atan s;
  let lat := math_degrees lat_rad in
  Ok (lon, lat).

(** [ImageProcessor._geo_to_pixel] *)
Definition _geo_to_pixel (point : GeoPoint) (center_tile : TileInfo) (grid_size : Z)
  : result PixelCoordinate :=
  '(point_tile_x, point_tile_y) ←
     _geo_to_tile_float (longitude point) (latitude point) (z center_tile);
  let half_grid := grid_size `div` 2 in
  let start_tile_x := x center_tile - half_grid in
  let start_tile_y := y center_tile - half_grid in
  let relative_tile_x := (point_tile_x - float_of_Z start_tile_x)%float in
  let relative_tile_y := (point_tile_y - float_of_Z start_tile_y)%float in
  let pixel_x := (relative_tile_x * 256)%float in
  let pixel_y := (relative_tile_y * 256)%float in
  Ok (mkPixelCoordinate pixel_x pixel_y).

(** [ImageProcessor._create_image_metadata] *)
Definition _create_image_metadata (image : Image) (center_point : GeoPoint)
    (center_tile : TileInfo) (grid_size zoom_level : Z) (pixel_coord : PixelCoordinate)
  : result ImageMetadata :=
  let half_grid := grid_size `div` 2 in
  let top_left_tile_x := x center_tile - half_grid in
  let top_left_tile_y := y center_tile - half_grid in
  let bottom_right_tile_x := x center_tile + half_grid in
  let bottom_right_tile_y := y center_tile + half_grid in
  '(min_lon, max_lat) ← _tile_to_geo top_left_tile_x top_left_tile_y zoom_level;
  '(max_lon, min_lat) ← _tile_to_geo bottom_right_tile_x bottom_right_tile_y zoom_level;
  let bounds := mkBounds min_lon min_lat max_lon max_lat in
  let pixel_coordinates :=
    [ {| point_index := index center_point;
         rec_longitude := longitude center_point;
         rec_latitude := latitude center_point;
         pixel_x := px_x pixel_coord;
         pixel_y := px_y pixel_coord;
         rec_properties := properties center_point |} ] in
  Ok {| md_width := width image;
        md_height := height image;
        zoom_level := zoom_level;
        md_tile_size := 256;
        md_grid_size := grid_size;
        center_point := center_point;
        bounds := bounds;
        pixel_coordinates := pixel_coordinates |}.

(** [ImageProcessor.process_point_image] *)
Definition process_point_image (point : GeoPoint)
    (download_results : list DownloadResult) (zoom_level grid_size : Z)
  : result (Image * ImageMetadata) :=
  '(center_tile_x, center_tile_y) ←
     _geo_to_tile (longitude point) (latitude point) zoom_level;
  let center_tile := mkTileInfo center_tile_x center_tile_y zoom_level "" "" in
  let merged_image := TileMerger.merge_tiles download_results grid_size center_tile in
  pixel_coord ← _geo_to_pixel point center_tile grid_size;
  metadata ← _create_image_metadata merged_image point center_tile grid_size
               zoom_level pixel_coord;
  Ok (merged_image, metadata).

End WithLibs.
End ImageProcessor.

(* ===================================================================== *)
(** * Stateful code that may raise                                        *)
(* ===================================================================== *)

(** A computation over a mutable world [S]: it ends in a value or in an
    exception, and the mutations made before the exception stay. *)
Definition Py (S A : Type) : Type := S -> result A * S.

#[global] Instance Py_ret {S} : MRet (Py S) := fun _ a st => (Ok a, st).
#[global] Instance Py_bind {S} : MBind (Py S) := fun _ _ k m st =>
  match m st with
  | (Ok a, st') => k a st'
  | (Raise e, st') => (Raise e, st')
  end.

(** [raise e] *)
Definition raise {S A} (e : exn) : Py S A := fun st => (Raise e, st).

(** [try: body except Exception as e: handler(e)] *)
Definition try_except {S A} (body : Py S A) (handler : exn -> Py S A) : Py S A :=
  fun st =>
    match body st with
    | (Ok a, st') => (Ok a, st')
    | (Raise e, st') => handler e st'
    end.

(** A pure statement that may raise, run inside a stateful computation. *)
Definition lift {S A} (r : result A) : Py S A := fun st => (r, st).

Definition gets {S A} (f : S -> A) : Py S A := fun st => (Ok (f st), st).
Definition modify {S} (f : S -> S) : Py S unit := fun st => (Ok tt, f st).

(* ===================================================================== *)
(** * base.py and sync_downloader.py: the downloader                      *)
(* ===================================================================== *)

(** The read-only configuration, [config.download], [config.paths] and
    [config.network] flattened into one record. *)
Module Config.
Record t : Type := mk {
  base_url : string;                   (* network.base_url *)
  tile_save_dir : string;              (* paths.tile_save_dir *)
  output_dir : string;                 (* paths.output_dir *)
  zoom_level : Z;                      (* download.zoom_level *)
  grid_size : Z;                       (* download.grid_size *)
  max_retries : Z;                     (* download.max_retries *)
  backoff_base : Q;                    (* download.backoff_base *)
  retry_wait_range : Q * Q;            (* download.retry_wait_range *)
  request_interval_range : Q * Q;      (* download.request_interval_range *)
  request_timeout : Q                  (* download.request_timeout *)
}.
End Config.

(** An HTTP response, as far as [_download_with_retry] reads it. *)
Record Response : Type := mkResponse {
  status_code : Z;
  content_type : option string;        (* headers.get('content-type') *)
  content : Bytes
}.

Inductive HttpOutcome : Type :=
| HttpRaises (e : exn)                 (* [session.get] raises *)
| HttpReturns (r : Response).

(** Everything outside the process: the tile server, the random number
    generator, the file system's failures, the wall clock.  Each oracle is
    indexed by how many calls were made before. *)
Record World : Type := mkWorld {
  http_get : nat -> string -> HttpOutcome;
  http_latency : nat -> Q;
  uniform : nat -> Q -> Q -> Q;        (* [random.uniform(a, b)] *)
  save_fails : string -> bool;         (* [image.save(path)] raises OSError *)
  png_size : Image -> Z;               (* size of the PNG encoding *)
  open_error : Bytes -> string         (* [str(e)] of what [Image.open] raises *)
}.

(** What the outside can observe of a run, in order. *)
Inductive event : Type :=
| EvCacheGet (key : Z * Z * Z)         (* [self.cache.get(key)] *)
| EvPathExists (path : string)         (* [os.path.exists(path)] *)
| EvHttpGet (url : string)             (* [self.session.get(url, ...)] *)
| EvSleep (seconds : Q).               (* [time.sleep(seconds)] *)

(** The keys of [PerformanceMonitor.stats] the downloader updates. *)
Inductive stat_key : Type :=
| total_downloads | successful_downloads | failed_downloads
| total_bytes | cache_hits | cache_misses.

#[global] Instance stat_key_eq_dec : EqDecision stat_key.
Proof. solve_decision. Defined.

(** Seconds are rationals: a wait is its exact value, without the rounding
    of the floats.  What the floats and the clock refuse is kept: a power
    out of the range of a binary64, a negative duration, a duration too
    long for the clock. *)

(** [x < y] *)
Definition Qltb (x y : Q) : bool := negb (Qle_bool y x).

(** What the clock counts: nanoseconds, in a signed 64-bit integer. *)
Definition nanoseconds (seconds : Q) : Q := (seconds * 10 ^ 9)%Q.
Definition sleep_limit : Q := (2 ^ 63)%Q.

(** The least magnitude that rounds to an infinite binary64. *)
Definition float_overflow : Q := (2 ^ 1024 - 2 ^ 970)%Q.

(** [base ** n] on floats for an exponent that is not negative (an attempt
    index): [OverflowError] when the result is out of range. *)
Definition py_float_pow (base : Q) (n : Z) : result Q :=
  let r := (base ^ n)%Q in
  if Qle_bool float_overflow (Qabs r)
  then Raise (OverflowError "(34, 'Numerical result out of range')")
  else Ok r.

Module Downloader.

(** The mutable part of a downloader and of its surroundings. *)
Record state : Type := mkState {
  cache : TileCache.t Image;           (* self.cache *)
  disk : gmap string Bytes;            (* the files of the tile store *)
  monitor : stat_key -> Z;             (* self.monitor.stats *)
  clock : Q;                           (* time.time() *)
  http_calls : nat;
  rng_calls : nat;
  trace : list event                   (* oldest first *)
}.

Definition set_cache (c : TileCache.t Image) (st : state) : state :=
  mkState c (disk st) (monitor st) (clock st) (http_calls st) (rng_calls st) (trace st).
Definition set_disk (d : gmap string Bytes) (st : state) : state :=
  mkState (cache st) d (monitor st) (clock st) (http_calls st) (rng_calls st) (trace st).
Definition set_monitor (m : stat_key -> Z) (st : state) : state :=
  mkState (cache st) (disk st) m (clock st) (http_calls st) (rng_calls st) (trace st).
Definition set_clock (t : Q) (st : state) : state :=
  mkState (cache st) (disk st) (monitor st) t (http_calls st) (rng_calls st) (trace st).
Definition set_http_calls (n : nat) (st : state) : state :=
  mkState (cache st) (disk st) (monitor st) (clock st) n (rng_calls st) (trace st).
Definition set_rng_calls (n : nat) (st : state) : state :=
  mkState (cache st) (disk st) (monitor st) (clock st) (http_calls st) n (trace st).
Definition emit (e : event) (st : state) : state :=
  mkState (cache st) (disk st) (monitor st) (clock st) (http_calls st) (rng_calls st)
          (trace st ++ [e]).

(** [BaseDownloader.__init__]: a fresh downloader over a given tile store. *)
Definition init (disk : gmap string Bytes) : state :=
  {| cache := TileCache.init 1000; disk := disk; monitor := fun _ => 0;
     clock := 0%Q; http_calls := 0; rng_calls := 0; trace := [] |}.

Section WithWorld.
Context (config : Config.t) (world : World).

(** ** The primitive statements *)

(** [time.time()] *)
Definition time_time : Py state Q := gets clock.

(** [time.sleep(seconds)]: a negative duration is refused with
    [ValueError], one that does not fit the clock's signed 64-bit count of
    nanoseconds with [OverflowError]; nothing is waited for then. *)
Definition time_sleep (seconds : Q) : Py state unit :=
  if Qltb seconds 0 then raise (ValueError "sleep length must be non-negative")
  else if Qle_bool sleep_limit (nanoseconds seconds)
  then raise (OverflowError "timestamp too large to convert to C _PyTime_t")
  else modify (fun st => set_clock (clock st + seconds)%Q (emit (EvSleep seconds) st)).

(** [random.uniform(a, b)] *)
Definition random_uniform (ab : Q * Q) : Py state Q :=
  fun st => (Ok (uniform world (rng_calls st) (fst ab) (snd ab)),
             set_rng_calls (S (rng_calls st)) st).

(** [self.monitor.update_stats(key, value)] *)
Definition update_stats (key : stat_key) (value : Z) : Py state unit :=
  modify (fun st =>
    set_monitor (fun k => if decide (k = key) then monitor st k + value
                          else monitor st k) st).

(** [self.cache.get(key)] *)
Definition cache_get (key : Z * Z * Z) : Py state (option Image) :=
  fun st =>
    let st := emit (EvCacheGet key) st in
    match TileCache.get (cache st) key with
    | Ok (r, c) => (Ok r, set_cache c st)
    | Raise e => (Raise e, st)
    end.

(** [self.cache.put(key, image)] *)
Definition cache_put (key : Z * Z * Z) (image : Image) : Py state unit :=
  fun st =>
    match TileCache.put (cache st) key image with
    | Ok c => (Ok tt, set_cache c st)
    | Raise e => (Raise e, st)
    end.

(** [os.path.exists(path)] *)
Definition path_exists (path : string) : Py state bool :=
  fun st => (Ok (bool_decide (is_Some (disk st !! path))),
             emit (EvPathExists path) st).

(** [Image.open(path).convert('RGB')] *)
Definition image_open_file (path : string) : Py state Image :=
  fun st =>
    match disk st !! path with
    | Some data =>
        match bytes_image data with
        | Some img => (Ok img, st)
        | None => (Raise (OSError "cannot identify image file"), st)
        end
    | None => (Raise (OSError "No such file or directory"), st)
    end.

(** [os.makedirs(dirname, exist_ok=True); image.save(path, 'PNG')] *)
Definition image_save (image : Image) (path : string) : Py state unit :=
  fun st =>
    if save_fails world path then (Raise (OSError "cannot write file"), st)
    else (Ok tt, set_disk (<[path := mkBytes (png_size world image) (Some image)]>
                             (disk st)) st).

(** [os.path.getsize(path)] *)
Definition path_getsize (path : string) : Py state Z :=
  fun st =>
    match disk st !! path with
    | Some data => (Ok (bytes_len data), st)
    | None => (Raise (OSError "No such file or directory"), st)
    end.

(** [self.session.get(url, timeout=..., stream=True)] *)
Definition session_get (url : string) : Py state Response :=
  fun st =>
    let n := http_calls st in
    let st := set_clock (clock st + http_latency world n)%Q
                (set_http_calls (S n) (emit (EvHttpGet url) st)) in
    match http_get world n url with
    | HttpRaises e => (Raise e, st)
    | HttpReturns r => (Ok r, st)
    end.

(** [response.raise_for_status()] *)
Definition raise_for_status (r : Response) : Py state unit :=
  if (400 <=? status_code r) && (status_code r <? 600)
  then raise (HTTPError (status_code r)) else mret tt.

(** ** BaseDownloader *)

(** [BaseDownloader.generate_tile_url] *)
Definition generate_tile_url (x y z : Z) : string :=
  Config.base_url config +:+ "&x=" +:+ pretty x +:+ "&y=" +:+ pretty y
    +:+ "&z=" +:+ pretty z.

(** [BaseDownloader.generate_tile_path]; [os.path.join] puts one separator
    between the directory and the file name. *)
Definition generate_tile_path (x y z : Z) : string :=
  let filename := "tile_" +:+ pretty z +:+ "_" +:+ pretty x +:+ "_" +:+ pretty y
                    +:+ ".png" in
  Config.tile_save_dir config +:+ "/" +:+ filename.

(** [BaseDownloader.create_tile_info] *)
Definition create_tile_info (x y z : Z) : TileInfo :=
  {| x := x; y := y; z := z;
     url := generate_tile_url x y z;
     file_path := generate_tile_path x y z |}.

(** [BaseDownloader.load_cached_tile] *)
Definition load_cached_tile (tile_info : TileInfo) : Py state (option Image) :=
  cached_image ← cache_get (key tile_info);
  match cached_image with
  | Some img => update_stats cache_hits 1;; mret (Some img)
  | None =>
      present ← path_exists (file_path tile_info);
      loaded ←
        (if present : bool then
           try_except
             (image ← image_open_file (file_path tile_info);
              cache_put (key tile_info) image;;
              update_stats cache_hits 1;;
              mret (Some image))
             (fun e => (* logger.warning *) mret None)
         else mret None);
      match loaded with
      | Some img => mret (Some img)
      | None => update_stats cache_misses 1;; mret None
      end
  end.

(** [BaseDownloader.save_tile] *)
Definition save_tile (tile_info : TileInfo) (image : Image) : Py state unit :=
  try_except
    (image_save image (file_path tile_info);;
     cache_put (key tile_info) image;;
     file_size ← path_getsize (file_path tile_info);
     update_stats total_bytes file_size)
    (fun e => raise (DownloadError
       ("保存瓦片失败: " +:+ file_path tile_info +:+ ", 错误: " +:+ exn_str e))).

(** [BaseDownloader.add_random_delay] *)
Definition add_random_delay : Py state unit :=
  delay ← random_uniform (Config.request_interval_range config);
  time_sleep delay.

(** [BaseDownloader.validate_tile_coordinates] *)
Definition validate_tile_coordinates (x y z : Z) : bool :=
  if (z <? 0) || (20 <? z) then false
  else
    let max_coord := Z.shiftl 1 z in
    (0 <=? x) && (x <? max_coord) && (0 <=? y) && (y <? max_coord).

End WithWorld.
End Downloader.

(** The [mercantile] package: [mercantile.tile(lng, lat, zoom)] gives the
    tile that holds a point.  It is not part of the repository. *)
Class Mercantile : Type := {
  mercantile_tile : float -> float -> Z -> result (Z * Z)
}.

Module BaseDownloader.
Section WithConfig.
Context (config : Config.t) `{Mercantile}.

(** Body of the inner loop of [calculate_tiles_for_point]. *)
Definition tiles_cell (center_x center_y zoom dx : Z) (tiles : list TileInfo) (dy : Z)
  : result (list TileInfo) :=
  let x := center_x + dx in
  let y := center_y + dy in
  max_coord ← py_lshift 1 zoom;
  if (0 <=? x) && (x <? max_coord) && (0 <=? y) && (y <? max_coord)
  then Ok (tiles ++ [Downloader.create_tile_info config x y zoom])
  else Ok tiles.

(** [for v in l: acc = body(acc, v)] where the body may raise. *)
Fixpoint for_each {A B} (body : A -> B -> result A) (l : list B) (acc : A) : result A :=
  match l with
  | [] => Ok acc
  | v :: l' => acc' ← body acc v; for_each body l' acc'
  end.

(** [BaseDownloader.calculate_tiles_for_point] *)
Definition calculate_tiles_for_point (lon lat : float) (zoom grid_size : Z)
  : result (list TileInfo) :=
  '(center_x, center_y) ← mercantile_tile lon lat zoom;
  let half := grid_size `div` 2 in
  for_each
    (fun tiles dx =>
       for_each (tiles_cell center_x center_y zoom dx) (range (- half) (half + 1)) tiles)
    (range (- half) (half + 1)) [].

End WithConfig.
End BaseDownloader.

Module SyncDownloader.
Import Downloader.
Section WithWorld.
Context (config : Config.t) (world : World).

(** The [except] clauses at the end of [_download_with_retry]: every
    exception leaves as a [DownloadError]. *)
Definition classify_error (e : exn) : exn :=
  match e with
  | RequestsTimeout => DownloadError "请求超时"
  | RequestsConnectionError => DownloadError "连接错误"
  | HTTPError status =>
      if status =? 404 then DownloadError "瓦片不存在 (404)"
      else if status =? 429 then DownloadError "请求过于频繁 (429)"
      else if 500 <=? status then DownloadError ("服务器错误 (" +:+ pretty status +:+ ")")
      else DownloadError ("HTTP错误 (" +:+ pretty status +:+ ")")
  | e => DownloadError ("未知错误: " +:+ exn_str e)
  end.

(** [str.startswith('image/')] *)
Definition is_image_type (content_type : string) : bool :=
  bool_decide (String.substring 0 6 content_type = "image/").

(** [SyncDownloader._download_with_retry]: one attempt. *)
Definition _download_with_retry (tile_info : TileInfo) (attempt : Z)
  : Py state DownloadResult :=
  try_except
    ((if 0 <? attempt then add_random_delay config world else mret tt);;
     response ← session_get world (url tile_info);
     raise_for_status response;;
     let content_type := default "" (content_type response) in
     (if is_image_type content_type then mret tt
      else raise (DownloadError ("响应不是图像类型: " +:+ content_type)));;
     let image_data := content response in
     (if bytes_len image_data =? 0 then raise (DownloadError "响应内容为空")
      else mret tt);;
     image ← match bytes_image image_data with
             | Some img => mret img
             | None => raise (DownloadError
                                ("图像解析失败: " +:+ open_error world image_data))
             end;
     (* a size other than (256, 256) is only logged *)
     save_tile world tile_info image;;
     mret {| tile_info := tile_info; success := true; image := Some image;
             error := None; download_time := 0%Q;
             file_size := bytes_len image_data; from_cache := false |})
    (fun e => raise (classify_error e)).

(** The [for attempt in range(max_retries + 1)] loop of [download_tile];
    [Some result] when the body returns from the function. *)
Fixpoint download_attempts (tile_info : TileInfo) (start_time : Q)
    (attempts : list Z) : Py state (option DownloadResult) :=
  match attempts with
  | [] => mret None
  | attempt :: rest =>
      returned ←
        try_except
          (result ← _download_with_retry tile_info attempt;
           if success result then
             now ← time_time;
             let result := set_download_time (now - start_time)%Q result in
             update_stats successful_downloads 1;;
             mret (Some result)
           else mret None)
          (fun e =>
             (* logger.warning *)
             (if attempt <? Config.max_retries config then
                backoff_time ← lift (py_float_pow (Config.backoff_base config) attempt);
                retry_wait ← random_uniform world (Config.retry_wait_range config);
                let total_wait := (backoff_time + retry_wait)%Q in
                time_sleep total_wait
              else mret tt);;
             mret None);
      match returned with
      | Some result => mret (Some result)
      | None => download_attempts tile_info start_time rest
      end
  end.

(** [SyncDownloader.download_tile] *)
Definition download_tile (tile_info : TileInfo) : Py state DownloadResult :=
  start_time ← time_time;
  cached_image ← load_cached_tile tile_info;
  match cached_image with
  | Some img =>
      mret {| tile_info := tile_info; success := true; image := Some img;
              error := None; download_time := 0%Q; file_size := 0;
              from_cache := true |}
  | None =>
      if negb (validate_tile_coordinates (x tile_info) (y tile_info) (z tile_info))
      then
        mret {| tile_info := tile_info; success := false; image := None;
                error := Some ("无效的瓦片坐标: (" +:+ pretty (x tile_info) +:+ ", "
                               +:+ pretty (y tile_info) +:+ ", "
                               +:+ pretty (z tile_info) +:+ ")");
                download_time := 0%Q; file_size := 0; from_cache := false |}
      else
        returned ← download_attempts tile_info start_time
                     (range 0 (Config.max_retries config + 1));
        match returned with
        | Some result => mret result
        | None =>
            update_stats failed_downloads 1;;
            now ← time_time;
            mret {| tile_info := tile_info; success := false; image := None;
                    error := Some ("下载失败，已重试 "
                                   +:+ pretty (Config.max_retries config) +:+ " 次");
                    download_time := (now - start_time)%Q; file_size := 0;
                    from_cache := false |}
        end
  end.

(** Body of the loop of [download_tiles] for the [i]-th tile (from 1).  The
    single [try] of the source is written as two nested ones with the same
    handler, so that the handler sees [results] as the statements before the
    exception left it. *)
Definition download_tiles_step (total_tiles : Z) (results : list DownloadResult)
    (i : Z) (tile_info : TileInfo) : Py state (list DownloadResult) :=
  let on_error (results : list DownloadResult) (e : exn)
    : Py state (list DownloadResult) :=
    (* logger.error *)
    mret (results ++ [ {| tile_info := tile_info; success := false; image := None;
                          error := Some (exn_str e); download_time := 0%Q;
                          file_size := 0; from_cache := false |} ]) in
  try_except
    (result ← download_tile tile_info;
     let results := results ++ [result] in
     try_except
       ((* progress log; self.monitor.record_performance() *)
        (if i <? total_tiles then add_random_delay config world else mret tt);;
        mret results)
       (on_error results))
    (on_error results).

Fixpoint download_tiles_loop (total_tiles : Z) (results : list DownloadResult)
    (i : Z) (tiles : list TileInfo) : Py state (list DownloadResult) :=
  match tiles with
  | [] => mret results
  | tile_info :: rest =>
      results ← download_tiles_step total_tiles results i tile_info;
      download_tiles_loop total_tiles results (i + 1) rest
  end.

(** [SyncDownloader.download_tiles] *)
Definition download_tiles (tiles : list TileInfo) : Py state (list DownloadResult) :=
  let total_tiles := Z.of_nat (length tiles) in
  update_stats total_downloads total_tiles;;
  download_tiles_loop total_tiles [] 1 tiles.

End WithWorld.
End SyncDownloader.

(* ===================================================================== *)
(** * data_processor.py: DataProcessor                                    *)
(* ===================================================================== *)

(** [str.zfill(width)] on the digits of a number. *)
Definition zfill (w : nat) (s : string) : string :=
  String.concat "" (replicate (w - String.length s) "0") +:+ s.

(** The format [{n:06d}]. *)
Definition format_06d (n : Z) : string :=
  if n <? 0 then "-" +:+ zfill 5 (pretty (- n)) else zfill 6 (pretty n).

(** The keys of [DataProcessor.stats] that count. *)
Inductive proc_key : Type :=
| total_points | successful_points | failed_points
| total_tiles | successful_tiles | failed_tiles.

#[global] Instance proc_key_eq_dec : EqDecision proc_key.
Proof. solve_decision. Defined.

Module DataProcessor.

(** [self.downloader], as the processor uses it: the two attributes it
    looks up.  An attribute the object's class does not define is [None];
    calling it raises [AttributeError]. *)
Record downloader_object : Type := mkDownloader {
  calculate_tiles_around_point :
    option (float -> float -> Z -> Z -> result (list TileInfo));
  download_tiles : list TileInfo -> Py Downloader.state (list DownloadResult)
}.

(** A [SyncDownloader] instance.  The class and its base define
    [calculate_tiles_for_point]; neither defines an attribute named
    [calculate_tiles_around_point]. *)
Definition sync_downloader (config : Config.t) (world : World) : downloader_object :=
  {| calculate_tiles_around_point := None;
     download_tiles := SyncDownloader.download_tiles config world |}.

Record state : Type := mkState {
  downloader_state : Downloader.state;
  stats : proc_key -> Z;                      (* self.stats *)
  image_files : gmap string Image;            (* the PNG files written *)
  metadata_files : gmap string ImageMetadata  (* the JSON files written *)
}.

Definition set_downloader_state (d : Downloader.state) (st : state) : state :=
  mkState d (stats st) (image_files st) (metadata_files st).
Definition set_stats (s : proc_key -> Z) (st : state) : state :=
  mkState (downloader_state st) s (image_files st) (metadata_files st).
Definition set_image_files (f : gmap string Image) (st : state) : state :=
  mkState (downloader_state st) (stats st) f (metadata_files st).
Definition set_metadata_files (f : gmap string ImageMetadata) (st : state) : state :=
  mkState (downloader_state st) (stats st) (image_files st) f.

(** [DataProcessor.__init__] and the downloader [process_dataset] creates. *)
Definition init (disk : gmap string Bytes) : state :=
  {| downloader_state := Downloader.init disk; stats := fun _ => 0;
     image_files := ∅; metadata_files := ∅ |}.

Section WithWorld.
Context (config : Config.t) (world : World) (downloader : downloader_object).
Context `{LibM} `{PIL}.

(** [self.stats[key] += value] *)
Definition stats_add (key : proc_key) (value : Z) : Py state unit :=
  modify (fun st =>
    set_stats (fun k => if decide (k = key) then stats st k + value else stats st k) st).

(** A method of [self.downloader] runs on the downloader's part of the state. *)
Definition on_downloader {A} (m : Py Downloader.state A) : Py state A :=
  fun st =>
    let '(r, d) := m (downloader_state st) in (r, set_downloader_state d st).

(** [DataProcessor._calculate_tiles_for_point] *)
Definition _calculate_tiles_for_point (point : GeoPoint) : Py state (list TileInfo) :=
  match calculate_tiles_around_point downloader with
  | None => raise (AttributeError "calculate_tiles_around_point")
  | Some method =>
      lift (method (longitude point) (latitude point)
                   (Config.zoom_level config) (Config.grid_size config))
  end.

(** [DataProcessor._download_tiles] *)
Definition _download_tiles (tiles : list TileInfo) : Py state (list DownloadResult) :=
  on_downloader (download_tiles downloader tiles).

(** [DataProcessor._save_image] *)
Definition _save_image (image : Image) (point_index : Z) : Py state string :=
  let filename := "point_" +:+ format_06d point_index +:+ ".png" in
  let file_path := Config.output_dir config +:+ "/" +:+ filename in
  try_except
    (fun st =>
       if save_fails world file_path then (Raise (OSError "cannot write file"), st)
       else (Ok file_path, set_image_files (<[file_path := image]> (image_files st)) st))
    (fun e => raise (DataProcessingError ("保存图像失败: " +:+ exn_str e))).

(** [MetadataManager.save_image_metadata(metadata, point_index, 'json')] *)
Definition save_image_metadata (metadata : ImageMetadata) (point_index : Z)
  : Py state string :=
  let filename := "point_" +:+ format_06d point_index +:+ "_metadata.json" in
  let file_path := Config.output_dir config +:+ "/" +:+ filename in
  try_except
    (fun st =>
       if save_fails world file_path then (Raise (OSError "cannot write file"), st)
       else (Ok file_path,
             set_metadata_files (<[file_path := metadata]> (metadata_files st)) st))
    (fun e => raise (DataProcessingError ("保存图像元数据失败: " +:+ exn_str e))).

(** [sum(1 for r in download_results if r.success)] *)
Definition count_success (download_results : list DownloadResult) : Z :=
  Z.of_nat (length (filter (fun r => success r = true) download_results)).

(** [DataProcessor._process_single_point] *)
Definition _process_single_point (point : GeoPoint) (point_index : Z)
  : Py state (option ImageMetadata) :=
  try_except
    (tiles ← _calculate_tiles_for_point point;
     stats_add total_tiles (Z.of_nat (length tiles));;
     download_results ← _download_tiles tiles;
     let successful_downloads := count_success download_results in
     let failed_downloads := Z.of_nat (length download_results) - successful_downloads in
     stats_add successful_tiles successful_downloads;;
     stats_add failed_tiles failed_downloads;;
     if successful_downloads =? 0 then
       (* logger.warning *)
       mret None
     else
       '(image, metadata) ←
          lift (ImageProcessor.process_point_image point download_results
                  (Config.zoom_level config) (Config.grid_size config));
       image_path ← _save_image image point_index;
       metadata_path ← save_image_metadata metadata point_index;
       mret (Some metadata))
    (fun e => (* logger.error *) mret None).

(** Body of the loop of [_process_points]. *)
Definition process_points_step (image_metadatas : list ImageMetadata)
    (i : Z) (point : GeoPoint) : Py state (list ImageMetadata) :=
  try_except
    (image_metadata ← _process_single_point point i;
     match image_metadata with
     | Some md => stats_add successful_points 1;; mret (image_metadatas ++ [md])
     | None => stats_add failed_points 1;; mret image_metadatas
     end)
    (fun e => (* logger.error *) stats_add failed_points 1;; mret image_metadatas).

Fixpoint process_points_loop (image_metadatas : list ImageMetadata)
    (i : Z) (points : list GeoPoint) : Py state (list ImageMetadata) :=
  match points with
  | [] => mret image_metadatas
  | point :: rest =>
      image_metadatas ← process_points_step image_metadatas i point;
      process_points_loop image_metadatas (i + 1) rest
  end.

(** [DataProcessor._process_points] *)
Definition _process_points (points : list GeoPoint) : Py state (list ImageMetadata) :=
  process_points_loop [] 0 points.

End WithWorld.
End DataProcessor.

(* ===================================================================== *)
(** * base.py: resetting a downloader                                     *)
(* ===================================================================== *)

Module DownloaderStatistics.
Import Downloader.

(** [PerformanceMonitor.reset], as far as the counters go:
    [self.stats = {key: 0 for key in self.stats}]. *)
Definition monitor_reset : Py state unit := modify (set_monitor (fun _ => 0)).

(** [BaseDownloader.reset_statistics]: [self.monitor.reset()] and then
    [self.cache.clear()]. *)
Definition reset_statistics : Py state unit :=
  monitor_reset;;
  modify (fun st => set_cache (TileCache.clear (cache st)) st).

End DownloaderStatistics.

(* ===================================================================== *)
(** * data_loader.py: GeoPoint.validate; data_processor.py: _load_points  *)
(* ===================================================================== *)

Module DataLoader.

(** [GeoPoint.validate]: [-180 <= longitude <= 180 and -90 <= latitude <= 90]
    on floats; a comparison with NaN is false. *)
Definition validate (p : GeoPoint) : bool :=
  ((-180 <=? longitude p) && (longitude p <=? 180) &&
   (-90 <=? latitude p) && (latitude p <=? 90))%float.

End DataLoader.

Module DataProcessorInput.

(** [DataProcessor._load_points].  [loaded] is what
    [self.data_loader.load_points(input_file, self.config)] returns or
    raises; the files and their parsers are outside the model. *)
Definition _load_points (loaded : result (list GeoPoint)) : result (list GeoPoint) :=
  let body : result (list GeoPoint) :=
    points ← loaded;
    match points with
    | [] => Raise (DataProcessingError "没有找到有效的地理点数据")
    | _ :: _ =>
        (* for point in points: if point.validate(): valid_points.append(point) *)
        Ok (List.filter DataLoader.validate points)
    end in
  match body with
  | Ok valid_points => Ok valid_points
  | Raise e => Raise (DataProcessingError ("加载地理点数据失败: " +:+ exn_str e))
  end.

End DataProcessorInput.

(* ===================================================================== *)
(** * async_downloader.py: download_tiles_batch                           *)
(* ===================================================================== *)

Module AsyncDownloader.

(** [range(start, stop, step)], with the length CPython computes for it. *)
Definition range_step (start stop step : Z) : result (list Z) :=
  if step =? 0 then Raise (ValueError "range() arg 3 must not be zero")
  else
    let n :=
      if 0 <? step
      then (if start <? stop then (stop - start - 1) `div` step + 1 else 0)
      else (if stop <? start then (start - stop - 1) `div` (- step) + 1 else 0) in
    Ok ((fun k => start + k * step) <$> seqZ 0 n).

(** [l[i:j]]: a negative bound counts from the end, and both are clipped to
    the list. *)
Definition slice {A} (l : list A) (i j : Z) : list A :=
  let len := Z.of_nat (length l) in
  let clip k := if k <? 0 then Z.max 0 (k + len) else Z.min k len in
  take (Z.to_nat (clip j - clip i)) (drop (Z.to_nat (clip i)) l).

Section WithLoop.
(** The event loop is outside the model: [download_tiles_async] and
    [asyncio.sleep] are whatever computations over the downloader's state
    they are. *)
Context {S : Type}.
Variable download_tiles_async : list TileInfo -> Py S (list DownloadResult).
Variable asyncio_sleep : Q -> Py S unit.

(** Body of the loop of [download_tiles_batch]; [batch_num] and
    [total_batches] only go to the log. *)
Definition batch_step (tiles : list TileInfo) (batch_size : Z)
    (all_results : list DownloadResult) (i : Z) : Py S (list DownloadResult) :=
  let total_tiles := Z.of_nat (length tiles) in
  let batch := slice tiles i (i + batch_size) in
  batch_results ← download_tiles_async batch;
  let all_results := all_results ++ batch_results in
  (if i + batch_size <? total_tiles then asyncio_sleep 1 else mret tt);;
  mret all_results.

Fixpoint batch_loop (tiles : list TileInfo) (batch_size : Z) (indices : list Z)
    (all_results : list DownloadResult) : Py S (list DownloadResult) :=
  match indices with
  | [] => mret all_results
  | i :: rest =>
      all_results ← batch_step tiles batch_size all_results i;
      batch_loop tiles batch_size rest all_results
  end.

(** [AsyncDownloader.download_tiles_batch] *)
Definition download_tiles_batch (tiles : list TileInfo) (batch_size : Z)
  : Py S (list DownloadResult) :=
  let total_tiles := Z.of_nat (length tiles) in
  indices ← lift (range_step 0 total_tiles batch_size);
  batch_loop tiles batch_size indices [].

End WithLoop.
End AsyncDownloader.

(* ===================================================================== *)
(** * metadata_manager.py: create_coordinate_mapping                      *)
(* ===================================================================== *)

Module MetadataManager.

(** One entry of the list ['mappings'] of the coordinate mapping. *)
Record MappingEntry : Type := mkMappingEntry {
  image_index : Z;
  image_file : string;
  map_point_index : Z;                      (* 'point_index' *)
  geo_coordinates : float * float;          (* 'longitude', 'latitude' *)
  map_pixel_coordinates : float * float;    (* 'pixel_coordinates': 'x', 'y' *)
  map_properties : list (string * string)   (* 'properties' *)
}.

(** The dictionary [coordinate_mapping]. *)
Record CoordinateMapping : Type := mkCoordinateMapping {
  map_total_points : Z;                     (* 'total_points' *)
  mappings : list MappingEntry
}.

(** The JSON files [create_coordinate_mapping] has written, by path. *)
Definition state : Type := gmap string CoordinateMapping.

Section WithWorld.
Context (config : Config.t) (world : World).

(** [mapping_entry] of the inner loop. *)
Definition mapping_entry (i : Z) (coord_info : PixelRecord) : MappingEntry :=
  {| image_index := i;
     image_file := "point_" +:+ format_06d (point_index coord_info) +:+ ".png";
     map_point_index := point_index coord_info;
     geo_coordinates := (rec_longitude coord_info, rec_latitude coord_info);
     map_pixel_coordinates := (pixel_x coord_info, pixel_y coord_info);
     map_properties := rec_properties coord_info |}.

(** [for coord_info in metadata.pixel_coordinates: mappings.append(...)] *)
Fixpoint mapping_inner (mappings : list MappingEntry) (i : Z)
    (pixel_coordinates : list PixelRecord) : list MappingEntry :=
  match pixel_coordinates with
  | [] => mappings
  | coord_info :: rest => mapping_inner (mappings ++ [mapping_entry i coord_info]) i rest
  end.

(** [for i, metadata in enumerate(image_metadatas): ...] *)
Fixpoint mapping_loop (mappings : list MappingEntry) (i : Z)
    (image_metadatas : list ImageMetadata) : list MappingEntry :=
  match image_metadatas with
  | [] => mappings
  | metadata :: rest =>
      mapping_loop (mapping_inner mappings i (pixel_coordinates metadata)) (i + 1) rest
  end.

(** [MetadataManager.create_coordinate_mapping] *)
Definition create_coordinate_mapping (image_metadatas : list ImageMetadata)
  : Py state string :=
  let mapping_file := Config.output_dir config +:+ "/" +:+ "coordinate_mapping.json" in
  try_except
    (let coordinate_mapping :=
       {| map_total_points := Z.of_nat (length image_metadatas);
          mappings := mapping_loop [] 0 image_metadatas |} in
     fun st =>
       if save_fails world mapping_file then (Raise (OSError "cannot write file"), st)
       else (Ok mapping_file, <[mapping_file := coordinate_mapping]> st))
    (fun e => raise (DataProcessingError ("创建坐标映射文件失败: " +:+ exn_str e))).

End WithWorld.
End MetadataManager.

(* ===================================================================== *)
(** * The vocabulary of the statements                                    *)
(* ===================================================================== *)

(** The notions the properties below are stated with: invariants, the
    expected traces and results of the methods, the statements that are
    examined, and the inputs of the concrete runs. *)

(** ** TileCache *)

Module TileCacheSpec.
Import TileCache.

(** The statement that a key promoted by a [get] hit is never the victim of
    the next [put] that exceeds the capacity, for a cache of capacity [N]
    with images of type [nat]. *)
Definition promoted_key_survives (N : Z) : Prop :=
  forall (ops : list (op nat)) (c c1 c2 : TileCache.t nat) k (img : nat) k' img',
    run ops (init N) = Ok c ->
    get c k = Ok (Some img, c1) ->
    _cache c1 !! k' = None ->
    max_size c1 <= size_ c1 ->
    put c1 k' img' = Ok c2 ->
    is_Some (_cache c2 !! k).

End TileCacheSpec.

(** ** TileMerger *)

(** The [(x, y)] of the tile a result is about. *)
Definition coord (r : DownloadResult) : Z * Z := (x (tile_info r), y (tile_info r)).

Module TileMergerSpec.
Import TileMerger.
Section WithPIL.
Context `{PIL}.

(** What [merge_cell] pastes for the tile [(tile_x, tile_y)]. *)
Definition cell_image (tile_map : gmap (Z * Z) Image) (tile_x tile_y : Z) : Image :=
  match tile_map !! (tile_x, tile_y) with
  | Some tile_image =>
      if decide (size_of tile_image = (tile_size, tile_size)) then tile_image
      else resize tile_image (tile_size, tile_size)
  | None => gray_tile
  end.

(** The loop of [merge_tiles] over the cells, in row-major order. *)
Definition merge_cells (tile_map : gmap (Z * Z) Image) (sx sy : Z)
    (cells : list (Z * Z)) (st : merge_state) : merge_state :=
  fold_left (fun st (c : Z * Z) => merge_cell tile_map sx sy (snd c) st (fst c)) cells st.

(** The cell whose box on the canvas holds the pixel [(px, py)]. *)
Definition covers (c : Z * Z) (px py : Z) : Prop :=
  fst c * tile_size <= px < fst c * tile_size + tile_size /\
  snd c * tile_size <= py < snd c * tile_size + tile_size.

End WithPIL.
End TileMergerSpec.

(** An imaging backend for concrete runs: nearest-neighbour sampling stands
    in for the Lanczos filter, and the marker is the pair of diagonals that
    [_fill_missing_tile] draws when no font is available. *)
Definition nearest_pil : PIL :=
  {| resample_lanczos := fun img size x y =>
       pixels img (x * width img `div` fst size) (y * height img `div` snd size);
     missing_marker := fun _ x y =>
       if (x =? y) || (x + y =? 255) then Some (255, 255, 255) else None |}.

(** A plain tile of one colour, and results that carry it. *)
Definition flat_tile (c : color) : Image := Image_new (256, 256) c.

Definition tile_at (x y z : Z) : TileInfo := mkTileInfo x y z "" "".

Definition ok_result (t : TileInfo) (img : Image) : DownloadResult :=
  {| tile_info := t; success := true; image := Some img; error := None;
     download_time := 0%Q; file_size := 0; from_cache := false |}.

Definition failed_result (t : TileInfo) : DownloadResult :=
  {| tile_info := t; success := false; image := None; error := Some "failed";
     download_time := 0%Q; file_size := 0; from_cache := false |}.

(** ** ImageProcessor *)

(** A C library restricted to the arguments whose results are known exactly:
    [tan 0 = asinh 0 = sinh 0 = atan 0 = 0] and the powers of two.  Any other
    argument raises.  It serves concrete runs on the equator. *)
Definition exact_libm : LibM :=
  let at_zero (f : float) : result float :=
    if (f =? 0)%float then Ok 0%float
    else Raise (ValueError "argument outside the table") in
  {| math_tan := at_zero;
     math_asinh := at_zero;
     math_atan := at_zero;
     math_sinh := at_zero;
     float_pow := fun b n =>
       if (b =? 2)%float && (-1074 <=? n) && (n <=? 1023) then Ok (Z.ldexp 1 n)
       else Raise (ValueError "argument outside the table") |}.

(** ** BaseDownloader *)

(** A [mercantile] that places every point in one given tile. *)
Definition mercantile_at (cx cy : Z) : Mercantile :=
  {| mercantile_tile := fun _ _ _ => Ok (cx, cy) |}.

(** The same, refusing a negative zoom level as the package does. *)
Definition mercantile_checked (cx cy : Z) : Mercantile :=
  {| mercantile_tile := fun _ _ zoom =>
       if zoom <? 0
       then Raise (LibraryError "mercantile.InvalidZoomError"
                                "zoom must be a positive integer")
       else Ok (cx, cy) |}.

Module BaseDownloaderSpec.

(** The bound that [validate_tile_coordinates] checks, at one zoom level. *)
Definition in_pyramid (zoom : Z) (t : TileInfo) : Prop :=
  0 <= x t < 2 ^ zoom /\ 0 <= y t < 2 ^ zoom /\ z t = zoom.

(** The cells of the neighbourhood, in the order of the two loops. *)
Definition neighbourhood (cx cy half : Z) : list (Z * Z) :=
  dx ← range (- half) (half + 1); dy ← range (- half) (half + 1); [(cx + dx, cy + dy)].

End BaseDownloaderSpec.

(** ** The downloader *)

Module DownloaderSpec.
Import Downloader.

(** The cache of a downloader is well-formed, of positive capacity and
    within it: true of [Downloader.init] and kept by every method. *)
Definition good (st : state) : Prop :=
  TileCache.wf (cache st) /\ 1 <= TileCache.max_size (cache st) /\
  Z.of_nat (size (TileCache._cache (cache st))) <= TileCache.max_size (cache st).

(** What [load_cached_tile] finds for a tile: the memory cache first, then a
    decodable file of the tile store. *)
Definition cached_tile (st : state) (t : TileInfo) : option Image :=
  match TileCache._cache (cache st) !! key t with
  | Some img => Some img
  | None => disk st !! file_path t ≫= bytes_image
  end.

(** The lookups [load_cached_tile] makes. *)
Definition load_events (st : state) (t : TileInfo) : list event :=
  match TileCache._cache (cache st) !! key t with
  | Some _ => [EvCacheGet (key t)]
  | None => [EvCacheGet (key t); EvPathExists (file_path t)]
  end.

(** A duration [time.sleep] takes: not negative and short of what the
    clock can count. *)
Definition sleepable (seconds : Q) : Prop :=
  (0 <= seconds)%Q /\ (nanoseconds seconds < sleep_limit)%Q.

(** A value in the range of the floats. *)
Definition in_float_range (r : Q) : Prop := (Qabs r < float_overflow)%Q.

(** The state after [time.sleep(seconds)] has returned. *)
Definition slept (seconds : Q) (st : state) : state :=
  set_clock (clock st + seconds)%Q (emit (EvSleep seconds) st).

(** Unfolds the primitive statements and the monad down to functions of
    the state; [time.sleep] is left to its lemmas. *)
Ltac py_unfold :=
  unfold add_random_delay in *;
  unfold time_time, random_uniform, update_stats, path_exists,
    image_open_file, image_save, path_getsize, session_get, raise_for_status in *;
  unfold try_except, raise, modify, gets, lift in *;
  unfold mbind, mret, Py_bind, Py_ret in *.

(** Closes the frame conditions left after a step has been run. *)
Ltac frame_done :=
  try split_and!; try done; try (by rewrite <- ?app_assoc);
  try (match goal with
       | Hg : good _ |- _ =>
           destruct Hg as (? & ? & ?); unfold good; simpl in *; done
       end).

End DownloaderSpec.

Module SyncDownloaderSpec.
Import Downloader DownloaderSpec SyncDownloader.
Section WithWorld.
Context (config : Config.t) (world : World).

(** The delay drawn from [request_interval_range] at draw [rng], and the
    wait after the failed attempt [attempt] with its draw from
    [retry_wait_range]. *)
Definition request_delay (rng : nat) : Q :=
  uniform world rng (fst (Config.request_interval_range config))
                    (snd (Config.request_interval_range config)).

Definition retry_wait (rng : nat) (attempt : Z) : Q :=
  (Config.backoff_base config ^ attempt
   + uniform world rng (fst (Config.retry_wait_range config))
                       (snd (Config.retry_wait_range config)))%Q.

(** The waits of the configuration are durations: whatever is drawn, each
    delay before a request and each wait before a retry is one
    [time.sleep] takes, and the backoff is in the range of the floats. *)
Definition valid_request_delays : Prop :=
  forall rng, sleepable (request_delay rng).

Definition valid_retry_waits : Prop :=
  forall rng attempt,
    0 <= attempt < Config.max_retries config ->
    in_float_range (Config.backoff_base config ^ attempt) /\
    sleepable (retry_wait rng attempt).

Definition valid_waits : Prop := valid_request_delays /\ valid_retry_waits.

(** The delay an attempt after the first starts with, then its request. *)
Definition attempt_events (rng : nat) (t : TileInfo) (attempt : Z) : list event :=
  (if 0 <? attempt
   then [EvSleep (uniform world rng (fst (Config.request_interval_range config))
                                   (snd (Config.request_interval_range config)))]
   else []) ++ [EvHttpGet (url t)].

(** The wait after a failed attempt that is not the last: the backoff base
    to the power of the attempt index, plus a draw from [retry_wait_range]. *)
Definition backoff_sleep (rng : nat) (attempt : Z) : event :=
  EvSleep (Config.backoff_base config ^ attempt
           + uniform world rng (fst (Config.retry_wait_range config))
                               (snd (Config.retry_wait_range config)))%Q.

(** The index of the first random draw of attempt [i], when the first
    attempt starts at draw [r0]: each failed attempt draws once for its
    backoff, each attempt after the first once for its delay. *)
Definition draw_before (r0 i : nat) : nat :=
  match i with O => r0 | S _ => (r0 + 2 * i - 1)%nat end.

(** The events of attempt [i] when it fails and another attempt follows. *)
Definition failed_attempt_events (r0 : nat) (t : TileInfo) (i : nat) : list event :=
  attempt_events (draw_before r0 i) t (Z.of_nat i)
    ++ [backoff_sleep (r0 + 2 * i) (Z.of_nat i)].

(** The result for a tile found in the cache. *)
Definition cached_result (t : TileInfo) (img : Image) : DownloadResult :=
  {| tile_info := t; success := true; image := Some img; error := None;
     download_time := 0%Q; file_size := 0; from_cache := true |}.

(** The result for a tile whose coordinates are out of bounds. *)
Definition invalid_result (t : TileInfo) : DownloadResult :=
  {| tile_info := t; success := false; image := None;
     error := Some ("无效的瓦片坐标: (" +:+ pretty (x t) +:+ ", " +:+ pretty (y t)
                    +:+ ", " +:+ pretty (z t) +:+ ")");
     download_time := 0%Q; file_size := 0; from_cache := false |}.

(** The message of the result after the last attempt has failed. *)
Definition exhausted_message : string :=
  "下载失败，已重试 " +:+ pretty (Config.max_retries config) +:+ " 次".

End WithWorld.

(** The statement that [download_tile] rejects a coordinate out of bounds
    at once: a failure result and nothing observable done, no cache lookup
    in particular. *)
Definition validates_before_cache (config : Config.t) (world : World) : Prop :=
  forall st t r st',
    good st ->
    validate_tile_coordinates (x t) (y t) (z t) = false ->
    download_tile config world t st = (Ok r, st') ->
    success r = false /\ trace st' = trace st.

(** The statement that the failure result after the last attempt carries
    that attempt's error, for a configuration with a single attempt. *)
Definition carries_final_error (config : Config.t) (world : World) : Prop :=
  forall st t st1 e st2 r st',
    good st ->
    Config.max_retries config = 0 ->
    validate_tile_coordinates (x t) (y t) (z t) = true ->
    load_cached_tile t st = (Ok None, st1) ->
    _download_with_retry config world t 0 st1 = (Raise e, st2) ->
    download_tile config world t st = (Ok r, st') ->
    success r = false /\ error r = Some (exn_str e).

End SyncDownloaderSpec.

(** A configuration and a world for concrete runs: the default retry
    settings, a tile server that cannot be reached, a random generator that
    always draws the lower end of the range. *)
Definition test_config (max_retries : Z) : Config.t :=
  Config.mk "http://mt0.google.com/vt/lyrs=s&hl=en" "./tiles" "./output"
            18 3 max_retries 2 (6, 10)%Q (0.1, 0.3)%Q 30.

Definition offline_world : World :=
  {| http_get := fun _ _ => HttpRaises RequestsConnectionError;
     http_latency := fun _ => 0%Q;
     uniform := fun _ a _ => a;
     save_fails := fun _ => false;
     png_size := fun _ => 1;
     open_error := fun _ => "cannot identify image file" |}.

(** [random.uniform(a, b)] lies between its bounds. *)
Definition uniform_in_range (world : World) : Prop :=
  forall rng a b, (a <= b)%Q -> (a <= uniform world rng a b <= b)%Q.

(** ** DataProcessor *)

(** A relation between the state before and after that every step of a
    computation keeps. *)
Definition preserves {S A} (R : S -> S -> Prop) (m : Py S A) : Prop :=
  forall st r st', m st = (r, st') -> R st st'.

Module DataProcessorSpec.
Import DataProcessor.
Section WithWorld.
Context (config : Config.t) (downloader : downloader_object).

(** The files [_save_image] and [save_image_metadata] write for a point. *)
Definition image_path (point_index : Z) : string :=
  Config.output_dir config +:+ "/" +:+ ("point_" +:+ format_06d point_index +:+ ".png").

Definition metadata_path (point_index : Z) : string :=
  Config.output_dir config +:+ "/"
    +:+ ("point_" +:+ format_06d point_index +:+ "_metadata.json").

(** The counters of points are not touched while one point is processed. *)
Definition same_point_counters (st st' : state) : Prop :=
  stats st' successful_points = stats st successful_points /\
  stats st' failed_points = stats st failed_points.

End WithWorld.

(** Unfolds the methods of the processor and the monad. *)
Ltac dp_unfold :=
  unfold _process_single_point, _calculate_tiles_for_point, _download_tiles,
    _save_image, save_image_metadata, on_downloader, stats_add in *;
  unfold try_except, raise, modify, gets, lift in *;
  unfold mbind, mret, Py_bind, Py_ret in *.

(** The list of metadata after one more point has been processed. *)
Definition counted (r : option ImageMetadata) (mds : list ImageMetadata)
  : list ImageMetadata :=
  match r with Some md => mds ++ [md] | None => mds end.

End DataProcessorSpec.

(** A configuration at zoom 1 with a 1 x 1 grid, and a tile server that
    serves one flat tile for every request. *)
Definition point_config : Config.t :=
  Config.mk "http://mt0.google.com/vt/lyrs=s&hl=en" "./tiles" "./output"
            1 1 3 2 (6, 10)%Q (0.1, 0.3)%Q 30.

Definition online_world : World :=
  {| http_get := fun _ _ =>
       HttpReturns (mkResponse 200 (Some "image/png")
                      (mkBytes 100 (Some (flat_tile (9, 9, 9)))));
     http_latency := fun _ => 0%Q;
     uniform := fun _ a _ => a;
     save_fails := fun _ => false;
     png_size := fun _ => 100;
     open_error := fun _ => "cannot identify image file" |}.

(** ** Further notions *)

(** A result that [merge_tiles] takes a tile from: [result.success and
    result.image]. *)
Definition usable (r : DownloadResult) : Prop :=
  success r = true /\ is_Some (image r).

#[global] Instance usable_dec r : Decision (usable r).
Proof. unfold usable. apply _. Defined.

(** The tile columns and rows of the grid [merge_tiles] assembles around a
    centre tile. *)
Definition in_window (grid_size : Z) (center_tile : TileInfo) (c : Z * Z) : Prop :=
  x center_tile - grid_size `div` 2 <= fst c < x center_tile - grid_size `div` 2 + grid_size /\
  y center_tile - grid_size `div` 2 <= snd c < y center_tile - grid_size `div` 2 + grid_size.

(** A tile image as [merge_tiles] pastes it: resized unless it is 256 by
    256 already. *)
Definition fitted `{PIL} (img : Image) : Image :=
  if decide (size_of img = (256, 256)) then img else resize img (256, 256).

(** A tile column and row that exist at a zoom level. *)
Definition inside (zoom : Z) (c : Z * Z) : Prop :=
  0 <= fst c < 2 ^ zoom /\ 0 <= snd c < 2 ^ zoom.

#[global] Instance inside_dec zoom c : Decision (inside zoom c).
Proof. unfold inside. apply _. Defined.

(** [a in s] for a character and a string. *)
Fixpoint occurs (a : Ascii.ascii) (s : string) : bool :=
  match s with
  | EmptyString => false
  | String b s => bool_decide (a = b) || occurs a s
  end.

(** The characters of the decimal numeral of an [int]. *)
Definition numeral_char (a : Ascii.ascii) : bool := occurs a "0123456789-".

(** A string of such characters only. *)
Fixpoint numeral (s : string) : bool :=
  match s with
  | EmptyString => true
  | String a s => numeral_char a && numeral s
  end.

(** The padding that [zfill] puts in front. *)
Definition zeros (k : nat) : string := String.concat "" (replicate k "0").

(** The results a counter of the monitor counts: a successful download is a
    success that does not come from the cache, a failed download a failure
    for valid coordinates, a cache hit a result from the cache and a cache
    miss any other result. *)
Definition counted_under (k : stat_key) (r : DownloadResult) : bool :=
  match k with
  | successful_downloads => success r && negb (from_cache r)
  | failed_downloads =>
      negb (success r) &&
      Downloader.validate_tile_coordinates
        (x (tile_info r)) (y (tile_info r)) (z (tile_info r))
  | cache_hits => from_cache r
  | cache_misses => negb (from_cache r)
  | total_downloads | total_bytes => false
  end.

(** A float that is a number: neither NaN nor an infinity. *)
Definition finite (f : float) : Prop :=
  match Prim2SF f with
  | S754_zero _ | S754_finite _ _ _ => True
  | S754_infinity _ | S754_nan => False
  end.

Module AsyncDownloaderSpec.

(** The batch with number [k], counted from zero. *)
Definition chunk (tiles : list TileInfo) (batch_size : Z) (k : nat) : list TileInfo :=
  take (Z.to_nat batch_size) (drop (k * Z.to_nat batch_size) tiles).

Section WithLoop.
Context {S : Type}.
Variable download_tiles_async : list TileInfo -> Py S (list DownloadResult).
Variable asyncio_sleep : Q -> Py S unit.

(** Downloading the batches one after the other, with a sleep of one second
    between two batches, and collecting the results in order. *)
Fixpoint in_batches (batches : list (list TileInfo))
    (all_results : list DownloadResult) : Py S (list DownloadResult) :=
  match batches with
  | [] => mret all_results
  | batch :: rest =>
      batch_results ← download_tiles_async batch;
      match rest with [] => mret tt | _ :: _ => asyncio_sleep 1 end;;
      in_batches rest (all_results ++ batch_results)
  end.

End WithLoop.
End AsyncDownloaderSpec.

(** The example configuration with waits that are no durations: a negative
    wait before a retry, and a negative delay between requests. *)
Definition negative_wait_config : Config.t :=
  Config.mk "http://mt0.google.com/vt/lyrs=s&hl=en" "./tiles" "./output"
            18 3 1 2 (-10, -10)%Q (0.1, 0.3)%Q 30.

Definition negative_delay_config : Config.t :=
  Config.mk "http://mt0.google.com/vt/lyrs=s&hl=en" "./tiles" "./output"
            18 3 0 2 (6, 10)%Q (-1, -1)%Q 30.

(** The failure result [download_tiles] makes of an exception. *)
Definition unexpected_result (t : TileInfo) (e : exn) : DownloadResult :=
  {| tile_info := t; success := false; image := None;
     error := Some (exn_str e); download_time := 0%Q;
     file_size := 0; from_cache := false |}.

(** Every element twice. *)
Definition twice {A} (l : list A) : list A := l ≫= fun a => [a; a].

(* ===================================================================== *)
(** * Properties of the Python runtime helpers                            *)
(* ===================================================================== *)

Lemma filter_ne_id {A} `{EqDecision A} (x : A) (l : list A) :
  x ∉ l -> filter (fun y => y ≠ x) l = l.
Proof.
  induction l as [|y l IH]; intros Hnin; [done|].
  apply not_elem_of_cons in Hnin as [Hne Hnin].
  rewrite filter_cons_True by congruence. f_equal. auto.
Qed.

(** [l.remove(x)] succeeds when [x] is in [l]; without duplicates it removes
    every occurrence. *)
Lemma list_remove_NoDup {A} `{EqDecision A} (x : A) (l : list A) :
  NoDup l -> x ∈ l -> list_remove x l = Ok (filter (fun y => y ≠ x) l).
Proof.
  induction l as [|y l IH]; intros Hnd Hin.
  - by apply elem_of_nil in Hin.
  - apply NoDup_cons in Hnd as [Hy Hnd]. simpl.
    destruct (decide (y = x)) as [->|Hne].
    + rewrite filter_cons_False by (intros Hc; by apply Hc).
      by rewrite filter_ne_id.
    + apply elem_of_cons in Hin as [->|Hin]; [done|].
      rewrite IH by done. by rewrite filter_cons_True.
Qed.

Lemma elem_of_filter_ne {A} `{EqDecision A} (x y : A) (l : list A) :
  y ∈ filter (fun y => y ≠ x) l <-> y ≠ x /\ y ∈ l.
Proof. by rewrite list_elem_of_filter. Qed.

(* ===================================================================== *)
(** * TileCache: the LRU discipline                                       *)
(* ===================================================================== *)

Module TileCacheFacts.
Import TileCache TileCacheSpec.
Section WithImage.
Context {Image : Type}.
Implicit Types (c : TileCache.t Image) (k : Z * Z * Z) (img : Image).

Lemma wf_init N : wf (@init Image N).
Proof. split; simpl; [constructor | set_solver]. Qed.

Lemma wf_clear c : wf (clear c).
Proof. split; simpl; [constructor | set_solver]. Qed.

Lemma wf_elem c k : wf c -> k ∈ _access_order c <-> is_Some (_cache c !! k).
Proof. intros [_ Hd]. rewrite <- elem_of_dom, Hd. set_solver. Qed.

Lemma wf_size c : wf c -> size (_cache c) = length (_access_order c).
Proof.
  intros [Hnd Hd]. rewrite <- size_dom, Hd. by apply size_list_to_set.
Qed.

(** ** [get] *)

Lemma get_miss c k : _cache c !! k = None -> get c k = Ok (None, c).
Proof. intros Hk. unfold get. by rewrite Hk. Qed.

Lemma get_hit c k img :
  wf c -> _cache c !! k = Some img ->
  get c k = Ok (Some img,
                {| max_size := max_size c; _cache := _cache c;
                   _access_order := filter (fun y => y ≠ k) (_access_order c) ++ [k] |}).
Proof.
  intros Hwf Hk. unfold get. rewrite Hk.
  rewrite list_remove_NoDup; [done | apply Hwf |].
  apply wf_elem; eauto.
Qed.

Lemma wf_promote c k :
  wf c -> is_Some (_cache c !! k) ->
  wf {| max_size := max_size c; _cache := _cache c;
        _access_order := filter (fun y => y ≠ k) (_access_order c) ++ [k] |}.
Proof.
  intros Hwf Hk. pose proof (proj1 (wf_elem c k Hwf)) as Hin.
  destruct Hwf as [Hnd Hd]. split; simpl.
  - apply NoDup_app. split_and!.
    + by apply NoDup_filter.
    + intros y Hy Hy'. apply elem_of_filter_ne in Hy as [Hne _].
      apply list_elem_of_singleton in Hy'. done.
    + apply NoDup_singleton.
  - rewrite Hd. apply set_eq. intros y.
    rewrite !elem_of_list_to_set, elem_of_app, elem_of_filter_ne, list_elem_of_singleton.
    apply elem_of_dom in Hk. rewrite Hd, elem_of_list_to_set in Hk.
    destruct (decide (y = k)) as [->|]; naive_solver.
Qed.

(** ** [put] *)

(** Updating an existing entry. *)
Lemma put_present c k img img' :
  wf c -> _cache c !! k = Some img' ->
  put c k img =
    Ok {| max_size := max_size c; _cache := <[k := img]> (_cache c);
          _access_order := filter (fun y => y ≠ k) (_access_order c) ++ [k] |}.
Proof.
  intros Hwf Hk. unfold put. rewrite Hk.
  rewrite list_remove_NoDup; [done | apply Hwf |].
  apply wf_elem; eauto.
Qed.

(** A new key while there is room. *)
Lemma put_absent_room c k img :
  _cache c !! k = None -> Z.of_nat (size (_cache c)) < max_size c ->
  put c k img =
    Ok {| max_size := max_size c; _cache := <[k := img]> (_cache c);
          _access_order := _access_order c ++ [k] |}.
Proof.
  intros Hk Hsz. unfold put. rewrite Hk.
  destruct (Z.geb_spec (Z.of_nat (size (_cache c))) (max_size c)); [lia|done].
Qed.

(** A new key in a full cache: the head of the access order goes. *)
Lemma put_absent_full c k img oldest rest :
  wf c -> _cache c !! k = None -> max_size c <= Z.of_nat (size (_cache c)) ->
  _access_order c = oldest :: rest ->
  put c k img =
    Ok {| max_size := max_size c;
          _cache := <[k := img]> (delete oldest (_cache c));
          _access_order := rest ++ [k] |}.
Proof.
  intros Hwf Hk Hsz Hord. unfold put. rewrite Hk.
  destruct (Z.geb_spec (Z.of_nat (size (_cache c))) (max_size c)); [|lia].
  rewrite Hord. simpl. unfold dict_del.
  assert (is_Some (_cache c !! oldest)) as [v Hv].
  { apply wf_elem; [done|]. rewrite Hord. set_solver. }
  by rewrite Hv.
Qed.

(** In a well-formed cache a full cache of positive capacity is not empty. *)
Lemma full_nonempty c :
  wf c -> 1 <= max_size c -> max_size c <= Z.of_nat (size (_cache c)) ->
  exists oldest rest, _access_order c = oldest :: rest.
Proof.
  intros Hwf HN Hsz. rewrite (wf_size c Hwf) in Hsz.
  destruct (_access_order c) as [|o r]; simpl in *; [lia|eauto].
Qed.

Lemma wf_insert_snoc (m : gmap (Z * Z * Z) Image) (l : list (Z * Z * Z)) N k img :
  wf {| max_size := N; _cache := m; _access_order := l |} -> k ∉ l ->
  wf {| max_size := N; _cache := <[k := img]> m; _access_order := l ++ [k] |}.
Proof.
  intros [Hnd Hd] Hk. simpl in *. split; simpl.
  - apply NoDup_app. split_and!; [done | | apply NoDup_singleton].
    intros y Hy Hy'. apply list_elem_of_singleton in Hy'. by subst.
  - rewrite dom_insert_L, Hd, list_to_set_app_L. simpl. set_solver.
Qed.

Lemma wf_delete_head (m : gmap (Z * Z * Z) Image) (l : list (Z * Z * Z)) N o :
  wf {| max_size := N; _cache := m; _access_order := o :: l |} ->
  wf {| max_size := N; _cache := delete o m; _access_order := l |}.
Proof.
  intros [Hnd Hd]. simpl in *. apply NoDup_cons in Hnd as [Ho Hnd].
  split; simpl; [done|].
  rewrite dom_delete_L, Hd. simpl. set_solver.
Qed.

(** [put] never fails on a well-formed cache of positive capacity, keeps it
    well-formed and within its capacity. *)
Lemma put_total c k img :
  wf c -> 1 <= max_size c -> Z.of_nat (size (_cache c)) <= max_size c ->
  exists c', put c k img = Ok c' /\ wf c' /\ max_size c' = max_size c /\
             Z.of_nat (size (_cache c')) <= max_size c /\
             _cache c' !! k = Some img.
Proof.
  intros Hwf HN Hsz. destruct (_cache c !! k) as [img'|] eqn:Hk.
  - eexists. split; [by eapply put_present|]. split_and!; simpl.
    + pose proof (wf_promote c k Hwf (mk_is_Some _ _ Hk)) as [Hnd Hd].
      split; simpl in *; [done|].
      rewrite dom_insert_L, <- Hd.
      apply elem_of_dom_2 in Hk. set_solver.
    + done.
    + rewrite map_size_insert_Some by eauto. done.
    + by rewrite lookup_insert_eq.
  - destruct (Z.lt_ge_cases (Z.of_nat (size (_cache c))) (max_size c)) as [Hlt|Hge].
    + eexists. split; [by apply put_absent_room|]. split_and!; simpl.
      * destruct c as [N m l]. simpl in *. apply wf_insert_snoc; [done|].
        intros Hin. apply (wf_elem _ k Hwf) in Hin. simpl in Hin.
        rewrite Hk in Hin. by destruct Hin.
      * done.
      * rewrite map_size_insert_None by done. lia.
      * by rewrite lookup_insert_eq.
    + destruct (full_nonempty c Hwf HN Hge) as (o & r & Hord).
      eexists. split; [by eapply put_absent_full|].
      assert (is_Some (_cache c !! o)) as Ho.
      { apply wf_elem; [done|]. rewrite Hord. set_solver. }
      assert (k ≠ o) as Hko by (intros ->; rewrite Hk in Ho; by destruct Ho).
      split_and!; simpl.
      * destruct c as [N m l]. simpl in *. subst l.
        apply wf_insert_snoc; [by apply wf_delete_head|].
        intros Hin. assert (k ∈ o :: r) as Hin' by set_solver.
        apply (wf_elem _ k Hwf) in Hin'. simpl in Hin'.
        rewrite Hk in Hin'. by destruct Hin'.
      * done.
      * rewrite map_size_insert_None by (by rewrite lookup_delete_ne).
        rewrite map_size_delete_Some by done.
        assert (size (_cache c) ≠ 0)%nat.
        { destruct Ho as [v Hv]. apply map_size_non_empty_iff.
          intros Hm. by rewrite Hm in Hv. }
        lia.
      * by rewrite lookup_insert_eq.
Qed.

Lemma get_total c k :
  wf c ->
  exists r c', get c k = Ok (r, c') /\ wf c' /\ max_size c' = max_size c /\
               _cache c' = _cache c /\ r = _cache c !! k.
Proof.
  intros Hwf. destruct (_cache c !! k) as [img|] eqn:Hk.
  - eexists _, _. split; [by apply get_hit|]. split_and!; simpl; try done.
    apply wf_promote; eauto.
  - eexists _, _. split; [by apply get_miss|]. done.
Qed.

(** Every run of operations on a fresh cache of positive capacity succeeds
    and ends in a well-formed cache within its capacity. *)
Lemma run_invariant ops c :
  wf c -> 1 <= max_size c -> Z.of_nat (size (_cache c)) <= max_size c ->
  exists c', run ops c = Ok c' /\ wf c' /\ max_size c' = max_size c /\
             Z.of_nat (size (_cache c')) <= max_size c.
Proof.
  revert c. induction ops as [|o ops IH]; intros c Hwf HN Hsz; simpl.
  - eauto.
  - destruct o as [k|k img|]; simpl.
    + destruct (get_total c k Hwf) as (r & c1 & -> & Hwf1 & HN1 & Hc1 & _). simpl.
      destruct (IH c1) as (c' & ? & ? & ? & ?); rewrite ?HN1, ?Hc1; try done.
      exists c'. split_and!; [done | done | congruence | lia].
    + destruct (put_total c k img Hwf HN Hsz) as (c1 & -> & Hwf1 & HN1 & Hsz1 & _).
      simpl. destruct (IH c1) as (c' & ? & ? & ? & ?); rewrite ?HN1; try done.
      exists c'. split_and!; [done | done | congruence | lia].
    + destruct (IH (clear c)) as (c' & ? & ? & ? & ?); simpl; try done.
      * apply wf_clear.
      * rewrite map_size_empty. lia.
      * exists c'. done.
Qed.

(** Whatever the capacity, a successful operation keeps the invariant. *)
Lemma put_wf c k img c' :
  wf c -> put c k img = Ok c' -> wf c' /\ max_size c' = max_size c.
Proof.
  intros Hwf Hput. destruct (_cache c !! k) as [img'|] eqn:Hk.
  - rewrite (put_present c k img img' Hwf Hk) in Hput. injection Hput as <-.
    split; [|done].
    pose proof (wf_promote c k Hwf (mk_is_Some _ _ Hk)) as [Hnd Hd].
    split; simpl in *; [done|].
    rewrite dom_insert_L, <- Hd. apply elem_of_dom_2 in Hk. set_solver.
  - destruct (Z.lt_ge_cases (Z.of_nat (size (_cache c))) (max_size c)) as [Hlt|Hge].
    + rewrite put_absent_room in Hput by done. injection Hput as <-.
      split; [|done]. destruct c as [N m l]. simpl in *.
      apply wf_insert_snoc; [done|].
      intros Hin. apply (wf_elem _ k Hwf) in Hin. simpl in Hin.
      rewrite Hk in Hin. by destruct Hin.
    + destruct (_access_order c) as [|o r] eqn:Hord.
      * unfold put in Hput. rewrite Hk, Hord in Hput.
        destruct (Z.geb_spec (Z.of_nat (size (_cache c))) (max_size c)); [done|lia].
      * rewrite (put_absent_full c k img o r) in Hput by done. injection Hput as <-.
        split; [|done]. destruct c as [N m l]. simpl in *. subst l.
        apply wf_insert_snoc; [by apply wf_delete_head|].
        intros Hin. assert (k ∈ o :: r) as Hin' by set_solver.
        apply (wf_elem _ k Hwf) in Hin'. simpl in Hin'.
        rewrite Hk in Hin'. by destruct Hin'.
Qed.

Lemma step_wf c o c' : wf c -> step c o = Ok c' -> wf c' /\ max_size c' = max_size c.
Proof.
  intros Hwf Hstep. destruct o as [k|k img|]; simpl in Hstep.
  - destruct (get_total c k Hwf) as (r & c1 & Hget & Hwf1 & HN1 & _).
    rewrite Hget in Hstep. simpl in Hstep. injection Hstep as <-. done.
  - by eapply put_wf.
  - injection Hstep as <-. split; [apply wf_clear | done].
Qed.

Lemma run_wf ops c c' : wf c -> run ops c = Ok c' -> wf c' /\ max_size c' = max_size c.
Proof.
  revert c. induction ops as [|o ops IH]; intros c Hwf Hrun; simpl in Hrun.
  - injection Hrun as <-. done.
  - destruct (step c o) as [c1|e] eqn:Hstep; simpl in Hrun; [|done].
    destruct (step_wf c o c1 Hwf Hstep) as [Hwf1 HN1].
    destruct (IH c1 Hwf1 Hrun) as [? ?]. split; [done | congruence].
Qed.

Lemma run_app ops1 ops2 c :
  run (ops1 ++ ops2) c = (c' ← run ops1 c; run ops2 c').
Proof.
  revert c. induction ops1 as [|o ops1 IH]; intros c; simpl; [done|].
  destruct (step c o) as [c1|e]; simpl; [apply IH | done].
Qed.

(** The cache that holds exactly the pairs of [kvs], oldest first. *)
Lemma wf_of_list N (kvs : list ((Z * Z * Z) * Image)) :
  NoDup kvs.*1 ->
  wf {| max_size := N; _cache := list_to_map kvs; _access_order := kvs.*1 |}.
Proof. intros Hnd. split; simpl; [done | apply dom_list_to_map_L]. Qed.

(** Inserting pairwise distinct keys into a fresh cache of capacity [N]
    leaves the last [N] of them, in insertion order. *)
Lemma put_all_fresh N (kvs : list ((Z * Z * Z) * Image)) :
  1 <= N -> NoDup kvs.*1 ->
  let d := (length kvs - Z.to_nat N)%nat in
  put_all kvs (init N) =
    Ok {| max_size := N; _cache := list_to_map (drop d kvs);
          _access_order := (drop d kvs).*1 |}.
Proof.
  intros HN. induction kvs as [|[k v] kvs IH] using rev_ind; intros Hnd d.
  - done.
  - rewrite fmap_app in Hnd. apply NoDup_app in Hnd as (Hnd & Hk & _).
    assert (k ∉ kvs.*1) as Hkn by (intros Hin; apply (Hk k Hin); set_solver).
    unfold put_all in *. rewrite map_app, run_app, (IH Hnd). simpl.
    set (d0 := (length kvs - Z.to_nat N)%nat) in *.
    set (c1 := {| max_size := N; _cache := list_to_map (drop d0 kvs);
                  _access_order := (drop d0 kvs).*1 |}).
    assert (NoDup (drop d0 kvs).*1) as Hnd1.
    { rewrite fmap_drop. eapply sublist_NoDup; [done | apply sublist_drop]. }
    assert (wf c1) as Hwf1 by (by apply wf_of_list).
    assert (k ∉ (drop d0 kvs).*1) as Hkn1.
    { rewrite fmap_drop. intros Hin. apply Hkn.
      eapply elem_of_sublist; [done | apply sublist_drop]. }
    assert (_cache c1 !! k = None) as Hk1 by (by apply not_elem_of_list_to_map_1).
    assert (size (_cache c1) = length (drop d0 kvs)) as Hsz1.
    { rewrite (wf_size c1 Hwf1). simpl. by rewrite length_fmap. }
    rewrite length_drop in Hsz1. subst d. rewrite length_app. simpl.
    destruct (decide (length kvs < Z.to_nat N)%nat) as [Hlt|Hge].
    + rewrite put_absent_room; [| done | rewrite Hsz1; subst c1 d0; simpl; lia].
      replace (length kvs + 1 - Z.to_nat N)%nat with 0%nat by lia.
      assert (d0 = 0%nat) as Hd0 by (subst d0; lia).
      subst c1. simpl. rewrite Hd0, !drop_0.
      f_equal. f_equal; [by rewrite list_to_map_snoc | by rewrite fmap_app].
    + replace (length kvs + 1 - Z.to_nat N)%nat with (S d0) by (subst d0; lia).
      destruct (drop d0 kvs) as [|[o vo] rest] eqn:Hdrop.
      { apply (f_equal length) in Hdrop. rewrite length_drop in Hdrop.
        simpl in Hdrop. subst d0. lia. }
      assert (drop (S d0) kvs = rest) as Hrest.
      { replace (S d0) with (d0 + 1)%nat by lia.
        by rewrite <- drop_drop, Hdrop. }
      rewrite (put_absent_full c1 k v o (rest.*1)); [|done|done| |].
      * simpl. rewrite drop_app_le by (subst d0; lia). rewrite Hrest.
        apply NoDup_cons in Hnd1 as [Ho _].
        rewrite delete_insert_eq, delete_id by (by apply not_elem_of_list_to_map_1).
        f_equal. f_equal; [|by rewrite fmap_app].
        rewrite list_to_map_snoc; [done|].
        intros Hin. apply Hkn1. set_solver.
      * rewrite Hsz1. subst c1 d0. simpl. lia.
      * done.
Qed.

End WithImage.
End TileCacheFacts.

(* ===================================================================== *)
(** * TileCache: the claims                                               *)
(* ===================================================================== *)

Module TileCacheClaims.
Import TileCache TileCacheSpec TileCacheFacts.

Section WithImage.
Context {Image : Type}.
Implicit Types (c : TileCache.t Image) (k : Z * Z * Z) (img : Image).

(** After a hit, the promoted key is the last of the access order; when the
    cache holds two entries or more it is not the first. *)
Lemma promoted_not_lru c k :
  wf c -> is_Some (_cache c !! k) -> 2 <= size_ c ->
  exists oldest rest,
    filter (fun y => y ≠ k) (_access_order c) ++ [k] = oldest :: rest /\ oldest ≠ k.
Proof.
  intros Hwf Hk Hsz. unfold size_ in Hsz. rewrite (wf_size c Hwf) in Hsz.
  destruct (filter (fun y => y ≠ k) (_access_order c)) as [|o r] eqn:Hf.
  - exfalso. destruct Hwf as [Hnd _].
    assert (forall y, y ∈ _access_order c -> y = k) as Hall.
    { intros y Hy. destruct (decide (y = k)) as [|Hne]; [done|].
      assert (y ∈ filter (fun y => y ≠ k) (_access_order c)) as Hin
        by (by apply elem_of_filter_ne).
      rewrite Hf in Hin. by apply elem_of_nil in Hin. }
    destruct (_access_order c) as [|a [|b l]]; simpl in Hsz; try lia.
    apply NoDup_cons in Hnd as [Ha _].
    apply Ha. rewrite (Hall a), (Hall b); set_solver.
  - exists o, (r ++ [k]). split; [done|].
    assert (o ∈ filter (fun y => y ≠ k) (_access_order c)) as Hin
      by (rewrite Hf; set_solver).
    by apply elem_of_filter_ne in Hin as [? _].
Qed.

End WithImage.

(** C4 (as amended).  For a [TileCache] of capacity [N >= 1]:
    (a) putting [N + 1] pairwise distinct keys into the empty cache succeeds,
        removes exactly the first key put (the least recently accessed one)
        and keeps the other [N] with their images;
    (b) a [get] that hits returns the image and moves its key to the
        most-recently-used end of the access order; if the cache then holds
        at least two entries, the next [put] that exceeds the capacity
        removes another key (the head of the access order) and keeps the
        promoted one;
    (c) every sequence of [get], [put] and [clear] succeeds and never leaves
        more than [N] entries in the cache. *)
Theorem C4_lru_eviction {Image : Type} (N : Z) :
  1 <= N ->
  (forall kvs : list ((Z * Z * Z) * Image),
     length kvs = S (Z.to_nat N) -> NoDup kvs.*1 ->
     exists c,
       put_all kvs (init N) = Ok c /\
       _access_order c = tail kvs.*1 /\
       _cache c = list_to_map (tail kvs) /\
       (forall k0, head kvs.*1 = Some k0 -> _cache c !! k0 = None) /\
       (forall k v, (k, v) ∈ tail kvs -> _cache c !! k = Some v) /\
       size_ c = N) /\
  (forall (ops : list (op Image)) c k img,
     run ops (init N) = Ok c ->
     _cache c !! k = Some img ->
     exists c1,
       get c k = Ok (Some img, c1) /\
       last (_access_order c1) = Some k /\
       _cache c1 = _cache c /\
       forall k' img',
         2 <= size_ c1 ->
         _cache c1 !! k' = None ->
         max_size c1 <= size_ c1 ->
         exists oldest c2,
           lru_key c1 = Some oldest /\ oldest ≠ k /\
           put c1 k' img' = Ok c2 /\
           _cache c2 !! oldest = None /\
           _cache c2 !! k = Some img /\
           _cache c2 !! k' = Some img') /\
  (forall ops : list (op Image),
     exists c, run ops (init N) = Ok c /\ size_ c <= N).
Proof.
  intros HN. split_and!.
  - intros kvs Hlen Hnd.
    pose proof (put_all_fresh N kvs HN Hnd) as Hput. simpl in Hput.
    replace (length kvs - Z.to_nat N)%nat with 1%nat in Hput by lia.
    destruct kvs as [|[k0 v0] kvs]; [done|]. simpl in *.
    rewrite drop_0 in Hput. eexists. split; [exact Hput|]. simpl.
    apply NoDup_cons in Hnd as [Hk0 Hnd].
    split_and!; try done.
    + intros k1 [= <-]. by apply not_elem_of_list_to_map_1.
    + intros k v Hin. by apply elem_of_list_to_map_1.
    + unfold size_. simpl.
      rewrite <- size_dom, dom_list_to_map_L, size_list_to_set by done.
      rewrite length_fmap. lia.
  - intros ops c k img Hrun Hk.
    destruct (run_wf ops _ c (wf_init N) Hrun) as [Hwf HNc]. simpl in HNc.
    eexists. split; [by apply get_hit|]. simpl. split_and!.
    + by rewrite last_snoc.
    + done.
    + intros k' img' Hsz Hk' Hfull. unfold size_ in *. simpl in *.
      destruct (promoted_not_lru c k Hwf (mk_is_Some _ _ Hk) Hsz)
        as (o & r & Hord & Hne).
      set (c1 := {| max_size := max_size c; _cache := _cache c;
                    _access_order := filter (fun y => y ≠ k) (_access_order c) ++ [k] |}).
      assert (wf c1) as Hwf1 by (apply wf_promote; eauto).
      assert (is_Some (_cache c !! o)) as [vo Ho].
      { apply (wf_elem c1 o Hwf1). simpl. rewrite Hord. set_solver. }
      exists o, {| max_size := max_size c;
                   _cache := <[k' := img']> (delete o (_cache c));
                   _access_order := r ++ [k'] |}.
      unfold lru_key. simpl. rewrite Hord. split_and!; try done.
      * by apply (put_absent_full c1 k' img' o r).
      * rewrite lookup_insert_ne by congruence. by rewrite lookup_delete_eq.
      * rewrite lookup_insert_ne by congruence. by rewrite lookup_delete_ne.
      * by rewrite lookup_insert_eq.
  - intros ops.
    destruct (run_invariant ops (init N) (wf_init N)) as (c & Hrun & _ & _ & Hsz).
    + done.
    + simpl. rewrite map_size_empty. lia.
    + exists c. split; [done|]. unfold size_. simpl in Hsz. lia.
Qed.

(** The three parts at capacity 2, with keys [(1,1,1)], [(2,1,1)], [(3,1,1)]. *)
Lemma C4_lru_eviction_witness :
  1 <= 2 /\
  exists c : TileCache.t nat,
    put_all [((1, 1, 1), 10%nat); ((2, 1, 1), 20%nat); ((3, 1, 1), 30%nat)] (init 2)
      = Ok c /\
    _access_order c = [(2, 1, 1); (3, 1, 1)].
Proof.
  assert (1 <= 2) as H12 by lia.
  split; [exact H12|].
  destruct (proj1 (C4_lru_eviction (Image := nat) 2 H12)
              [((1, 1, 1), 10%nat); ((2, 1, 1), 20%nat); ((3, 1, 1), 30%nat)])
    as (c & Hput & Hord & _).
  - reflexivity.
  - simpl. repeat (apply NoDup_cons; split; [set_solver|]). apply NoDup_nil. done.
  - exists c. split; [exact Hput | exact Hord].
Defined.

(** C4 as stated fails at capacity 1: the only key of the cache is both the
    most and the least recently used one, so the [put] of a second key
    removes it although a [get] has just promoted it. *)
Lemma C4_capacity_one_counterexample : ~ promoted_key_survives 1.
Proof.
  intros Hclaim.
  pose (a := (1, 1, 1) : Z * Z * Z). pose (b := (2, 1, 1) : Z * Z * Z).
  pose (c := {| max_size := 1; _cache := {[ a := 10%nat ]};
                _access_order := [a] |} : TileCache.t nat).
  pose (c2 := {| max_size := 1; _cache := {[ b := 20%nat ]};
                 _access_order := [b] |} : TileCache.t nat).
  assert (is_Some (_cache c2 !! a)) as [v Hv].
  { apply (Hclaim [OpPut a 10%nat] c c c2 a 10%nat b 20%nat).
    - vm_compute. reflexivity.
    - vm_compute. reflexivity.
    - vm_compute. reflexivity.
    - vm_compute. discriminate.
    - vm_compute. reflexivity. }
  vm_compute in Hv. discriminate.
Qed.

(** C10.  On any cache the methods can produce, a [put] of a key that is
    already present succeeds, stores the new image under the key and moves
    the key to the most-recently-used end; every other entry keeps its
    image, and the set of keys, the size and the capacity do not change,
    whether or not the cache is full.  The move is a move: the new access
    order is the old one with the key taken out of its place, the other
    keys in their order, and the key once, at the end; no key occurs twice
    in it. *)
Theorem C10_put_existing_key {Image : Type} (N : Z) (ops : list (op Image))
    (c : TileCache.t Image) (k : Z * Z * Z) (img : Image) :
  run ops (init N) = Ok c ->
  is_Some (_cache c !! k) ->
  exists c',
    put c k img = Ok c' /\
    _cache c' !! k = Some img /\
    (forall k', k' ≠ k -> _cache c' !! k' = _cache c !! k') /\
    dom (_cache c') = dom (_cache c) /\
    size_ c' = size_ c /\
    max_size c' = max_size c /\
    last (_access_order c') = Some k /\
    (forall k', k' ∈ _access_order c' <-> k' ∈ _access_order c) /\
    _access_order c' = filter (fun k' => k' ≠ k) (_access_order c) ++ [k] /\
    NoDup (_access_order c') /\
    length (_access_order c') = length (_access_order c).
Proof.
  intros Hrun [img0 Hk].
  destruct (run_wf ops _ c (wf_init N) Hrun) as [Hwf _].
  assert (k ∈ _access_order c) as Hin by (apply wf_elem; eauto).
  eexists. split; [by eapply put_present|]. simpl. split_and!.
  - by rewrite lookup_insert_eq.
  - intros k' Hne. by rewrite lookup_insert_ne.
  - rewrite dom_insert_L. apply elem_of_dom_2 in Hk. set_solver.
  - unfold size_. simpl. by rewrite map_size_insert_Some by eauto.
  - done.
  - by rewrite last_snoc.
  - intros k'. rewrite elem_of_app, elem_of_filter_ne, list_elem_of_singleton.
    destruct (decide (k' = k)) as [->|]; naive_solver.
  - done.
  - apply NoDup_app. split_and!.
    + apply NoDup_filter, Hwf.
    + intros k' Hk' ->%list_elem_of_singleton.
      apply elem_of_filter_ne in Hk' as [Hne _]. done.
    + apply NoDup_singleton.
  - rewrite length_app. simpl. destruct Hwf as [Hnd _]. clear -Hnd Hin.
    induction Hnd as [|y l Hy Hnd IH]; [by apply elem_of_nil in Hin|].
    destruct (decide (y = k)) as [->|Hne].
    + rewrite filter_cons_False by (intros Hc; by apply Hc).
      rewrite filter_ne_id by done. simpl. lia.
    + rewrite filter_cons_True by done. simpl.
      apply elem_of_cons in Hin as [->|Hin]; [done|]. specialize (IH Hin). lia.
Qed.

(** A full cache of capacity 2 whose older key is put again. *)
Lemma C10_put_existing_key_witness :
  exists c' : TileCache.t nat,
    put {| max_size := 2; _cache := {[ (1, 1, 1) := 10%nat; (2, 1, 1) := 20%nat ]};
           _access_order := [(1, 1, 1); (2, 1, 1)] |} (1, 1, 1) 11%nat = Ok c' /\
    _cache c' !! (1, 1, 1) = Some 11%nat /\
    _access_order c' = [(2, 1, 1); (1, 1, 1)].
Proof.
  destruct (C10_put_existing_key (Image := nat) 2
              [OpPut (1, 1, 1) 10%nat; OpPut (2, 1, 1) 20%nat]
              {| max_size := 2; _cache := {[ (1, 1, 1) := 10%nat; (2, 1, 1) := 20%nat ]};
                 _access_order := [(1, 1, 1); (2, 1, 1)] |}
              (1, 1, 1) 11%nat)
    as (c' & Hput & Hk & _ & _ & _ & _ & _ & _ & Horder & _).
  - vm_compute. reflexivity.
  - vm_compute. eexists. reflexivity.
  - exists c'. split; [exact Hput|]. split; [exact Hk|].
    rewrite Horder. reflexivity.
Defined.

End TileCacheClaims.

(* ===================================================================== *)
(** * TileMerger: the canvas                                              *)
(* ===================================================================== *)

(** A nested loop is one loop over the cells in row-major order. *)
Lemma fold_left_nested {S A B} (f : B -> S -> A -> S) (ys : list B) (xs : list A) (s : S) :
  fold_left (fun s y => fold_left (f y) xs s) ys s =
  fold_left (fun s (c : A * B) => f (snd c) s (fst c))
            (y ← ys; x ← xs; [(x, y)]) s.
Proof.
  revert s. induction ys as [|y ys IH]; intros s; simpl; [done|].
  rewrite fold_left_app, <- IH. f_equal.
  clear. revert s. induction xs as [|x xs IH]; intros s; simpl; [done|].
  by rewrite IH.
Qed.

Lemma elem_of_range (a b k : Z) : k ∈ range a b <-> a <= k < b.
Proof. unfold range. rewrite elem_of_seqZ. lia. Qed.

Lemma length_range (a b : Z) : length (range a b) = Z.to_nat (b - a).
Proof. unfold range. apply length_seqZ. Qed.

Module TileMergerFacts.
Import TileMerger TileMergerSpec.
Section WithPIL.
Context `{PIL}.

(** *** The tile map *)

Lemma build_tile_map_snoc l r :
  build_tile_map (l ++ [r]) =
  match success r, image r with
  | true, Some img => <[coord r := img]> (build_tile_map l)
  | _, _ => build_tile_map l
  end.
Proof. unfold build_tile_map. by rewrite fold_left_app. Qed.

(** Every entry of the map comes from a successful result with an image. *)
Lemma build_tile_map_sound l k img :
  build_tile_map l !! k = Some img ->
  exists r, r ∈ l /\ success r = true /\ image r = Some img /\ coord r = k.
Proof.
  induction l as [|r l IH] using rev_ind; [done|].
  rewrite build_tile_map_snoc.
  assert (build_tile_map l !! k = Some img ->
          exists r0, r0 ∈ l ++ [r] /\ success r0 = true /\ image r0 = Some img
                     /\ coord r0 = k) as IH'.
  { intros Hl. destruct (IH Hl) as (r0 & Hin & Hrest). exists r0.
    split; [apply elem_of_app; by left | done]. }
  destruct (success r) eqn:Hs, (image r) as [img'|] eqn:Hi; try done.
  destruct (decide (coord r = k)) as [<-|Hne].
  - rewrite lookup_insert_eq. intros [= <-]. exists r.
    split; [apply elem_of_app; right; by apply list_elem_of_singleton | done].
  - by rewrite lookup_insert_ne.
Qed.

(** When the successful results have pairwise distinct coordinates, each of
    those with an image is in the map. *)
Lemma build_tile_map_complete l r img :
  NoDup (coord <$> filter (fun r => success r = true) l) ->
  r ∈ l -> success r = true -> image r = Some img ->
  build_tile_map l !! coord r = Some img.
Proof.
  induction l as [|r' l IH] using rev_ind; intros Hnd Hin Hs Hi.
  - by apply elem_of_nil in Hin.
  - rewrite build_tile_map_snoc. rewrite filter_app, fmap_app in Hnd.
    apply NoDup_app in Hnd as (Hnd & Hdisj & _).
    apply elem_of_app in Hin as [Hin|Hin];
      [|apply list_elem_of_singleton in Hin].
    + assert (build_tile_map l !! coord r = Some img) as Hl by auto.
      destruct (success r') eqn:Hs', (image r') as [img'|]; try done.
      rewrite lookup_insert_ne; [done|]. intros Heq.
      apply (Hdisj (coord r)).
      * apply list_elem_of_fmap. exists r. split; [done|].
        by apply list_elem_of_filter.
      * rewrite filter_cons_True by done. rewrite <- Heq. set_solver.
    + subst r'. rewrite Hs, Hi. by rewrite lookup_insert_eq.
Qed.

(** The map does not depend on the order of the results. *)
Lemma build_tile_map_perm l l' :
  l ≡ₚ l' ->
  NoDup (coord <$> filter (fun r => success r = true) l) ->
  build_tile_map l = build_tile_map l'.
Proof.
  intros Hp Hnd.
  assert (NoDup (coord <$> filter (fun r => success r = true) l')) as Hnd'.
  { by rewrite <- Hp. }
  apply map_eq. intros k. apply option_eq. intros img. split; intros Hl.
  - destruct (build_tile_map_sound _ _ _ Hl) as (r & Hin & Hs & Hi & <-).
    apply build_tile_map_complete; try done. by rewrite <- Hp.
  - destruct (build_tile_map_sound _ _ _ Hl) as (r & Hin & Hs & Hi & <-).
    apply build_tile_map_complete; try done. by rewrite Hp.
Qed.

(** *** The loop over the grid *)

Lemma cell_image_size tile_map tx ty :
  width (cell_image tile_map tx ty) = tile_size /\
  height (cell_image tile_map tx ty) = tile_size.
Proof.
  unfold cell_image. destruct (tile_map !! (tx, ty)) as [t|]; [|done].
  case_decide as Hsz; [|done]. by injection Hsz.
Qed.

Lemma merge_cell_image tile_map sx sy gy st gx :
  merged_image (merge_cell tile_map sx sy gy st gx) =
  paste (merged_image st) (cell_image tile_map (sx + gx) (sy + gy))
        (gx * tile_size, gy * tile_size).
Proof.
  unfold merge_cell, cell_image, _fill_missing_tile.
  by destruct (tile_map !! (sx + gx, sy + gy)).
Qed.

Lemma merge_cells_size tile_map sx sy cells st :
  width (merged_image (merge_cells tile_map sx sy cells st)) = width (merged_image st) /\
  height (merged_image (merge_cells tile_map sx sy cells st)) = height (merged_image st).
Proof.
  revert st. induction cells as [|c cells IH]; intros st; [done|].
  unfold merge_cells in *. simpl. destruct (IH (merge_cell tile_map sx sy c.2 st c.1))
    as [-> ->]. by rewrite merge_cell_image.
Qed.

Lemma paste_cell_pixel tile_map sx sy img c px py :
  pixels (paste img (cell_image tile_map (sx + fst c) (sy + snd c))
                (fst c * tile_size, snd c * tile_size)) px py =
  if decide (covers c px py)
  then pixels (cell_image tile_map (sx + fst c) (sy + snd c))
              (px - fst c * tile_size) (py - snd c * tile_size)
  else pixels img px py.
Proof.
  unfold paste, covers. simpl.
  destruct (cell_image_size tile_map (sx + c.1) (sy + c.2)) as [-> ->].
  case_decide as Hc.
  - destruct Hc as [[? ?] [? ?]].
    repeat (rewrite (proj2 (Z.leb_le _ _)) by lia).
    repeat (rewrite (proj2 (Z.ltb_lt _ _)) by lia). done.
  - destruct (Z.leb_spec (c.1 * tile_size) px); simpl; [|done].
    destruct (Z.ltb_spec px (c.1 * tile_size + tile_size)); simpl; [|done].
    destruct (Z.leb_spec (c.2 * tile_size) py); simpl; [|done].
    destruct (Z.ltb_spec py (c.2 * tile_size + tile_size)); simpl; [|done].
    exfalso. apply Hc. lia.
Qed.

(** A pixel of the final canvas is the pixel of the one cell that covers it. *)
Lemma merge_cells_pixel tile_map sx sy cells st c px py :
  c ∈ cells -> covers c px py ->
  pixels (merged_image (merge_cells tile_map sx sy cells st)) px py =
  pixels (cell_image tile_map (sx + fst c) (sy + snd c))
         (px - fst c * tile_size) (py - snd c * tile_size).
Proof.
  intros Hin Hc. revert Hin.
  induction cells as [|c' cells IH] using rev_ind; intros Hin.
  - by apply elem_of_nil in Hin.
  - unfold merge_cells in *. rewrite fold_left_app. simpl.
    rewrite merge_cell_image, paste_cell_pixel.
    case_decide as Hc'.
    + assert (c' = c) as ->; [|done].
      unfold covers, tile_size in *. destruct c, c'. simpl in *. f_equal; lia.
    + apply IH. apply elem_of_app in Hin as [?|Hin]; [done|].
      apply list_elem_of_singleton in Hin. by subst.
Qed.

(** A cell without a tile is recorded in [missing_tiles]. *)
Lemma merge_cells_missing_mono tile_map sx sy cells st t :
  t ∈ missing_tiles st -> t ∈ missing_tiles (merge_cells tile_map sx sy cells st).
Proof.
  revert st. induction cells as [|c cells IH]; intros st Hin; [done|].
  unfold merge_cells in *. simpl. apply IH. unfold merge_cell.
  destruct (tile_map !! _); simpl; set_solver.
Qed.

Lemma merge_cells_missing tile_map sx sy cells st c :
  c ∈ cells -> tile_map !! (sx + fst c, sy + snd c) = None ->
  (sx + fst c, sy + snd c) ∈ missing_tiles (merge_cells tile_map sx sy cells st).
Proof.
  revert st. induction cells as [|c' cells IH]; intros st Hin Hnone.
  - by apply elem_of_nil in Hin.
  - apply elem_of_cons in Hin as [<-|Hin].
    + unfold merge_cells. simpl. apply merge_cells_missing_mono.
      unfold merge_cell. rewrite Hnone. simpl. set_solver.
    + unfold merge_cells in *. simpl. by apply IH.
Qed.

(** [merge_tiles] is the loop over all cells of the grid. *)
Lemma merge_tiles_state_cells download_results grid_size center_tile :
  merge_tiles_state download_results grid_size center_tile =
  merge_cells (build_tile_map download_results)
    (x center_tile - grid_size `div` 2) (y center_tile - grid_size `div` 2)
    (gy ← range 0 grid_size; gx ← range 0 grid_size; [(gx, gy)])
    {| merged_image := Image_new (grid_size * tile_size, grid_size * tile_size) (0, 0, 0);
       successful_tiles := 0; missing_tiles := [] |}.
Proof. unfold merge_tiles_state, merge_cells. by rewrite fold_left_nested. Qed.

Lemma elem_of_grid_cells grid_size gx gy :
  (gx, gy) ∈ (gy ← range 0 grid_size; gx ← range 0 grid_size; [(gx, gy)]) <->
  0 <= gx < grid_size /\ 0 <= gy < grid_size.
Proof.
  rewrite list_elem_of_bind. split.
  - intros (gy' & Hin & Hgy). apply list_elem_of_bind in Hin as (gx' & Hin & Hgx).
    apply list_elem_of_singleton in Hin. injection Hin as -> ->.
    apply elem_of_range in Hgx, Hgy. lia.
  - intros [Hx Hy]. exists gy. split; [|by apply elem_of_range].
    apply list_elem_of_bind. exists gx. split; [set_solver | by apply elem_of_range].
Qed.

(** The canvas has [grid_size * 256] pixels a side, whatever the results. *)
Lemma merge_tiles_size download_results grid_size center_tile :
  size_of (merge_tiles download_results grid_size center_tile) =
  (grid_size * tile_size, grid_size * tile_size).
Proof.
  unfold merge_tiles, size_of. rewrite merge_tiles_state_cells.
  by destruct (merge_cells_size (build_tile_map download_results)
    (x center_tile - grid_size `div` 2) (y center_tile - grid_size `div` 2)
    (gy ← range 0 grid_size; gx ← range 0 grid_size; [(gx, gy)])
    {| merged_image := Image_new (grid_size * tile_size, grid_size * tile_size) (0, 0, 0);
       successful_tiles := 0; missing_tiles := [] |}) as [-> ->].
Qed.

(** Every pixel of the canvas, by the cell it lies in. *)
Lemma merge_tiles_pixel download_results grid_size center_tile gx gy i j :
  0 <= gx < grid_size -> 0 <= gy < grid_size ->
  0 <= i < tile_size -> 0 <= j < tile_size ->
  getpixel (merge_tiles download_results grid_size center_tile)
           (gx * tile_size + i) (gy * tile_size + j) =
  Some (pixels (cell_image (build_tile_map download_results)
                  (x center_tile - grid_size `div` 2 + gx)
                  (y center_tile - grid_size `div` 2 + gy)) i j).
Proof.
  intros Hgx Hgy Hi Hj. unfold getpixel.
  pose proof (merge_tiles_size download_results grid_size center_tile) as Hsz.
  injection Hsz as -> ->. unfold tile_size in *.
  repeat (rewrite (proj2 (Z.leb_le _ _)) by lia).
  repeat (rewrite (proj2 (Z.ltb_lt _ _)) by nia). simpl. f_equal.
  unfold merge_tiles. rewrite merge_tiles_state_cells.
  rewrite (merge_cells_pixel _ _ _ _ _ (gx, gy)).
  - simpl. f_equal; unfold tile_size; lia.
  - by apply elem_of_grid_cells.
  - unfold covers, tile_size. simpl. lia.
Qed.

End WithPIL.
End TileMergerFacts.

Module TileMergerClaims.
Import TileMerger TileMergerSpec TileMergerFacts.

(** C2.  For every odd [grid_size >= 1], every centre tile and every list of
    download results, [merge_tiles] returns a canvas of exactly
    [grid_size * 256] by [grid_size * 256] pixels.  A grid cell for which no
    successful result with an image has the cell's tile coordinate is
    recorded as missing and holds, pixel for pixel, the placeholder tile (the
    grey tile with its marker).  In particular, when the list is empty or
    every result failed, every cell of the canvas is the placeholder. *)
Theorem C2_canvas_size_and_placeholders `{PIL}
    (download_results : list DownloadResult) (grid_size : Z) (center_tile : TileInfo) :
  Z.odd grid_size = true -> 1 <= grid_size ->
  let canvas := merge_tiles download_results grid_size center_tile in
  let final := merge_tiles_state download_results grid_size center_tile in
  let absent (tile_x tile_y : Z) :=
    forall r, r ∈ download_results -> success r = true -> is_Some (image r) ->
              coord r ≠ (tile_x, tile_y) in
  size_of canvas = (grid_size * 256, grid_size * 256) /\
  (forall grid_x grid_y,
     0 <= grid_x < grid_size -> 0 <= grid_y < grid_size ->
     let tile_x := x center_tile - grid_size `div` 2 + grid_x in
     let tile_y := y center_tile - grid_size `div` 2 + grid_y in
     absent tile_x tile_y ->
     (tile_x, tile_y) ∈ missing_tiles final /\
     forall i j, 0 <= i < 256 -> 0 <= j < 256 ->
       getpixel canvas (grid_x * 256 + i) (grid_y * 256 + j)
       = Some (pixels gray_tile i j)) /\
  ((forall r, r ∈ download_results -> success r = false) ->
   forall grid_x grid_y i j,
     0 <= grid_x < grid_size -> 0 <= grid_y < grid_size ->
     0 <= i < 256 -> 0 <= j < 256 ->
     getpixel canvas (grid_x * 256 + i) (grid_y * 256 + j)
     = Some (pixels gray_tile i j)).
Proof.
  intros _ Hg canvas final absent.
  assert (forall tile_x tile_y, absent tile_x tile_y ->
            build_tile_map download_results !! (tile_x, tile_y) = None) as Habs.
  { intros tx ty Ha. destruct (build_tile_map download_results !! (tx, ty))
      as [img|] eqn:Hl; [|done].
    destruct (build_tile_map_sound _ _ _ Hl) as (r & Hin & Hs & Hi & Hc).
    exfalso. apply (Ha r); eauto. }
  assert (forall grid_x grid_y,
     0 <= grid_x < grid_size -> 0 <= grid_y < grid_size ->
     absent (x center_tile - grid_size `div` 2 + grid_x)
            (y center_tile - grid_size `div` 2 + grid_y) ->
     forall i j, 0 <= i < 256 -> 0 <= j < 256 ->
       getpixel canvas (grid_x * 256 + i) (grid_y * 256 + j)
       = Some (pixels gray_tile i j)) as Hpix.
  { intros gx gy Hgx Hgy Ha i j Hi Hj. subst canvas.
    pose proof (merge_tiles_pixel download_results grid_size center_tile
                  gx gy i j Hgx Hgy Hi Hj) as Hp.
    unfold tile_size in Hp. rewrite Hp. unfold cell_image.
    by rewrite (Habs _ _ Ha). }
  split_and!.
  - apply merge_tiles_size.
  - intros gx gy Hgx Hgy tile_x tile_y Ha. split; [|by apply Hpix].
    subst final. rewrite merge_tiles_state_cells.
    apply (merge_cells_missing _ _ _ _ _ (gx, gy)).
    + by apply elem_of_grid_cells.
    + by apply Habs.
  - intros Hfail gx gy i j Hgx Hgy Hi Hj. apply Hpix; try done.
    intros r Hin Hs. rewrite (Hfail r Hin) in Hs. done.
Qed.

(** A 3 x 3 grid around tile (10, 10) when the only result failed. *)
Lemma C2_canvas_size_and_placeholders_witness :
  Z.odd 3 = true /\ 1 <= 3 /\
  size_of (merge_tiles (H := nearest_pil) [failed_result (tile_at 10 10 18)] 3
             (tile_at 10 10 18)) = (768, 768).
Proof.
  assert (Z.odd 3 = true) as Hodd by reflexivity.
  assert (1 <= 3) as H13 by lia.
  split; [exact Hodd|]. split; [exact H13|].
  exact (proj1 (C2_canvas_size_and_placeholders (H := nearest_pil)
                  [failed_result (tile_at 10 10 18)] 3 (tile_at 10 10 18) Hodd H13)).
Defined.

(** C8.  When the successful results of a list have pairwise distinct
    [(x, y)] tile coordinates, [merge_tiles] builds the same canvas, and ends
    with the same counters, for every permutation of the list. *)
Theorem C8_merge_order_independent `{PIL}
    (download_results download_results' : list DownloadResult)
    (grid_size : Z) (center_tile : TileInfo) :
  download_results ≡ₚ download_results' ->
  NoDup (coord <$> filter (fun r => success r = true) download_results) ->
  merge_tiles download_results grid_size center_tile
    = merge_tiles download_results' grid_size center_tile /\
  merge_tiles_state download_results grid_size center_tile
    = merge_tiles_state download_results' grid_size center_tile.
Proof.
  intros Hp Hnd.
  assert (merge_tiles_state download_results grid_size center_tile
          = merge_tiles_state download_results' grid_size center_tile) as Hst.
  { rewrite !merge_tiles_state_cells.
    by rewrite (build_tile_map_perm _ _ Hp Hnd). }
  split; [|done]. unfold merge_tiles. by rewrite Hst.
Qed.

(** Two tiles of a 3 x 3 grid, listed in either order. *)
Lemma C8_merge_order_independent_witness :
  let r1 := ok_result (tile_at 10 10 18) (flat_tile (200, 0, 0)) in
  let r2 := ok_result (tile_at 11 10 18) (flat_tile (0, 200, 0)) in
  merge_tiles (H := nearest_pil) [r1; r2] 3 (tile_at 10 10 18)
    = merge_tiles (H := nearest_pil) [r2; r1] 3 (tile_at 10 10 18).
Proof.
  intros r1 r2.
  refine (proj1 (C8_merge_order_independent (H := nearest_pil)
                   [r1; r2] [r2; r1] 3 (tile_at 10 10 18) _ _)).
  - apply perm_swap.
  - vm_compute. repeat constructor; set_solver.
Defined.

(** Without the side condition the order matters: of two successful results
    for one coordinate the later one wins. *)
Remark build_tile_map_last_wins :
  let r1 := ok_result (tile_at 10 10 18) (flat_tile (200, 0, 0)) in
  let r2 := ok_result (tile_at 10 10 18) (flat_tile (0, 200, 0)) in
  ((fun img => pixels img 0 0) <$> build_tile_map [r1; r2] !! (10, 10))
    = Some (0, 200, 0) /\
  ((fun img => pixels img 0 0) <$> build_tile_map [r2; r1] !! (10, 10))
    = Some (200, 0, 0).
Proof. split; vm_compute; reflexivity. Qed.

End TileMergerClaims.

(* ===================================================================== *)
(** * ImageProcessor: the pixel position of a point                       *)
(* ===================================================================== *)

Module ImageProcessorClaims.
Import ImageProcessor.

(** C1.  For every point and centre tile, [_geo_to_pixel] is the fractional
    tile coordinate of the point at the centre tile's zoom, minus the
    top-left tile coordinate [center - grid_size // 2] converted to a float,
    times 256, in x and in y, with no rounding in between.  The fractional
    coordinate is the Web Mercator formula without [int()], and
    [process_point_image] records exactly that pixel position, with the centre
    tile the truncation of the same fractional coordinate. *)
Theorem C1_pixel_position `{LibM} `{PIL} :
  (forall (point : GeoPoint) (center_tile : TileInfo) (grid_size : Z),
     _geo_to_pixel point center_tile grid_size =
       (f ← _geo_to_tile_float (longitude point) (latitude point) (z center_tile);
        Ok {| px_x := ((fst f - float_of_Z (x center_tile - grid_size `div` 2)) * 256)%float;
              px_y := ((snd f - float_of_Z (y center_tile - grid_size `div` 2)) * 256)%float |})) /\
  (forall lon lat zoom fx fy,
     _geo_to_tile_float lon lat zoom = Ok (fx, fy) ->
     exists n t a,
       float_pow 2 zoom = Ok n /\ math_tan (math_radians lat) = Ok t /\
       math_asinh t = Ok a /\
       fx = ((lon + 180) / 360 * n)%float /\
       fy = ((1 - a / math_pi) / 2 * n)%float) /\
  (forall point download_results zoom_level grid_size img md,
     process_point_image point download_results zoom_level grid_size = Ok (img, md) ->
     exists fx fy cx cy,
       _geo_to_tile_float (longitude point) (latitude point) zoom_level = Ok (fx, fy) /\
       int_of_float fx = Ok cx /\ int_of_float fy = Ok cy /\
       pixel_coordinates md =
         [ {| point_index := index point;
              rec_longitude := longitude point;
              rec_latitude := latitude point;
              pixel_x := ((fx - float_of_Z (cx - grid_size `div` 2)) * 256)%float;
              pixel_y := ((fy - float_of_Z (cy - grid_size `div` 2)) * 256)%float;
              rec_properties := properties point |} ]).
Proof.
  split_and!.
  - intros point center_tile grid_size. unfold _geo_to_pixel.
    destruct (_geo_to_tile_float _ _ _) as [[fx fy]|e]; reflexivity.
  - intros lon lat zoom fx fy. unfold _geo_to_tile_float.
    destruct (float_pow 2 zoom) as [n|e]; simpl; [|done].
    destruct (math_tan (math_radians lat)) as [t|e]; simpl; [|done].
    destruct (math_asinh t) as [a|e] eqn:Ha; simpl; [|done].
    intros [= <- <-]. by exists n, t, a.
  - intros point download_results zoom_level grid_size img md.
    unfold process_point_image, _geo_to_tile, _geo_to_pixel, _geo_to_tile_float.
    simpl.
    destruct (float_pow 2 zoom_level) as [n|e]; simpl; [|done].
    destruct (int_of_float ((longitude point + 180) / 360 * n)%float)
      as [cx|e] eqn:Hcx; simpl; [|done].
    destruct (math_tan _) as [t|e]; simpl; [|done].
    destruct (math_asinh t) as [a|e]; simpl; [|done].
    destruct (int_of_float ((1 - a / math_pi) / 2 * n)%float)
      as [cy|e] eqn:Hcy; simpl; [|done].
    unfold _create_image_metadata. simpl.
    destruct (_tile_to_geo (cx - _) (cy - _) _) as [[lon1 lat1]|e]; simpl; [|done].
    destruct (_tile_to_geo (cx + _) (cy + _) _) as [[lon2 lat2]|e]; simpl; [|done].
    intros [= <- <-]. simpl. eexists _, _, cx, cy. split_and!; done.
Qed.

(** The point (45 E, 0 N) at zoom 1 with a 1 x 1 grid: fractional tile
    coordinate (1.25, 1), centre tile (1, 1), pixel (64, 0). *)
Lemma C1_pixel_position_witness :
  exists img md,
    process_point_image (H := exact_libm) (H0 := nearest_pil)
      (mkGeoPoint 45 0 [] 7) [] 1 1 = Ok (img, md) /\
    pixel_coordinates md =
      [ {| point_index := 7; rec_longitude := 45; rec_latitude := 0;
           pixel_x := 64; pixel_y := 0; rec_properties := [] |} ].
Proof.
  destruct (process_point_image (H := exact_libm) (H0 := nearest_pil)
              (mkGeoPoint 45 0 [] 7) [] 1 1) as [[img md]|e] eqn:Hrun;
    [|vm_compute in Hrun; discriminate].
  exists img, md. split; [reflexivity|].
  destruct (proj2 (proj2 (C1_pixel_position (H := exact_libm) (H0 := nearest_pil)))
              _ _ _ _ _ _ Hrun) as (fx & fy & cx & cy & Hf & Hcx & Hcy & ->).
  vm_compute in Hf. injection Hf as <- <-.
  vm_compute in Hcx. injection Hcx as <-.
  vm_compute in Hcy. injection Hcy as <-.
  vm_compute. reflexivity.
Defined.

(** The x coordinate does not involve the C library.  Tiananmen
    (116.3974 E, as the nearest binary64 0x1.d196f0068db8cp+6) at zoom 18 lies
    in tile column 215830; in a 3 x 3 grid its pixel column is a little over
    256, inside the middle tile. *)
Example pixel_x_tiananmen :
  let lon := 0x1.d196f0068db8cp+6%float in
  let fx := ((lon + 180) / 360 * Z.ldexp 1 18)%float in
  int_of_float fx = Ok 215830 /\
  int_of_float ((fx - float_of_Z (215830 - 3 `div` 2)) * 256)%float = Ok 256.
Proof. split; vm_compute; reflexivity. Qed.

End ImageProcessorClaims.

(* ===================================================================== *)
(** * BaseDownloader: the tiles around a point                            *)
(* ===================================================================== *)

Module BaseDownloaderFacts.
Import BaseDownloader BaseDownloaderSpec.
Section WithConfig.
Context (config : Config.t).

(** A loop whose body keeps an invariant keeps it. *)
Lemma for_each_invariant {A B} (P : A -> Prop) (body : A -> B -> result A) l acc acc' :
  (forall a v a', P a -> body a v = Ok a' -> P a') ->
  P acc -> for_each body l acc = Ok acc' -> P acc'.
Proof.
  intros Hbody. revert acc. induction l as [|v l IH]; intros acc HP Hrun; simpl in Hrun.
  - by injection Hrun as <-.
  - destruct (body acc v) as [a|e] eqn:Hb; simpl in Hrun; [|done]. eauto.
Qed.

(** A loop whose body never raises is a fold. *)
Lemma for_each_ok {A B} (body : A -> B -> result A) (f : A -> B -> A) l acc :
  (forall a v, v ∈ l -> body a v = Ok (f a v)) ->
  for_each body l acc = Ok (fold_left f l acc).
Proof.
  revert acc. induction l as [|v l IH]; intros acc Hbody; simpl; [done|].
  rewrite Hbody by set_solver. simpl. apply IH. intros a w Hw. apply Hbody. set_solver.
Qed.

Lemma py_lshift_1 zoom m : py_lshift 1 zoom = Ok m -> 0 <= zoom /\ m = 2 ^ zoom.
Proof.
  unfold py_lshift. destruct (Z.ltb_spec zoom 0); [done|].
  intros [= <-]. by rewrite Z.shiftl_1_l.
Qed.

Lemma py_lshift_1_nonneg zoom : 0 <= zoom -> py_lshift 1 zoom = Ok (2 ^ zoom).
Proof.
  intros Hz. unfold py_lshift. destruct (Z.ltb_spec zoom 0); [lia|].
  by rewrite Z.shiftl_1_l.
Qed.

Lemma tiles_cell_in_pyramid cx cy zoom dx tiles dy tiles' :
  Forall (in_pyramid zoom) tiles ->
  tiles_cell config cx cy zoom dx tiles dy = Ok tiles' ->
  Forall (in_pyramid zoom) tiles'.
Proof.
  intros Hall. unfold tiles_cell.
  destruct (py_lshift 1 zoom) as [m|e] eqn:Hm; simpl; [|done].
  apply py_lshift_1 in Hm as [Hz ->].
  destruct (_ && _) eqn:Hc; intros [= <-]; [|done].
  apply Forall_app. split; [done|]. apply Forall_singleton.
  unfold in_pyramid. simpl.
  repeat (apply andb_prop in Hc as [Hc ?]). lia.
Qed.

Lemma tiles_cell_inside cx cy zoom dx tiles dy :
  0 <= cx + dx < 2 ^ zoom -> 0 <= cy + dy < 2 ^ zoom ->
  tiles_cell config cx cy zoom dx tiles dy
    = Ok (tiles ++ [Downloader.create_tile_info config (cx + dx) (cy + dy) zoom]).
Proof.
  intros Hx Hy. unfold tiles_cell.
  assert (0 <= zoom) as Hz.
  { destruct (Z.lt_ge_cases zoom 0) as [Hneg|]; [|done].
    rewrite Z.pow_neg_r in Hx by done. lia. }
  rewrite py_lshift_1_nonneg by done. simpl.
  repeat (rewrite (proj2 (Z.leb_le _ _)) by lia).
  repeat (rewrite (proj2 (Z.ltb_lt _ _)) by lia). done.
Qed.

Lemma tiles_cell_total cx cy zoom dx tiles dy :
  0 <= zoom -> is_ok (tiles_cell config cx cy zoom dx tiles dy) = true.
Proof.
  intros Hz. unfold tiles_cell. rewrite py_lshift_1_nonneg by done. simpl.
  by destruct (_ && _).
Qed.

Lemma for_each_total {A B} (body : A -> B -> result A) l acc :
  (forall a v, is_ok (body a v) = true) -> is_ok (for_each body l acc) = true.
Proof.
  intros Hbody. revert acc. induction l as [|v l IH]; intros acc; simpl; [done|].
  specialize (Hbody acc v). destruct (body acc v); simpl; [apply IH | done].
Qed.

Lemma fold_left_snoc_map {A B} (g : B -> A) (l : list B) (acc : list A) :
  fold_left (fun tiles v => tiles ++ [g v]) l acc = acc ++ map g l.
Proof.
  revert acc. induction l as [|v l IH]; intros acc; simpl.
  - by rewrite app_nil_r.
  - rewrite IH. by rewrite <- app_assoc.
Qed.

Lemma length_neighbourhood cx cy half :
  0 <= half -> length (neighbourhood cx cy half) = Z.to_nat ((2 * half + 1) * (2 * half + 1)).
Proof.
  intros Hh. unfold neighbourhood.
  assert (forall (l : list Z) (f : Z -> list (Z * Z)) n,
            (forall v, length (f v) = n) -> length (l ≫= f) = (length l * n)%nat) as Hbind.
  { intros l f n Hf. induction l as [|v l IH]; simpl; [done|].
    rewrite length_app, Hf. unfold mbind in IH. rewrite IH. lia. }
  rewrite (Hbind _ _ (Z.to_nat (2 * half + 1))).
  - rewrite length_range. lia.
  - intros v. rewrite (Hbind _ _ 1%nat) by done. rewrite length_range. lia.
Qed.

Lemma fold_rows cx cy zoom (l l' : list Z) (acc : list TileInfo) :
  fold_left (fun tiles dx => tiles ++ map (fun dy =>
     Downloader.create_tile_info config (cx + dx) (cy + dy) zoom) l') l acc
  = acc ++ map (fun c => Downloader.create_tile_info config (fst c) (snd c) zoom)
             (dx ← l; dy ← l'; [(cx + dx, cy + dy)]).
Proof.
  revert acc. induction l as [|dx l IH]; intros acc; simpl; [by rewrite app_nil_r|].
  rewrite IH, map_app, <- app_assoc. do 2 f_equal.
  clear IH. induction l' as [|dy l' IH']; simpl; [done|]. f_equal. apply IH'.
Qed.

Lemma elem_of_neighbourhood cx cy half dx dy :
  - half <= dx <= half -> - half <= dy <= half ->
  (cx + dx, cy + dy) ∈ neighbourhood cx cy half.
Proof.
  intros Hdx Hdy. unfold neighbourhood. apply list_elem_of_bind.
  exists dx. split; [|apply elem_of_range; lia].
  apply list_elem_of_bind. exists dy. split; [set_solver | apply elem_of_range; lia].
Qed.

End WithConfig.
End BaseDownloaderFacts.

Module BaseDownloaderClaims.
Import BaseDownloader BaseDownloaderSpec BaseDownloaderFacts.

(** C9.  Every tile that [calculate_tiles_for_point] returns satisfies
    [0 <= x < 2^zoom] and [0 <= y < 2^zoom] (cells outside are left out);
    the call returns whenever [mercantile.tile] does and the zoom is not
    negative; and for an odd grid size whose whole neighbourhood lies
    inside the pyramid it returns exactly [grid_size * grid_size] tiles, the
    cells [(cx + dx, cy + dy)] for [dx], [dy] from [-(grid_size // 2)] to
    [grid_size // 2] around the point's tile [(cx, cy)]. *)
Theorem C9_tiles_for_point (config : Config.t) `{Mercantile}
    (lon lat : float) (zoom grid_size : Z) :
  (forall tiles,
     calculate_tiles_for_point config lon lat zoom grid_size = Ok tiles ->
     Forall (fun t => 0 <= x t < 2 ^ zoom /\ 0 <= y t < 2 ^ zoom /\ z t = zoom) tiles) /\
  (forall cx cy,
     mercantile_tile lon lat zoom = Ok (cx, cy) -> 0 <= zoom ->
     exists tiles, calculate_tiles_for_point config lon lat zoom grid_size = Ok tiles) /\
  (forall cx cy,
     mercantile_tile lon lat zoom = Ok (cx, cy) ->
     Z.odd grid_size = true -> 1 <= grid_size ->
     let half := grid_size `div` 2 in
     0 <= cx - half -> cx + half < 2 ^ zoom ->
     0 <= cy - half -> cy + half < 2 ^ zoom ->
     exists tiles,
       calculate_tiles_for_point config lon lat zoom grid_size = Ok tiles /\
       Z.of_nat (length tiles) = grid_size * grid_size /\
       tiles = map (fun c => Downloader.create_tile_info config (fst c) (snd c) zoom)
                   (neighbourhood cx cy half) /\
       (cx, cy) ∈ map (fun t => (x t, y t)) tiles).
Proof.
  split_and!.
  - intros tiles. unfold calculate_tiles_for_point.
    destruct (mercantile_tile lon lat zoom) as [[cx cy]|e]; simpl; [|done].
    apply (for_each_invariant (Forall (in_pyramid zoom))); [|done].
    intros a dx a' Ha.
    apply (for_each_invariant (Forall (in_pyramid zoom))); [|done].
    intros b dy b' Hb. by apply tiles_cell_in_pyramid.
  - intros cx cy Hm Hz. unfold calculate_tiles_for_point. rewrite Hm. simpl.
    match goal with |- exists t, ?r = Ok t =>
      assert (is_ok r = true) as Hok; [|destruct r; [eauto | done]] end.
    apply for_each_total. intros a dx. apply for_each_total. intros b dy.
    by apply tiles_cell_total.
  - intros cx cy Hm Hodd Hg half Hx0 Hx1 Hy0 Hy1.
    assert (grid_size = 2 * half + 1) as Hgrid.
    { subst half. rewrite (Z.div_mod grid_size 2) at 1 by lia.
      rewrite <- Z.bit0_mod, Z.bit0_odd, Hodd. simpl. lia. }
    assert (0 <= half) as Hh by (subst half; apply Z.div_pos; lia).
    exists (map (fun c => Downloader.create_tile_info config (fst c) (snd c) zoom)
                (neighbourhood cx cy half)).
    split_and!.
    + unfold calculate_tiles_for_point. rewrite Hm. simpl. fold half.
      rewrite (for_each_ok _
        (fun tiles dx => tiles ++ map (fun dy =>
           Downloader.create_tile_info config (cx + dx) (cy + dy) zoom)
           (range (- half) (half + 1)))).
      * by rewrite fold_rows.
      * intros a dx Hdx. apply elem_of_range in Hdx.
        rewrite (for_each_ok _ (fun tiles dy =>
          tiles ++ [Downloader.create_tile_info config (cx + dx) (cy + dy) zoom])).
        -- by rewrite fold_left_snoc_map.
        -- intros b dy Hdy. apply elem_of_range in Hdy.
           apply tiles_cell_inside; lia.
    + rewrite length_map, length_neighbourhood by done. rewrite Hgrid. nia.
    + done.
    + apply list_elem_of_In, in_map_iff.
      exists (Downloader.create_tile_info config cx cy zoom). split; [done|].
      apply in_map_iff. exists (cx, cy). split; [done|].
      apply list_elem_of_In.
      replace (cx, cy) with (cx + 0, cy + 0) by (f_equal; lia).
      apply elem_of_neighbourhood; lia.
Qed.

(** A 3 x 3 grid around tile (10, 10) at zoom 5. *)
Lemma C9_tiles_for_point_witness :
  exists tiles,
    calculate_tiles_for_point
      (Config.mk "http://mt0.google.com/vt/lyrs=s&hl=en" "./tiles" "./output"
                 5 3 3 2 (6, 10)%Q (0.1, 0.3)%Q 30)
      (H := mercantile_at 10 10) 0 0 5 3 = Ok tiles /\
    Z.of_nat (length tiles) = 3 * 3.
Proof.
  destruct (proj2 (proj2 (C9_tiles_for_point
              (Config.mk "http://mt0.google.com/vt/lyrs=s&hl=en" "./tiles" "./output"
                         5 3 3 2 (6, 10)%Q (0.1, 0.3)%Q 30)
              (H := mercantile_at 10 10) 0 0 5 3)) 10 10)
    as (tiles & Hrun & Hlen & _).
  - reflexivity.
  - reflexivity.
  - lia.
  - vm_compute. discriminate.
  - vm_compute. reflexivity.
  - vm_compute. discriminate.
  - vm_compute. reflexivity.
  - exists tiles. split; [exact Hrun | exact Hlen].
Defined.

End BaseDownloaderClaims.

(* ===================================================================== *)
(** * The downloader: cache lookup, retries, batches                      *)
(* ===================================================================== *)

Module DownloaderFacts.
Import Downloader DownloaderSpec.

Lemma good_init disk : good (init disk).
Proof.
  unfold good, init. simpl. split_and!; [apply TileCacheFacts.wf_init | lia |].
  rewrite map_size_empty. lia.
Qed.

Lemma sleepable_dec seconds : sleepable seconds \/ ~ sleepable seconds.
Proof.
  unfold sleepable.
  destruct (Qlt_le_dec seconds 0) as [Hneg|Hpos].
  - right. intros [H0 _]. by apply (Qlt_not_le _ _ Hneg).
  - destruct (Qlt_le_dec (nanoseconds seconds) sleep_limit) as [Hfit|Hbig].
    + by left.
    + right. intros [_ Hlt]. by apply (Qlt_not_le _ _ Hlt).
Qed.

(** [time.sleep] of a duration returns, having waited. *)
Lemma time_sleep_ok seconds st :
  sleepable seconds -> time_sleep seconds st = (Ok tt, slept seconds st).
Proof.
  intros [H0 Hfit]. unfold time_sleep, Qltb.
  rewrite (proj2 (Qle_bool_iff 0 seconds) H0). cbn [negb].
  destruct (Qle_bool sleep_limit (nanoseconds seconds)) eqn:Hb; [|done].
  apply Qle_bool_iff in Hb. exfalso. by apply (Qlt_not_le _ _ Hfit).
Qed.

(** [time.sleep] of anything else raises and nothing has happened. *)
Lemma time_sleep_raises seconds st :
  ~ sleepable seconds ->
  exists e,
    time_sleep seconds st = (Raise e, st) /\
    (e = ValueError "sleep length must be non-negative" \/
     e = OverflowError "timestamp too large to convert to C _PyTime_t").
Proof.
  intros Hno. unfold time_sleep, Qltb, raise.
  destruct (Qle_bool 0 seconds) eqn:H0; cbn [negb]; [|eauto].
  destruct (Qle_bool sleep_limit (nanoseconds seconds)) eqn:Hb; [eauto|].
  exfalso. apply Hno. split; [by apply Qle_bool_iff|].
  apply Qnot_le_lt. intros Hle. apply Qle_bool_iff in Hle. congruence.
Qed.

(** A negative duration raises [ValueError]. *)
Lemma time_sleep_negative seconds st :
  (seconds < 0)%Q ->
  time_sleep seconds st = (Raise (ValueError "sleep length must be non-negative"), st).
Proof.
  intros Hneg. unfold time_sleep, Qltb, raise.
  destruct (Qle_bool 0 seconds) eqn:H0; [|done].
  apply Qle_bool_iff in H0. exfalso. by apply (Qlt_not_le _ _ Hneg).
Qed.

Lemma sleep_limit_in_float_range : (sleep_limit < float_overflow)%Q.
Proof. unfold Qlt. vm_compute. reflexivity. Qed.

Lemma nanoseconds_le seconds : (0 <= seconds -> seconds <= nanoseconds seconds)%Q.
Proof.
  intros Hpos. unfold nanoseconds.
  assert (10 ^ 9 == 1000000000)%Q as -> by reflexivity. lra.
Qed.

Lemma nanoseconds_mono s1 s2 : (s1 <= s2 -> nanoseconds s1 <= nanoseconds s2)%Q.
Proof.
  intros Hle. unfold nanoseconds.
  assert (10 ^ 9 == 1000000000)%Q as -> by reflexivity. lra.
Qed.

(** A power in the range of the floats is returned. *)
Lemma py_float_pow_ok base n :
  in_float_range (base ^ n) -> py_float_pow base n = Ok (base ^ n)%Q.
Proof.
  unfold in_float_range, py_float_pow. intros Hfit. cbv zeta.
  destruct (Qle_bool float_overflow (Qabs (base ^ n))) eqn:Hb; [|done].
  apply Qle_bool_iff in Hb. exfalso. by apply (Qlt_not_le _ _ Hfit).
Qed.

Section WithWorld.
Context (config : Config.t) (world : World).

Lemma cache_get_spec st k :
  good st ->
  exists c,
    cache_get k st = (Ok (TileCache._cache (cache st) !! k),
                      set_cache c (emit (EvCacheGet k) st)) /\
    TileCache.wf c /\ TileCache.max_size c = TileCache.max_size (cache st) /\
    TileCache._cache c = TileCache._cache (cache st).
Proof.
  intros (Hwf & _). unfold cache_get. simpl.
  destruct (TileCacheFacts.get_total (cache st) k Hwf)
    as (r & c & -> & Hwf' & HN & Hc & ->).
  exists c. done.
Qed.

Lemma cache_put_spec st k img :
  good st ->
  exists c,
    cache_put k img st = (Ok tt, set_cache c st) /\
    good (set_cache c st) /\ TileCache._cache c !! k = Some img.
Proof.
  intros (Hwf & HN & Hsz). unfold cache_put.
  destruct (TileCacheFacts.put_total (cache st) k img Hwf HN Hsz)
    as (c & -> & Hwf' & HN' & Hsz' & Hk).
  exists c. split; [done|]. split; [|done].
  unfold good. simpl. rewrite HN'. done.
Qed.

(** [load_cached_tile] never raises; it makes the lookups [load_events] and
    no request, and returns [cached_tile]. *)
Lemma load_cached_tile_spec st t :
  good st ->
  exists st',
    load_cached_tile t st = (Ok (cached_tile st t), st') /\
    good st' /\
    trace st' = trace st ++ load_events st t /\
    http_calls st' = http_calls st /\ rng_calls st' = rng_calls st /\
    clock st' = clock st /\ disk st' = disk st.
Proof.
  intros Hgood. unfold load_cached_tile, cached_tile, load_events.
  destruct (cache_get_spec st (key t) Hgood) as (c & Hget & Hwf & HN & Hc).
  assert (good (set_cache c (emit (EvCacheGet (key t)) st))) as Hgood1.
  { destruct Hgood as (_ & ? & ?). unfold good. simpl. rewrite HN, Hc. done. }
  py_unfold. rewrite Hget.
  destruct (TileCache._cache (cache st) !! key t) as [img|] eqn:Hk.
  - eexists. split; [reflexivity|]. simpl. split_and!; try done.
  - simpl. destruct (disk st !! file_path t) as [data|] eqn:Hd; simpl.
    + rewrite Hd.
      destruct (bytes_image data) as [img|] eqn:Hi; simpl.
      * match goal with |- context [cache_put ?k ?i ?s] =>
          destruct (cache_put_spec s k i) as (c' & -> & Hgood' & _) end.
        { destruct Hgood1 as (? & ? & ?). unfold good. simpl in *. done. }
        eexists. split; [reflexivity|]. simpl. frame_done.
      * eexists. split; [reflexivity|]. simpl. frame_done.
    + eexists. split; [reflexivity|]. simpl. frame_done.
Qed.

End WithWorld.
End DownloaderFacts.

Module SyncDownloaderFacts.
Import Downloader DownloaderSpec DownloaderFacts.
Import SyncDownloader SyncDownloaderSpec.
Section WithWorld.
Context (config : Config.t) (world : World).

(** [save_tile] keeps the invariant and touches neither trace nor counters. *)
Lemma save_tile_spec st t img :
  good st ->
  exists r st',
    save_tile world t img st = (r, st') /\ good st' /\
    trace st' = trace st /\ http_calls st' = http_calls st /\
    rng_calls st' = rng_calls st /\
    match r with Ok _ => True | Raise e => exists msg, e = DownloadError msg end.
Proof.
  intros Hgood. unfold save_tile. py_unfold.
  destruct (save_fails world (file_path t)) eqn:Hsave.
  - eexists _, _. split; [reflexivity|]. frame_done; eauto.
  - match goal with |- context [cache_put ?k ?i ?s] =>
      destruct (cache_put_spec s k i) as (c' & -> & Hgood' & _) end.
    { destruct Hgood as (? & ? & ?). unfold good. simpl in *. done. }
    simpl. rewrite lookup_insert_eq. simpl.
    eexists _, _. split; [reflexivity|]. simpl. frame_done.
Qed.

(** Ranges of durations give waits that are durations: it is enough that
    the draws lie in their ranges, that both ranges start at zero or above,
    that the backoff base is at least one, and that the longest delay and
    the longest wait are short of the clock's limit. *)
Lemma valid_waits_of_ranges :
  uniform_in_range world ->
  (0 <= fst (Config.request_interval_range config)
     <= snd (Config.request_interval_range config))%Q ->
  (nanoseconds (snd (Config.request_interval_range config)) < sleep_limit)%Q ->
  (1 <= Config.backoff_base config)%Q ->
  (0 <= fst (Config.retry_wait_range config)
     <= snd (Config.retry_wait_range config))%Q ->
  (nanoseconds (Config.backoff_base config ^ Config.max_retries config
                + snd (Config.retry_wait_range config)) < sleep_limit)%Q ->
  valid_waits config world.
Proof.
  intros Hu Hri Hri_max Hb Hrw Hrw_max. split.
  - intros rng. unfold request_delay.
    destruct (Hu rng _ _ (proj2 Hri)) as [Hlo Hhi]. split; [lra|].
    eapply Qle_lt_trans; [apply nanoseconds_mono, Hhi | done].
  - intros rng attempt Ha. unfold retry_wait.
    destruct (Hu rng _ _ (proj2 Hrw)) as [Hlo Hhi].
    assert (0 <= Config.backoff_base config ^ attempt)%Q as Hpos
      by (apply Qpower_0_le; lra).
    assert (Config.backoff_base config ^ attempt
            <= Config.backoff_base config ^ Config.max_retries config)%Q as Hmono
      by (apply Qpower_le_compat_l; [lia | done]).
    match type of Hrw_max with (nanoseconds ?hi < _)%Q =>
      match goal with |- _ /\ sleepable ?w =>
        pose proof (nanoseconds_mono w hi ltac:(lra)) as Hm;
        pose proof (nanoseconds_le w ltac:(lra)) as Hle
      end end.
    pose proof sleep_limit_in_float_range as Hlim.
    split; [|split].
    + unfold in_float_range. rewrite Qabs_pos by done. lra.
    + lra.
    + lra.
Qed.

(** The delay before a request: a draw, then the sleep. *)
Lemma add_random_delay_ok st :
  sleepable (request_delay config world (rng_calls st)) ->
  add_random_delay config world st
  = (Ok tt, slept (request_delay config world (rng_calls st))
              (set_rng_calls (S (rng_calls st)) st)).
Proof.
  intros Hs. unfold add_random_delay, random_uniform, mbind, Py_bind.
  by apply time_sleep_ok.
Qed.

Lemma add_random_delay_raises st :
  ~ sleepable (request_delay config world (rng_calls st)) ->
  exists e,
    add_random_delay config world st
    = (Raise e, set_rng_calls (S (rng_calls st)) st) /\
    (e = ValueError "sleep length must be non-negative" \/
     e = OverflowError "timestamp too large to convert to C _PyTime_t").
Proof.
  intros Hs. unfold add_random_delay, random_uniform, mbind, Py_bind.
  by apply time_sleep_raises.
Qed.

(** An attempt after the first whose delay is not a duration: the sleep
    raises inside the [try], no request is made and the attempt leaves with
    a [DownloadError]. *)
Lemma download_with_retry_no_delay st t attempt :
  0 < attempt ->
  ~ sleepable (request_delay config world (rng_calls st)) ->
  exists msg,
    _download_with_retry config world t attempt st
    = (Raise (DownloadError msg), set_rng_calls (S (rng_calls st)) st) /\
    (msg = "未知错误: sleep length must be non-negative" \/
     msg = "未知错误: timestamp too large to convert to C _PyTime_t").
Proof.
  intros Ha Hs. unfold _download_with_retry.
  rewrite (proj2 (Z.ltb_lt 0 attempt) Ha).
  destruct (add_random_delay_raises st Hs) as (e & Hrun & He).
  unfold try_except, raise, mbind, Py_bind. rewrite Hrun.
  destruct He as [-> | ->]; eexists; (split; [reflexivity|]); eauto.
Qed.

(** The state an attempt makes its request from. *)
Lemma attempt_delay_ok st attempt :
  attempt <= 0 \/ sleepable (request_delay config world (rng_calls st)) ->
  (if 0 <? attempt then add_random_delay config world else mret tt) st
  = (Ok tt, if 0 <? attempt
            then slept (request_delay config world (rng_calls st))
                   (set_rng_calls (S (rng_calls st)) st)
            else st).
Proof.
  intros Hd. destruct (Z.ltb_spec 0 attempt) as [Ha|Ha]; [|done].
  destruct Hd as [?|Hs]; [lia|]. by apply add_random_delay_ok.
Qed.

(** One attempt whose delay, if it has one, is a duration: at most one
    delay, exactly one request; it ends in a successful result for the tile
    or in an exception. *)
Lemma download_with_retry_spec st t attempt :
  good st ->
  attempt <= 0 \/ sleepable (request_delay config world (rng_calls st)) ->
  exists r st',
    _download_with_retry config world t attempt st = (r, st') /\ good st' /\
    trace st' = trace st ++ attempt_events config world (rng_calls st) t attempt /\
    http_calls st' = S (http_calls st) /\
    rng_calls st' = (rng_calls st + (if (0 <? attempt)%Z then 1 else 0))%nat /\
    match r with
    | Ok res => success res = true /\ tile_info res = t /\ is_Some (image res)
    | Raise e => exists msg, e = DownloadError msg
    end.
Proof.
  intros Hgood Hd. unfold _download_with_retry, attempt_events.
  fold (request_delay config world (rng_calls st)).
  pose proof (attempt_delay_ok st attempt Hd) as Hdelay.
  set (d := request_delay config world (rng_calls st)) in *.
  set (st1 := if 0 <? attempt then slept d (set_rng_calls (S (rng_calls st)) st)
              else st) in *.
  assert (good st1 /\
          trace st1 = trace st ++ (if 0 <? attempt then [EvSleep d] else []) /\
          http_calls st1 = http_calls st /\
          rng_calls st1 = (rng_calls st + (if (0 <? attempt)%Z then 1 else 0))%nat)
    as (Hgood1 & Htr1 & Hh1 & Hr1).
  { subst st1. destruct (0 <? attempt); simpl.
    - frame_done; lia.
    - rewrite app_nil_r. frame_done; lia. }
  py_unfold. rewrite Hdelay. clearbody st1. cbv zeta.
  set (st2 := set_clock (clock st1 + http_latency world (http_calls st1))%Q
                (set_http_calls (S (http_calls st1)) (emit (EvHttpGet (url t)) st1))).
  assert (good st2 /\
          trace st2 = trace st ++ (if 0 <? attempt then [EvSleep d] else [])
            ++ [EvHttpGet (url t)] /\
          http_calls st2 = S (http_calls st) /\
          rng_calls st2 = (rng_calls st + (if (0 <? attempt)%Z then 1 else 0))%nat)
    as (Hgood2 & Htr2 & Hh2 & Hr2).
  { subst st2. simpl. rewrite Htr1, Hh1, Hr1. frame_done. }
  clearbody st2.
  destruct (http_get world (http_calls st1) (url t)) as [e|resp].
  { eexists _, _. split; [reflexivity|]. frame_done;
    unfold classify_error; destruct e; try (repeat case_match); eauto. }
  destruct ((400 <=? status_code resp) && (status_code resp <? 600)).
  { eexists _, _. split; [reflexivity|]. frame_done;
    unfold classify_error; repeat case_match; eauto. }
  destruct (is_image_type (default "" (content_type resp))).
  2:{ eexists _, _. split; [reflexivity|]. frame_done; simpl; eauto. }
  destruct (bytes_len (content resp) =? 0).
  { eexists _, _. split; [reflexivity|]. frame_done; simpl; eauto. }
  destruct (bytes_image (content resp)) as [img|].
  2:{ eexists _, _. split; [reflexivity|]. frame_done; simpl; eauto. }
  destruct (save_tile_spec st2 t img Hgood2) as (r & st3 & Hsave & Hgood3 & Htr3 & Hh3 & Hr3 & Hres).
  unfold mret, Py_ret. rewrite Hsave.
  destruct r as [[]|e].
  - eexists _, _. split; [reflexivity|]. simpl.
    rewrite Htr3, Hh3, Hr3. frame_done; eauto.
  - eexists _, _. split; [reflexivity|]. simpl.
    rewrite Htr3, Hh3, Hr3. frame_done;
    destruct Hres as [msg ->]; simpl; eauto.
Qed.

(** One attempt, whatever its delay: it keeps the invariant, makes at most
    one request and one draw, and ends in a successful result for the tile
    or in a [DownloadError]. *)
Lemma download_with_retry_any st t attempt :
  good st ->
  exists r st',
    _download_with_retry config world t attempt st = (r, st') /\ good st' /\
    (http_calls st' <= S (http_calls st))%nat /\
    match r with
    | Ok res => success res = true /\ tile_info res = t /\ is_Some (image res)
    | Raise e => exists msg, e = DownloadError msg
    end.
Proof.
  intros Hgood.
  destruct (Z.le_gt_cases attempt 0) as [Ha|Ha].
  - destruct (download_with_retry_spec st t attempt Hgood (or_introl Ha))
      as (r & st' & Hrun & Hgood' & _ & Hh & _ & Hres).
    exists r, st'. split_and!; try done. lia.
  - destruct (sleepable_dec (request_delay config world (rng_calls st))) as [Hs|Hs].
    + destruct (download_with_retry_spec st t attempt Hgood (or_intror Hs))
        as (r & st' & Hrun & Hgood' & _ & Hh & _ & Hres).
      exists r, st'. split_and!; try done. lia.
    + destruct (download_with_retry_no_delay st t attempt ltac:(lia) Hs)
        as (msg & Hrun & _).
      eexists _, _. split; [exact Hrun|]. simpl. frame_done; eauto.
Qed.

(** The wait before a retry, when it is a duration. *)
Lemma retry_wait_ok st attempt :
  in_float_range (Config.backoff_base config ^ attempt) ->
  sleepable (retry_wait config world (rng_calls st) attempt) ->
  (backoff_time ← lift (py_float_pow (Config.backoff_base config) attempt);
   retry_wait ← random_uniform world (Config.retry_wait_range config);
   time_sleep (backoff_time + retry_wait)%Q) st
  = (Ok tt, slept (retry_wait config world (rng_calls st) attempt)
              (set_rng_calls (S (rng_calls st)) st)).
Proof.
  intros Hfit Hs. unfold lift, random_uniform, mbind, Py_bind.
  rewrite py_float_pow_ok by done. by apply time_sleep_ok.
Qed.

(** The wait before a retry in general: it returns having slept, or raises
    having at most drawn. *)
Lemma retry_wait_any st attempt :
  exists r st',
    (backoff_time ← lift (py_float_pow (Config.backoff_base config) attempt);
     retry_wait ← random_uniform world (Config.retry_wait_range config);
     time_sleep (backoff_time + retry_wait)%Q) st = (r, st') /\
    cache st' = cache st /\ disk st' = disk st /\ monitor st' = monitor st /\
    http_calls st' = http_calls st.
Proof.
  unfold lift, random_uniform, mbind, Py_bind.
  destruct (py_float_pow (Config.backoff_base config) attempt) as [b|e].
  2:{ eexists _, _. split; [reflexivity|]. done. }
  match goal with |- context [time_sleep ?s ?s0] =>
    destruct (sleepable_dec s) as [Hs|Hs];
      [rewrite (time_sleep_ok s s0 Hs)
      |destruct (time_sleep_raises s s0 Hs) as (e & -> & _)] end;
    eexists _, _; (split; [reflexivity|]); done.
Qed.

(** The loop over the attempts when the waits are durations: it never
    raises, whatever the list of attempts. *)
Lemma download_attempts_total t start attempts st :
  valid_retry_waits config world ->
  Forall (fun attempt => 0 <= attempt) attempts ->
  good st ->
  exists ret st',
    download_attempts config world t start attempts st = (Ok ret, st') /\ good st' /\
    (http_calls st' <= http_calls st + length attempts)%nat /\
    forall res, ret = Some res -> success res = true /\ tile_info res = t.
Proof.
  intros Hwait Hnonneg. revert st.
  induction Hnonneg as [|attempt rest Ha _ IH]; intros st Hgood.
  - eexists _, _. split; [reflexivity|]. simpl. frame_done; lia.
  - cbn [download_attempts]. unfold try_except at 1. unfold mbind at 1, Py_bind at 1.
    unfold mbind at 1, Py_bind at 1.
    destruct (download_with_retry_any st t attempt Hgood)
      as (r & st1 & -> & Hgood1 & Hh1 & Hres).
    destruct r as [res|e].
    + destruct Hres as (Hs & Ht & _). rewrite Hs. py_unfold. simpl.
      eexists _, _. split; [reflexivity|]. simpl. frame_done; try lia.
      intros ? [= <-]. done.
    + destruct (Z.ltb_spec attempt (Config.max_retries config)) as [Hlt|Hge].
      * destruct (Hwait (rng_calls st1) attempt ltac:(lia)) as [Hfit Hs].
        unfold mbind at 1, Py_bind at 1.
        rewrite (retry_wait_ok st1 attempt Hfit Hs).
        match goal with |- context [slept ?d ?s] =>
          destruct (IH (slept d s)) as (ret & st' & Hrun & Hgood' & Hh' & Hret) end.
        { frame_done. }
        unfold mret, Py_ret. rewrite Hrun. simpl in Hh'.
        eexists _, _. split; [reflexivity|]. cbn [length]. frame_done; lia.
      * destruct (IH st1 Hgood1) as (ret & st' & Hrun & Hgood' & Hh' & Hret).
        unfold mbind at 1, Py_bind at 1, mret, Py_ret. rewrite Hrun.
        eexists _, _. split; [reflexivity|]. cbn [length]. frame_done; lia.
Qed.

Lemma seqZ_succ (i n : nat) :
  seqZ (Z.of_nat i) (Z.of_nat (S n)) = Z.of_nat i :: seqZ (Z.of_nat (S i)) (Z.of_nat n).
Proof.
  rewrite seqZ_cons by lia. f_equal. f_equal; lia.
Qed.

(** The loop over [range(max_retries + 1)], from attempt [i] on, when the
    waits are durations: [f] is the last attempt made; the attempts before
    it failed and were each followed by the backoff wait; attempt [f]
    succeeded, or it was the last allowed. *)
Lemma download_attempts_spec r0 t start (n : nat) :
  valid_waits config world ->
  forall (i : nat) st,
    good st -> rng_calls st = draw_before r0 i ->
    Z.of_nat i + Z.of_nat (S n) = Config.max_retries config + 1 ->
    exists ret st' (f : nat),
      download_attempts config world t start
        (seqZ (Z.of_nat i) (Z.of_nat (S n))) st = (Ok ret, st') /\ good st' /\
      (i <= f)%nat /\ Z.of_nat f <= Config.max_retries config /\
      trace st' = trace st
        ++ flat_map (failed_attempt_events config world r0 t) (seq i (f - i))
        ++ attempt_events config world (draw_before r0 f) t (Z.of_nat f) /\
      http_calls st' = (http_calls st + (f - i) + 1)%nat /\
      match ret with
      | Some res => success res = true /\ tile_info res = t /\ is_Some (image res)
      | None => Z.of_nat f = Config.max_retries config
      end.
Proof.
  intros [Hdelay Hwait].
  induction n as [|n IH]; intros i st Hgood Hrng Hi.
  - (* the last attempt *)
    rewrite seqZ_succ. cbn [download_attempts].
    unfold try_except at 1. unfold mbind at 1, Py_bind at 1.
    unfold mbind at 1, Py_bind at 1.
    destruct (download_with_retry_spec st t (Z.of_nat i) Hgood (or_intror (Hdelay _)))
      as (r & st1 & -> & Hgood1 & Htr1 & Hh1 & _ & Hres).
    rewrite Hrng in Htr1.
    destruct r as [res|e].
    + destruct Hres as (Hs & Ht & Him). rewrite Hs. py_unfold. simpl.
      eexists _, _, i. split; [reflexivity|]. simpl.
      replace (i - i)%nat with 0%nat by lia. simpl.
      rewrite Htr1, Hh1. frame_done; lia.
    + destruct (Z.ltb_spec (Z.of_nat i) (Config.max_retries config)); [lia|].
      py_unfold. simpl.
      eexists _, _, i. split; [reflexivity|]. simpl.
      replace (i - i)%nat with 0%nat by lia. simpl.
      rewrite Htr1, Hh1. frame_done; lia.
  - rewrite seqZ_succ.
    set (rest := seqZ (Z.of_nat (S i)) (Z.of_nat (S n))).
    cbn [download_attempts].
    unfold try_except at 1. unfold mbind at 1, Py_bind at 1.
    unfold mbind at 1, Py_bind at 1.
    destruct (download_with_retry_spec st t (Z.of_nat i) Hgood (or_intror (Hdelay _)))
      as (r & st1 & -> & Hgood1 & Htr1 & Hh1 & Hr1 & Hres).
    rewrite Hrng in Htr1.
    destruct r as [res|e].
    + destruct Hres as (Hs & Ht & Him). rewrite Hs. py_unfold. simpl.
      eexists _, _, i. split; [reflexivity|]. simpl.
      replace (i - i)%nat with 0%nat by lia. simpl.
      rewrite Htr1, Hh1. frame_done; lia.
    + destruct (Z.ltb_spec (Z.of_nat i) (Config.max_retries config)); [|lia].
      destruct (Hwait (rng_calls st1) (Z.of_nat i) ltac:(lia)) as [Hfit Hs].
      unfold mbind at 1, Py_bind at 1.
      rewrite (retry_wait_ok st1 (Z.of_nat i) Hfit Hs).
      subst rest.
      match goal with |- context [slept ?d ?s] =>
        destruct (IH (S i) (slept d s))
          as (ret & st' & f & Hrun & Hgood' & Hif & Hf & Htr' & Hh' & Hret)
      end.
      { frame_done. }
      { simpl. rewrite Hr1, Hrng.
        destruct (Z.ltb_spec 0 (Z.of_nat i)); destruct i; simpl; lia. }
      { lia. }
      unfold mret, Py_ret. rewrite Hrun.
      simpl in Htr', Hh'.
      eexists _, _, f. split; [reflexivity|]. frame_done; try lia.
      rewrite Htr', Htr1.
      replace (f - i)%nat with (S (f - S i)) by lia.
      change (seq i (S (f - S i))) with (i :: seq (S i) (f - S i)).
      change (flat_map (failed_attempt_events config world r0 t) (i :: seq (S i) (f - S i)))
        with (failed_attempt_events config world r0 t i
              ++ flat_map (failed_attempt_events config world r0 t) (seq (S i) (f - S i))).
      assert (rng_calls st1 = (r0 + 2 * i)%nat) as ->.
      { rewrite Hr1, Hrng.
        destruct (Z.ltb_spec 0 (Z.of_nat i)); destruct i; simpl; lia. }
      unfold failed_attempt_events at 2. unfold backoff_sleep, retry_wait.
      by rewrite <- !app_assoc.
Qed.

(** ** [download_tile] *)

Lemma download_tile_cached st t img :
  good st -> cached_tile st t = Some img ->
  exists st',
    download_tile config world t st = (Ok (cached_result t img), st') /\
    good st' /\ trace st' = trace st ++ load_events st t /\
    http_calls st' = http_calls st.
Proof.
  intros Hgood Hc. unfold download_tile. py_unfold.
  destruct (load_cached_tile_spec st t Hgood)
    as (st1 & -> & Hgood1 & Htr & Hh & _).
  rewrite Hc. eexists. split; [reflexivity|]. frame_done.
Qed.

Lemma download_tile_invalid st t :
  good st -> cached_tile st t = None ->
  validate_tile_coordinates (x t) (y t) (z t) = false ->
  exists st',
    download_tile config world t st = (Ok (invalid_result t), st') /\
    good st' /\ trace st' = trace st ++ load_events st t /\
    http_calls st' = http_calls st.
Proof.
  intros Hgood Hc Hv. unfold download_tile. py_unfold.
  destruct (load_cached_tile_spec st t Hgood)
    as (st1 & -> & Hgood1 & Htr & Hh & _).
  rewrite Hc, Hv. simpl. eexists. split; [reflexivity|]. frame_done.
Qed.

Lemma download_tile_valid st t :
  valid_waits config world ->
  good st -> cached_tile st t = None ->
  validate_tile_coordinates (x t) (y t) (z t) = true ->
  0 <= Config.max_retries config ->
  exists r st' (f : nat),
    download_tile config world t st = (Ok r, st') /\ good st' /\
    Z.of_nat f <= Config.max_retries config /\
    trace st' = trace st ++ load_events st t
      ++ flat_map (failed_attempt_events config world (rng_calls st) t) (seq 0 f)
      ++ attempt_events config world (draw_before (rng_calls st) f) t (Z.of_nat f) /\
    http_calls st' = (http_calls st + f + 1)%nat /\
    tile_info r = t /\
    (success r = true /\ is_Some (image r) \/
     Z.of_nat f = Config.max_retries config /\ success r = false /\
     image r = None /\ error r = Some (exhausted_message config)).
Proof.
  intros Hwaits Hgood Hc Hv Hmax. unfold download_tile. py_unfold.
  destruct (load_cached_tile_spec st t Hgood)
    as (st1 & -> & Hgood1 & Htr & Hh & Hr & _).
  rewrite Hc, Hv. simpl. unfold range.
  replace (Config.max_retries config + 1 - 0)
    with (Z.of_nat (S (Z.to_nat (Config.max_retries config)))) by lia.
  destruct (download_attempts_spec (rng_calls st) t (clock st)
              (Z.to_nat (Config.max_retries config)) Hwaits 0%nat st1)
    as (ret & st2 & f & Hrun & Hgood2 & _ & Hf & Htr2 & Hh2 & Hret);
    [done | by rewrite Hr | lia |].
  change (Z.of_nat 0) with 0 in Hrun. rewrite Hrun.
  rewrite Nat.sub_0_r in Htr2, Hh2.
  destruct ret as [res|].
  - destruct Hret as (Hs & Ht & Him).
    eexists _, _, f. split; [reflexivity|]. simpl.
    rewrite Htr2, Htr, Hh2, Hh. frame_done. by left.
  - eexists _, _, f. split; [reflexivity|]. simpl.
    rewrite Htr2, Htr, Hh2, Hh. frame_done. by right.
Qed.

(** When the waits before a retry are durations, [download_tile] always
    returns a result for the tile it was given. *)
Lemma download_tile_total st t :
  valid_retry_waits config world ->
  good st ->
  exists r st',
    download_tile config world t st = (Ok r, st') /\ good st' /\ tile_info r = t.
Proof.
  intros Hwaits Hgood. destruct (cached_tile st t) as [img|] eqn:Hc.
  - destruct (download_tile_cached st t img Hgood Hc) as (st' & -> & ? & _).
    eexists _, _. done.
  - destruct (validate_tile_coordinates (x t) (y t) (z t)) eqn:Hv.
    + unfold download_tile. py_unfold.
      destruct (load_cached_tile_spec st t Hgood)
        as (st1 & -> & Hgood1 & _).
      rewrite Hc, Hv. simpl.
      destruct (download_attempts_total t (clock st)
                  (range 0 (Config.max_retries config + 1)) st1 Hwaits)
        as (ret & st2 & -> & Hgood2 & _ & Hret); [|done|].
      { apply Forall_forall. intros a Ha. apply elem_of_range in Ha. lia. }
      destruct ret as [res|].
      * destruct (Hret res eq_refl) as [_ Ht].
        eexists _, _. split; [reflexivity|]. done.
      * eexists _, _. split; [reflexivity|]. simpl. frame_done.
    + destruct (download_tile_invalid st t Hgood Hc Hv) as (st' & -> & ? & _).
      eexists _, _. done.
Qed.

(** ** [download_tiles] *)

Lemma download_tiles_step_spec total results i t st :
  valid_waits config world ->
  good st ->
  exists r st',
    download_tiles_step config world total results i t st
      = (Ok (results ++ [r]), st') /\
    good st' /\ tile_info r = t.
Proof.
  intros Hwaits Hgood. unfold download_tiles_step.
  unfold try_except, mbind, Py_bind, mret, Py_ret.
  destruct (download_tile_total st t (proj2 Hwaits) Hgood)
    as (r & st1 & -> & Hgood1 & Ht).
  destruct (i <? total).
  - rewrite add_random_delay_ok by apply Hwaits.
    eexists _, _. split; [reflexivity|]. simpl. frame_done.
  - eexists _, _. split; [reflexivity|]. done.
Qed.

Lemma download_tiles_loop_spec total tiles :
  valid_waits config world ->
  forall results i st,
    good st ->
    exists rs st',
      download_tiles_loop config world total results i tiles st
        = (Ok (results ++ rs), st') /\
      good st' /\ map tile_info rs = tiles.
Proof.
  intros Hwaits.
  induction tiles as [|t tiles IH]; intros results i st Hgood.
  - exists [], st. simpl. rewrite app_nil_r. done.
  - simpl. unfold mbind, Py_bind.
    destruct (download_tiles_step_spec total results i t st Hwaits Hgood)
      as (r & st1 & -> & Hgood1 & Ht).
    destruct (IH (results ++ [r]) (i + 1) st1 Hgood1)
      as (rs & st2 & -> & Hgood2 & Hrs).
    exists (r :: rs), st2. rewrite <- app_assoc. simpl.
    split_and!; [done | done | by rewrite Ht, Hrs].
Qed.

End WithWorld.

(** The draws of the worlds used as examples are the lower bound. *)
Lemma uniform_in_range_offline : uniform_in_range offline_world.
Proof. intros rng a b Hab. simpl. split; [apply Qle_refl | done]. Qed.

Lemma uniform_in_range_online : uniform_in_range online_world.
Proof. intros rng a b Hab. simpl. split; [apply Qle_refl | done]. Qed.

(** The waits of the example configuration are durations for up to 33
    retries: base 2, waits of 6 to 10 seconds, delays of 0.1 to 0.3. *)
Lemma valid_waits_test_config (max_retries : Z) (world : World) :
  uniform_in_range world -> max_retries <= 33 ->
  valid_waits (test_config max_retries) world.
Proof.
  intros Hu Hmax. apply valid_waits_of_ranges; try done.
  - simpl. eapply Qle_lt_trans.
    + apply nanoseconds_mono. apply Qplus_le_l.
      apply (Qpower_le_compat_l 2 max_retries 33); [lia | done].
    + unfold Qlt. vm_compute. reflexivity.
Qed.

End SyncDownloaderFacts.

Module SyncDownloaderClaims.
Import Downloader DownloaderSpec DownloaderFacts.
Import SyncDownloader SyncDownloaderSpec SyncDownloaderFacts.

(** C3 as stated fails: the tile (0, 0, 21) is out of bounds (zoom 21), but
    when the tile store holds a file under its name [download_tile] looks
    the tile up, finds it and returns success from cache. *)
Lemma C3_cache_before_validation_counterexample :
  ~ validates_before_cache (test_config 3) offline_world.
Proof.
  intros Hclaim.
  pose (t := create_tile_info (test_config 3) 0 0 21).
  pose (img := flat_tile (1, 2, 3)).
  pose (st := init {[ file_path t := mkBytes 100 (Some img) ]}).
  destruct (download_tile_cached (test_config 3) offline_world st t img)
    as (st' & Hrun & _).
  - apply good_init.
  - vm_compute. reflexivity.
  - destruct (Hclaim st t _ st' (good_init _) eq_refl Hrun) as [Hs _].
    discriminate Hs.
Qed.

(** C3 (as amended).  [download_tile] consults the tile cache first: the
    memory cache, then, on a miss, the tile store on disk.  For a coordinate
    out of bounds that is in neither, it returns a failure result naming the
    coordinate, with no request to the server, no wait and no retry; for one
    that is cached it returns the cached image as a success from cache.  In
    both cases the cache lookups are all that is observable. *)
Theorem C3_invalid_coordinate (config : Config.t) (world : World)
    (st : state) (t : TileInfo) :
  good st ->
  validate_tile_coordinates (x t) (y t) (z t) = false ->
  exists r st',
    download_tile config world t st = (Ok r, st') /\
    trace st' = trace st ++ load_events st t /\
    (forall e, e ∈ load_events st t ->
       e = EvCacheGet (key t) \/ e = EvPathExists (file_path t)) /\
    head (load_events st t) = Some (EvCacheGet (key t)) /\
    http_calls st' = http_calls st /\
    match cached_tile st t with
    | Some img => r = cached_result t img
    | None => r = invalid_result t
    end.
Proof.
  intros Hgood Hv.
  assert (forall e, e ∈ load_events st t ->
            e = EvCacheGet (key t) \/ e = EvPathExists (file_path t)) as Hev.
  { intros e. unfold load_events. destruct (_ !! _); set_solver. }
  assert (head (load_events st t) = Some (EvCacheGet (key t))) as Hhd.
  { unfold load_events. by destruct (_ !! _). }
  destruct (cached_tile st t) as [img|] eqn:Hc.
  - destruct (download_tile_cached config world st t img Hgood Hc)
      as (st' & Hrun & _ & Htr & Hh).
    eexists _, st'. split; [exact Hrun|]. done.
  - destruct (download_tile_invalid config world st t Hgood Hc Hv)
      as (st' & Hrun & _ & Htr & Hh).
    eexists _, st'. split; [exact Hrun|]. done.
Qed.

(** The tile (0, 0, 21) on a fresh downloader with an empty tile store. *)
Lemma C3_invalid_coordinate_witness :
  exists r st',
    download_tile (test_config 3) offline_world
      (create_tile_info (test_config 3) 0 0 21) (init ∅) = (Ok r, st') /\
    http_calls st' = 0%nat.
Proof.
  destruct (C3_invalid_coordinate (test_config 3) offline_world (init ∅)
              (create_tile_info (test_config 3) 0 0 21))
    as (r & st' & Hrun & _ & _ & _ & Hh & _).
  - apply good_init.
  - reflexivity.
  - exists r, st'. split; [exact Hrun | exact Hh].
Defined.

(** C5 as stated fails in its last part: when the only attempt ends in a
    connection error, the result does not carry that error but the fixed
    message that the download failed after 0 retries. *)
Lemma C5_final_error_counterexample :
  ~ carries_final_error (test_config 0) offline_world.
Proof.
  intros Hclaim.
  pose (t := create_tile_info (test_config 0) 1 1 1).
  pose (st1 := snd (load_cached_tile t (init ∅))).
  pose (st2 := snd (_download_with_retry (test_config 0) offline_world t 0 st1)).
  pose (out := download_tile (test_config 0) offline_world t (init ∅)).
  assert (exists r, out = (Ok r, snd out) /\
                    error r = Some "下载失败，已重试 0 次") as (r & Hrun & Herr).
  { destruct (download_tile_valid (test_config 0) offline_world (init ∅) t)
      as (r & st' & f & Hrun & _ & _ & _ & _ & _ & [[Hs _]|(_ & _ & _ & Herr)]).
    - apply valid_waits_test_config; [apply uniform_in_range_offline | lia].
    - apply good_init.
    - reflexivity.
    - reflexivity.
    - simpl. lia.
    - exfalso. subst out. vm_compute in Hrun. injection Hrun as <- _.
      discriminate Hs.
    - exists r. subst out. rewrite Hrun. done. }
  destruct (Hclaim (init ∅) t st1 (DownloadError "连接错误") st2 r (snd out))
    as [_ Herr'].
  - apply good_init.
  - reflexivity.
  - reflexivity.
  - subst st1. rewrite (surjective_pairing (load_cached_tile t (init ∅))) at 1.
    f_equal.
  - subst st2.
    rewrite (surjective_pairing
               (_download_with_retry (test_config 0) offline_world t 0 st1)) at 1.
    f_equal.
  - exact Hrun.
  - rewrite Herr in Herr'. discriminate Herr'.
Qed.

(** C5 (as amended).  Under a configuration whose waits are durations
    (each delay and each wait is one [time.sleep] takes, the backoff is in
    the range of the floats): for a valid, uncached coordinate and
    [max_retries >= 0], [download_tile] returns after [f + 1] requests with
    [f <= max_retries]: the attempts [0 .. f - 1] failed and each was
    followed by a wait of [backoff_base ** attempt] plus a draw from
    [retry_wait_range]; every attempt after the first begins with a draw
    from [request_interval_range].  Either attempt [f] succeeded, or
    [f = max_retries], all [max_retries + 1] attempts failed, and the result
    is a failure whose error is the fixed message naming the number of
    retries. *)
Theorem C5_retry_with_backoff (config : Config.t) (world : World)
    (st : state) (t : TileInfo) :
  valid_waits config world ->
  good st ->
  validate_tile_coordinates (x t) (y t) (z t) = true ->
  cached_tile st t = None ->
  0 <= Config.max_retries config ->
  exists r st' (f : nat),
    download_tile config world t st = (Ok r, st') /\
    Z.of_nat f <= Config.max_retries config /\
    Z.of_nat (http_calls st' - http_calls st) = Z.of_nat f + 1 /\
    Z.of_nat (http_calls st' - http_calls st) <= Config.max_retries config + 1 /\
    trace st' = trace st ++ load_events st t
      ++ flat_map (failed_attempt_events config world (rng_calls st) t) (seq 0 f)
      ++ attempt_events config world (draw_before (rng_calls st) f) t (Z.of_nat f) /\
    (forall i, (i < f)%nat ->
       exists rng,
         last (failed_attempt_events config world (rng_calls st) t i)
         = Some (EvSleep (Config.backoff_base config ^ Z.of_nat i
                          + uniform world rng
                              (fst (Config.retry_wait_range config))
                              (snd (Config.retry_wait_range config)))%Q)) /\
    (success r = true /\ is_Some (image r) \/
     Z.of_nat f = Config.max_retries config /\ success r = false /\
     image r = None /\
     error r = Some ("下载失败，已重试 " +:+ pretty (Config.max_retries config)
                     +:+ " 次")).
Proof.
  intros Hwaits Hgood Hv Hc Hmax.
  destruct (download_tile_valid config world st t Hwaits Hgood Hc Hv Hmax)
    as (r & st' & f & Hrun & _ & Hf & Htr & Hh & _ & Hres).
  exists r, st', f. split_and!; try done; try lia.
  intros i _. exists (rng_calls st + 2 * i)%nat.
  unfold failed_attempt_events. by rewrite last_snoc.
Qed.

(** Tile (1, 1, 1) with two retries against a server that cannot be
    reached: three requests, a wait of 2^0 + 6 and of 2^1 + 6 seconds after
    the first two, a delay of 0.1 seconds before the second and third. *)
Lemma C5_retry_with_backoff_witness :
  exists r st',
    download_tile (test_config 2) offline_world
      (create_tile_info (test_config 2) 1 1 1) (init ∅) = (Ok r, st') /\
    http_calls st' = 3%nat /\ success r = false.
Proof.
  destruct (C5_retry_with_backoff (test_config 2) offline_world (init ∅)
              (create_tile_info (test_config 2) 1 1 1))
    as (r & st' & f & Hrun & _).
  - apply valid_waits_test_config; [apply uniform_in_range_offline | lia].
  - apply good_init.
  - reflexivity.
  - reflexivity.
  - simpl. lia.
  - exists r, st'. split; [exact Hrun|].
    vm_compute in Hrun. injection Hrun as <- <-. split; reflexivity.
Defined.

Example retry_schedule_two_retries :
  let t := create_tile_info (test_config 2) 1 1 1 in
  trace (snd (download_tile (test_config 2) offline_world t (init ∅))) =
    [ EvCacheGet (1, 1, 1); EvPathExists (file_path t);
      EvHttpGet (url t); EvSleep (2 ^ 0 + 6)%Q;
      EvSleep (0.1)%Q; EvHttpGet (url t); EvSleep (2 ^ 1 + 6)%Q;
      EvSleep (0.1)%Q; EvHttpGet (url t) ].
Proof. vm_compute. reflexivity. Qed.



End SyncDownloaderClaims.

(* ===================================================================== *)
(** * DataProcessor: one mosaic per point with a tile                     *)
(* ===================================================================== *)

(** A reflexive and transitive relation on states that each statement
    keeps is kept by their composition. *)
Section Preserves.
Context {S : Type} (R : S -> S -> Prop) `{!Reflexive R} `{!Transitive R}.

Lemma preserves_ret {A} (a : A) : preserves R (mret a).
Proof. intros st r st' [= _ <-]. reflexivity. Qed.

Lemma preserves_raise {A} e : preserves R (@raise S A e).
Proof. intros st r st' [= _ <-]. reflexivity. Qed.

Lemma preserves_lift {A} (r : result A) : preserves R (lift r).
Proof. intros st r' st' [= _ <-]. reflexivity. Qed.

Lemma preserves_bind {A B} (m : Py S A) (k : A -> Py S B) :
  preserves R m -> (forall a, preserves R (k a)) -> preserves R (m ≫= k).
Proof.
  intros Hm Hk st r st'. unfold mbind, Py_bind.
  destruct (m st) as [[a|e] st1] eqn:Hrun; intros Hr.
  - etransitivity; [by eapply Hm | by eapply Hk].
  - injection Hr as _ <-. by eapply Hm.
Qed.

Lemma preserves_try {A} (body : Py S A) (handler : exn -> Py S A) :
  preserves R body -> (forall e, preserves R (handler e)) ->
  preserves R (try_except body handler).
Proof.
  intros Hb Hh st r st'. unfold try_except.
  destruct (body st) as [[a|e] st1] eqn:Hrun; intros Hr.
  - injection Hr as _ <-. by eapply Hb.
  - etransitivity; [by eapply Hb | by eapply Hh].
Qed.

End Preserves.

Module DataProcessorFacts.
Import DataProcessor DataProcessorSpec.
Section WithWorld.
Context (config : Config.t) (world : World) (downloader : downloader_object).
Context `{LibM} `{PIL}.

#[local] Instance same_point_counters_refl : Reflexive same_point_counters.
Proof. by intros st. Qed.

#[local] Instance same_point_counters_trans : Transitive same_point_counters.
Proof. intros a b c [? ?] [? ?]. split; congruence. Qed.

Lemma process_single_point_counters point i :
  preserves same_point_counters
    (_process_single_point config world downloader point i).
Proof.
  assert (forall k v, k ≠ successful_points -> k ≠ failed_points ->
            preserves same_point_counters (stats_add k v)) as Hadd.
  { intros k v H1 H2 st r st' [= _ <-]. split; simpl; by case_decide. }
  assert (forall A (m : Py Downloader.state A),
            preserves same_point_counters (on_downloader m)) as Hdl.
  { intros A m st r st'. unfold on_downloader.
    destruct (m (downloader_state st)) as [r' d]. by intros [= _ <-]. }
  unfold _process_single_point.
  apply (preserves_try same_point_counters);
    [|intros e; apply (preserves_ret same_point_counters)].
  apply (preserves_bind same_point_counters).
  { unfold _calculate_tiles_for_point.
    destruct (calculate_tiles_around_point downloader);
      [apply (preserves_lift same_point_counters)
      | apply (preserves_raise same_point_counters)]. }
  intros tiles. apply (preserves_bind same_point_counters); [by apply Hadd|].
  intros _. apply (preserves_bind same_point_counters); [apply Hdl|].
  intros results. apply (preserves_bind same_point_counters); [by apply Hadd|].
  intros _. apply (preserves_bind same_point_counters); [by apply Hadd|].
  intros _. destruct (_ =? 0); [apply (preserves_ret same_point_counters)|].
  apply (preserves_bind same_point_counters);
    [apply (preserves_lift same_point_counters)|].
  intros [img md].
  apply (preserves_bind same_point_counters).
  { unfold _save_image. apply (preserves_try same_point_counters).
    - intros st r st'. destruct (save_fails _ _); by intros [= _ <-].
    - intros e. apply (preserves_raise same_point_counters). }
  intros path. apply (preserves_bind same_point_counters).
  { unfold save_image_metadata. apply (preserves_try same_point_counters).
    - intros st r st'. destruct (save_fails _ _); by intros [= _ <-].
    - intros e. apply (preserves_raise same_point_counters). }
  intros path'. apply (preserves_ret same_point_counters).
Qed.

(** [_process_single_point] catches every exception. *)
Lemma process_single_point_total point i st :
  exists r st', _process_single_point config world downloader point i st = (Ok r, st').
Proof.
  unfold _process_single_point, try_except.
  match goal with |- context [match ?b st with _ => _ end] =>
    destruct (b st) as [[r|e] st1] end; eauto.
Qed.

(** A point without the downloader's tile computation fails at once. *)
Lemma process_single_point_no_method point i st :
  calculate_tiles_around_point downloader = None ->
  _process_single_point config world downloader point i st = (Ok None, st).
Proof. intros Hm. dp_unfold. by rewrite Hm. Qed.

(** ** The loop over the points *)

Lemma process_points_step_spec mds i point st :
  exists r st1 st',
    _process_single_point config world downloader point i st = (Ok r, st1) /\
    process_points_step config world downloader mds i point st
      = (Ok (counted r mds), st') /\
    stats st' successful_points
      = stats st successful_points + (if r is Some _ then 1 else 0) /\
    stats st' failed_points
      = stats st failed_points + (if r is Some _ then 0 else 1).
Proof.
  destruct (process_single_point_total point i st) as (r & st1 & Hrun).
  destruct (process_single_point_counters point i st _ _ Hrun) as [Hs Hf].
  exists r, st1. unfold process_points_step, try_except, mbind, Py_bind.
  rewrite Hrun. destruct r as [md|]; simpl.
  - eexists. split; [done|]. split; [reflexivity|]. simpl.
    rewrite Hs, Hf. split; lia.
  - eexists. split; [done|]. split; [reflexivity|]. simpl.
    rewrite Hs, Hf. split; lia.
Qed.

(** The loop never raises and counts every point once, as a success or as a
    failure. *)
Lemma process_points_loop_spec points :
  forall mds i st,
    exists mds' st',
      process_points_loop config world downloader mds i points st
        = (Ok (mds ++ mds'), st') /\
      stats st' successful_points
        = stats st successful_points + Z.of_nat (length mds') /\
      stats st' successful_points + stats st' failed_points
        = stats st successful_points + stats st failed_points
          + Z.of_nat (length points).
Proof.
  induction points as [|point points IH]; intros mds i st.
  - exists [], st. simpl. rewrite app_nil_r. split_and!; [done | lia | lia].
  - simpl. unfold mbind, Py_bind.
    destruct (process_points_step_spec mds i point st)
      as (r & st1 & st2 & _ & -> & Hs & Hf).
    destruct (IH (counted r mds) (i + 1) st2) as (mds' & st' & -> & Hs' & Hall).
    destruct r as [md|]; simpl in *.
    + exists (md :: mds'), st'. rewrite <- app_assoc. simpl.
      split_and!; [done | lia | lia].
    + exists mds', st'. split_and!; [done | lia | lia].
Qed.

End WithWorld.
End DataProcessorFacts.

Module DataProcessorClaims.
Import DataProcessor DataProcessorSpec DataProcessorFacts.



End DataProcessorClaims.

(* ===================================================================== *)
(** * TileCache: capacity edge, round trip and retention                  *)
(* ===================================================================== *)

Module TileCacheProperties.
Import TileCache TileCacheSpec TileCacheFacts.
Section WithImage.
Context {Image : Type}.
Implicit Types (c : TileCache.t Image) (k : Z * Z * Z) (img : Image).

(** A cache the methods can produce from [TileCache(N)], [N >= 1], is
    well-formed and within its capacity. *)
Lemma reachable_invariant N (ops : list (op Image)) c :
  1 <= N -> run ops (init N) = Ok c ->
  wf c /\ max_size c = N /\ Z.of_nat (size (_cache c)) <= N.
Proof.
  intros HN Hrun.
  destruct (run_invariant ops (init N)) as (c' & Hrun' & Hwf & Hmax & Hsz).
  - apply wf_init.
  - simpl. lia.
  - simpl. rewrite map_size_empty. lia.
  - rewrite Hrun in Hrun'. injection Hrun' as <-. by simpl in *.
Qed.

(** X1.  A [TileCache] whose capacity is zero or negative can hold nothing:
    the [put] of any key into the new cache raises [IndexError] (the
    capacity test passes on the empty cache and [pop(0)] finds the access
    order empty), and whatever run of [get], [put] and [clear] does not
    raise leaves the cache as it was created. *)
Theorem X1_nonpositive_capacity (N : Z) :
  N <= 0 ->
  (forall k img, put (init N) k img = Raise IndexError) /\
  (forall (ops : list (op Image)) c, run ops (init N) = Ok c -> c = init N).
Proof.
  intros HN.
  assert (forall k img, put (@init Image N) k img = Raise IndexError) as Hput.
  { intros k img. unfold put, init. simpl. rewrite lookup_empty, map_size_empty.
    destruct (Z.geb_spec (Z.of_nat 0) N) as [_|?]; [done | lia]. }
  split; [exact Hput|].
  induction ops as [|o ops IH]; intros c Hrun.
  - by injection Hrun as <-.
  - simpl in Hrun. destruct o as [k|k img|]; simpl in Hrun.
    + unfold get in Hrun. simpl in Hrun. rewrite lookup_empty in Hrun.
      simpl in Hrun. by apply IH.
    + by rewrite Hput in Hrun.
    + by apply IH.
Qed.

(** X2.  Round trip: on any cache the methods can produce from a capacity
    [N >= 1], a [put] succeeds and the [get] of the same key that follows
    returns the image just put, without changing the contents. *)
Theorem X2_put_then_get (N : Z) (ops : list (op Image)) c k img :
  1 <= N ->
  run ops (init N) = Ok c ->
  exists c1 c2,
    put c k img = Ok c1 /\
    get c1 k = Ok (Some img, c2) /\
    _cache c2 = _cache c1 /\
    last (_access_order c2) = Some k /\
    size_ c2 <= N.
Proof.
  intros HN Hrun.
  destruct (reachable_invariant N ops c HN Hrun) as (Hwf & Hmax & Hsz).
  destruct (put_total c k img Hwf) as (c1 & Hput & Hwf1 & Hmax1 & Hsz1 & Hk);
    [lia | lia |].
  exists c1. rewrite (get_hit c1 k img Hwf1 Hk). eexists. split_and!; try done.
  - simpl. by rewrite last_snoc.
  - unfold size_. simpl. lia.
Qed.

(** X3.  Below the capacity nothing is evicted: when the key is new and the
    cache holds fewer than [N] entries, [put] keeps every entry with its
    image, adds the new one and grows the cache by exactly one; the least
    recently used key stays in the cache. *)
Theorem X3_put_below_capacity (N : Z) (ops : list (op Image)) c k img :
  1 <= N ->
  run ops (init N) = Ok c ->
  _cache c !! k = None ->
  size_ c < N ->
  exists c1,
    put c k img = Ok c1 /\
    _cache c1 = <[k := img]> (_cache c) /\
    (forall k' img', _cache c !! k' = Some img' -> _cache c1 !! k' = Some img') /\
    size_ c1 = size_ c + 1 /\
    _access_order c1 = _access_order c ++ [k].
Proof.
  intros HN Hrun Hk Hsz.
  destruct (reachable_invariant N ops c HN Hrun) as (Hwf & Hmax & _).
  unfold size_ in *.
  rewrite (put_absent_room c k img Hk) by lia.
  eexists. split_and!; try done; simpl.
  - intros k' img' Hk'. rewrite lookup_insert_ne; [done|]. congruence.
  - rewrite map_size_insert_None by done. lia.
Qed.

End WithImage.

Lemma X1_nonpositive_capacity_witness :
  0 <= 0 /\ put (@init nat 0) (1, 2, 3) 7%nat = Raise IndexError.
Proof.
  split; [lia|]. apply (X1_nonpositive_capacity (Image := nat) 0). lia.
Defined.

Lemma X2_put_then_get_witness :
  1 <= 2 /\
  exists c1 c2 : TileCache.t nat,
    put (init 2) (1, 2, 3) 7%nat = Ok c1 /\ get c1 (1, 2, 3) = Ok (Some 7%nat, c2).
Proof.
  split; [lia|].
  destruct (X2_put_then_get (Image := nat) 2 [] (init 2) (1, 2, 3) 7%nat)
    as (c1 & c2 & Hput & Hget & _); [lia | reflexivity |].
  exists c1, c2. by split.
Defined.

Lemma X3_put_below_capacity_witness :
  1 <= 2 /\
  exists c1 : TileCache.t nat,
    put (init 2) (1, 2, 3) 7%nat = Ok c1 /\ size_ c1 = 1.
Proof.
  split; [lia|].
  destruct (X3_put_below_capacity (Image := nat) 2 [] (init 2) (1, 2, 3) 7%nat)
    as (c1 & Hput & _ & _ & Hsz & _); [lia | reflexivity | reflexivity | reflexivity |].
  exists c1. split; [exact Hput|]. exact Hsz.
Defined.

End TileCacheProperties.

(* ===================================================================== *)
(** * TileMerger: which tile a cell shows                                 *)
(* ===================================================================== *)

Module TileMergerProperties.
Import TileMerger TileMergerSpec TileMergerFacts.
Section WithPIL.
Context `{PIL}.

(** A result for another tile does not change what the map holds for [k]. *)
Lemma build_tile_map_other l1 r l2 k :
  coord r ≠ k ->
  build_tile_map (l1 ++ r :: l2) !! k = build_tile_map (l1 ++ l2) !! k.
Proof.
  intros Hne. induction l2 as [|r' l2 IH] using rev_ind.
  - rewrite app_nil_r, build_tile_map_snoc.
    destruct (success r), (image r); try done. by rewrite lookup_insert_ne.
  - rewrite app_comm_cons, !app_assoc, !build_tile_map_snoc.
    destruct (success r'), (image r'); try done.
    destruct (decide (coord r' = k)) as [->|Hk].
    + by rewrite !lookup_insert_eq.
    + by rewrite !lookup_insert_ne.
Qed.

(** A result that is not usable does not change the map. *)
Lemma build_tile_map_filter l :
  build_tile_map (filter usable l) = build_tile_map l.
Proof.
  induction l as [|r l IH] using rev_ind; [done|].
  rewrite filter_app, build_tile_map_snoc. simpl.
  rewrite filter_cons, filter_nil.
  destruct (decide (usable r)) as [[Hs [img Hi]]|Hn].
  - rewrite build_tile_map_snoc, Hs, Hi. by rewrite IH.
  - rewrite app_nil_r, IH. destruct (success r) eqn:Hs; [|done].
    destruct (image r) eqn:Hi; [|done]. destruct Hn. by split.
Qed.

(** The map holds for a tile the image of the last usable result for it. *)
Lemma build_tile_map_last l1 r l2 img :
  success r = true -> image r = Some img ->
  (forall r', r' ∈ l2 -> usable r' -> coord r' ≠ coord r) ->
  build_tile_map (l1 ++ r :: l2) !! coord r = Some img.
Proof.
  intros Hs Hi. induction l2 as [|r' l2 IH] using rev_ind; intros Hlater.
  - rewrite build_tile_map_snoc, Hs, Hi. by rewrite lookup_insert_eq.
  - rewrite app_comm_cons, app_assoc, build_tile_map_snoc.
    assert (build_tile_map (l1 ++ r :: l2) !! coord r = Some img) as IH'.
    { apply IH. intros r'' Hin. apply Hlater. set_solver. }
    destruct (success r') eqn:Hs'; [|done].
    destruct (image r') eqn:Hi'; [|done].
    rewrite lookup_insert_ne; [done|].
    apply Hlater; [set_solver|]. split; [done|by eexists].
Qed.

(** The loop reads the map at the tiles of its cells only. *)
Lemma merge_cells_ext m1 m2 sx sy cells st :
  (forall c, c ∈ cells -> m1 !! (sx + fst c, sy + snd c) = m2 !! (sx + fst c, sy + snd c)) ->
  merge_cells m1 sx sy cells st = merge_cells m2 sx sy cells st.
Proof.
  revert st. induction cells as [|c cells IH]; intros st Hagree; [done|].
  unfold merge_cells in *. simpl.
  assert (merge_cell m1 sx sy c.2 st c.1 = merge_cell m2 sx sy c.2 st c.1) as ->.
  { unfold merge_cell. rewrite (Hagree c) by set_solver. done. }
  apply IH. intros c' Hc'. apply Hagree. set_solver.
Qed.

(** Every cell is counted once: as pasted or as missing. *)
Lemma merge_cells_count tile_map sx sy cells st :
  successful_tiles (merge_cells tile_map sx sy cells st)
    + Z.of_nat (length (missing_tiles (merge_cells tile_map sx sy cells st)))
  = successful_tiles st + Z.of_nat (length (missing_tiles st))
    + Z.of_nat (length cells).
Proof.
  revert st. induction cells as [|c cells IH]; intros st.
  - unfold merge_cells. simpl. lia.
  - unfold merge_cells in *. simpl. rewrite IH. unfold merge_cell.
    destruct (tile_map !! _); simpl; rewrite ?length_app; simpl; lia.
Qed.

(** The tiles recorded as missing are those of cells without an image. *)
Lemma merge_cells_missing_inv tile_map sx sy cells st t :
  t ∈ missing_tiles (merge_cells tile_map sx sy cells st) ->
  t ∈ missing_tiles st \/
  exists c, c ∈ cells /\ t = (sx + fst c, sy + snd c) /\ tile_map !! t = None.
Proof.
  revert st. induction cells as [|c cells IH]; intros st Hin; [by left|].
  unfold merge_cells in *. simpl in Hin. apply IH in Hin as [Hin|(c' & ? & ? & ?)].
  - unfold merge_cell in Hin.
    destruct (tile_map !! (sx + c.1, sy + c.2)) eqn:Hc; simpl in Hin; [by left|].
    apply elem_of_app in Hin as [Hin|Hin]; [by left|].
    apply list_elem_of_singleton in Hin as ->. right. exists c. set_solver.
  - right. exists c'. set_solver.
Qed.

Lemma length_grid_cells grid_size :
  0 <= grid_size ->
  Z.of_nat (length (gy ← range 0 grid_size; gx ← range 0 grid_size; [(gx, gy)]))
  = grid_size * grid_size.
Proof.
  intros Hg.
  assert (forall (l : list Z) (f : Z -> list (Z * Z)) n,
            (forall v, length (f v) = n) -> length (l ≫= f) = (length l * n)%nat) as Hbind.
  { intros l f n Hf. induction l as [|v l IH]; simpl; [done|].
    rewrite length_app, Hf. unfold mbind in IH. rewrite IH. lia. }
  rewrite (Hbind _ _ (Z.to_nat grid_size)).
  - rewrite length_range. nia.
  - intros v. rewrite (Hbind _ _ 1%nat) by done. rewrite length_range. lia.
Qed.

(** The map holds nothing for a tile exactly when no usable result is for it. *)
Lemma build_tile_map_None l k :
  build_tile_map l !! k = None <-> (forall r, r ∈ l -> usable r -> coord r ≠ k).
Proof.
  induction l as [|r l IH] using rev_ind.
  - split; [|done]. intros _ r Hin. by apply elem_of_nil in Hin.
  - rewrite build_tile_map_snoc. split.
    + intros Hnone r' Hin Hu.
      apply elem_of_app in Hin as [Hin|Hin].
      * destruct (success r), (image r); try (by apply IH).
        destruct (decide (coord r = k)) as [Hk|Hk].
        -- by rewrite Hk, lookup_insert_eq in Hnone.
        -- rewrite lookup_insert_ne in Hnone by done. by apply IH.
      * apply list_elem_of_singleton in Hin as ->. destruct Hu as [Hs [img Hi]].
        rewrite Hs, Hi in Hnone. intros <-. by rewrite lookup_insert_eq in Hnone.
    + intros Hall.
      assert (build_tile_map l !! k = None) as Hl.
      { apply IH. intros r' Hin. apply Hall. set_solver. }
      destruct (success r) eqn:Hs; [|done]. destruct (image r) eqn:Hi; [|done].
      rewrite lookup_insert_ne; [done|].
      apply Hall; [set_solver|]. split; [done|by eexists].
Qed.

(** X4.  A grid cell shows the image of the last successful result for its
    tile: when a result with an image is for the tile of the cell
    [(grid_x, grid_y)] and no later usable result is for the same tile, the
    cell holds that image pixel for pixel (resized to 256 by 256 first when
    it has another size), whatever the results before it say, and the tile
    is not recorded as missing. *)
Theorem X4_cell_shows_last_tile (l1 : list DownloadResult) (r : DownloadResult)
    (l2 : list DownloadResult) (img : Image) (grid_size : Z) (center_tile : TileInfo)
    (grid_x grid_y : Z) :
  success r = true -> image r = Some img ->
  (forall r', r' ∈ l2 -> usable r' -> coord r' ≠ coord r) ->
  0 <= grid_x < grid_size -> 0 <= grid_y < grid_size ->
  coord r = (x center_tile - grid_size `div` 2 + grid_x,
             y center_tile - grid_size `div` 2 + grid_y) ->
  (forall i j, 0 <= i < 256 -> 0 <= j < 256 ->
     getpixel (merge_tiles (l1 ++ r :: l2) grid_size center_tile)
              (grid_x * 256 + i) (grid_y * 256 + j)
     = Some (pixels (fitted img) i j)) /\
  coord r ∉ missing_tiles (merge_tiles_state (l1 ++ r :: l2) grid_size center_tile).
Proof.
  intros Hs Hi Hlater Hgx Hgy Hcoord.
  pose proof (build_tile_map_last l1 r l2 img Hs Hi Hlater) as Hmap.
  split.
  - intros i j Hi' Hj'.
    pose proof (merge_tiles_pixel (l1 ++ r :: l2) grid_size center_tile
                  grid_x grid_y i j Hgx Hgy) as Hpx.
    unfold tile_size in Hpx. rewrite Hpx by done.
    unfold cell_image. rewrite <- Hcoord, Hmap. done.
  - rewrite merge_tiles_state_cells. intros Hin.
    apply merge_cells_missing_inv in Hin as [Hin|(c & _ & _ & Hnone)].
    + by apply elem_of_nil in Hin.
    + by rewrite Hmap in Hnone.
Qed.

(** X5.  Only successful results that carry an image take part in the
    mosaic: dropping every other result from the list changes neither the
    canvas nor the counts of pasted and missing tiles. *)
Theorem X5_unusable_results_ignored (results : list DownloadResult)
    (grid_size : Z) (center_tile : TileInfo) :
  merge_tiles (filter usable results) grid_size center_tile
    = merge_tiles results grid_size center_tile /\
  merge_tiles_state (filter usable results) grid_size center_tile
    = merge_tiles_state results grid_size center_tile.
Proof.
  unfold merge_tiles, merge_tiles_state. by rewrite build_tile_map_filter.
Qed.

(** X6.  A result for a tile outside the grid around the centre tile has no
    effect: with or without it the canvas and the counts are the same. *)
Theorem X6_tiles_outside_grid_ignored (l1 : list DownloadResult) (r : DownloadResult)
    (l2 : list DownloadResult) (grid_size : Z) (center_tile : TileInfo) :
  ~ in_window grid_size center_tile (coord r) ->
  merge_tiles (l1 ++ r :: l2) grid_size center_tile
    = merge_tiles (l1 ++ l2) grid_size center_tile /\
  merge_tiles_state (l1 ++ r :: l2) grid_size center_tile
    = merge_tiles_state (l1 ++ l2) grid_size center_tile.
Proof.
  intros Hout.
  assert (merge_tiles_state (l1 ++ r :: l2) grid_size center_tile
          = merge_tiles_state (l1 ++ l2) grid_size center_tile) as Heq.
  { rewrite !merge_tiles_state_cells. apply merge_cells_ext.
    intros [gx gy] Hc. apply elem_of_grid_cells in Hc. simpl.
    apply build_tile_map_other. intros Hr. apply Hout.
    unfold in_window. rewrite Hr. simpl. lia. }
  split; [|exact Heq]. unfold merge_tiles. by rewrite Heq.
Qed.

(** X7.  Every cell of the grid is accounted for once: the number of tiles
    pasted and the number recorded as missing add up to
    [grid_size * grid_size], and the tiles recorded as missing are exactly
    the tiles of the grid for which no successful result carries an image. *)
Theorem X7_cells_accounted (results : list DownloadResult)
    (grid_size : Z) (center_tile : TileInfo) :
  0 <= grid_size ->
  let final := merge_tiles_state results grid_size center_tile in
  successful_tiles final + Z.of_nat (length (missing_tiles final))
    = grid_size * grid_size /\
  (forall t, t ∈ missing_tiles final <->
     in_window grid_size center_tile t /\
     forall r, r ∈ results -> usable r -> coord r ≠ t).
Proof.
  intros Hg final. subst final. rewrite merge_tiles_state_cells. split.
  - rewrite merge_cells_count. simpl. rewrite length_grid_cells by done. lia.
  - intros t. rewrite <- build_tile_map_None. split.
    + intros Hin. apply merge_cells_missing_inv in Hin as [Hin|(c & Hc & -> & Hnone)].
      { by apply elem_of_nil in Hin. }
      destruct c as [gx gy]. apply elem_of_grid_cells in Hc.
      split; [|done]. unfold in_window. simpl. lia.
    + intros [[Hx Hy] Hnone]. destruct t as [tx ty]. simpl in *.
      set (sx := x center_tile - grid_size `div` 2) in *.
      set (sy := y center_tile - grid_size `div` 2) in *.
      replace (tx, ty) with (sx + fst (tx - sx, ty - sy), sy + snd (tx - sx, ty - sy))
        by (simpl; f_equal; lia).
      apply merge_cells_missing.
      * apply elem_of_grid_cells. lia.
      * simpl. replace (sx + (tx - sx)) with tx by lia.
        replace (sy + (ty - sy)) with ty by lia. done.
Qed.

End WithPIL.

Lemma X4_cell_shows_last_tile_witness :
  let r1 := ok_result (tile_at 10 10 18) (flat_tile (200, 0, 0)) in
  let r2 := ok_result (tile_at 10 10 18) (flat_tile (0, 200, 0)) in
  getpixel (merge_tiles (H := nearest_pil) [r1; r2] 3 (tile_at 10 10 18))
           (1 * 256 + 0) (1 * 256 + 0) = Some (0, 200, 0).
Proof.
  intros r1 r2.
  destruct (X4_cell_shows_last_tile (H := nearest_pil) [r1] r2 []
              (flat_tile (0, 200, 0)) 3 (tile_at 10 10 18) 1 1) as [Hpx _].
  - reflexivity.
  - reflexivity.
  - intros r' Hin. by apply elem_of_nil in Hin.
  - lia.
  - lia.
  - reflexivity.
  - pose proof (Hpx 0 0 ltac:(lia) ltac:(lia)) as Hp. exact Hp.
Defined.

Lemma X6_tiles_outside_grid_ignored_witness :
  let far := ok_result (tile_at 50 50 18) (flat_tile (200, 0, 0)) in
  ~ in_window 3 (tile_at 10 10 18) (coord far) /\
  merge_tiles (H := nearest_pil) [far] 3 (tile_at 10 10 18)
    = merge_tiles (H := nearest_pil) [] 3 (tile_at 10 10 18).
Proof.
  intros far.
  assert (~ in_window 3 (tile_at 10 10 18) (coord far)) as Hout.
  { unfold in_window, far, coord. simpl. change (3 `div` 2) with 1. lia. }
  split; [exact Hout|].
  apply (X6_tiles_outside_grid_ignored (H := nearest_pil) [] far [] 3
           (tile_at 10 10 18) Hout).
Defined.

Lemma X7_cells_accounted_witness :
  0 <= 3 /\
  let final := merge_tiles_state (H := nearest_pil) [] 3 (tile_at 10 10 18) in
  successful_tiles final + Z.of_nat (length (missing_tiles final)) = 3 * 3.
Proof.
  split; [lia|].
  apply (X7_cells_accounted (H := nearest_pil) [] 3 (tile_at 10 10 18)). lia.
Defined.

End TileMergerProperties.

(* ===================================================================== *)
(** * BaseDownloader: the tiles of a point in general                     *)
(* ===================================================================== *)

Module BaseDownloaderProperties.
Import Downloader BaseDownloader BaseDownloaderSpec BaseDownloaderFacts.
Section WithConfig.
Context (config : Config.t) `{Mercantile}.

(** One pass of the inner loop body: the tile is appended when it exists. *)
Lemma tiles_cell_char cx cy zoom dx tiles dy :
  0 <= zoom ->
  tiles_cell config cx cy zoom dx tiles dy
  = Ok (tiles ++ map (fun c => create_tile_info config (fst c) (snd c) zoom)
                     (filter (inside zoom) [(cx + dx, cy + dy)])).
Proof.
  intros Hz. unfold tiles_cell. rewrite py_lshift_1_nonneg by done. simpl.
  rewrite filter_cons, filter_nil. unfold inside at 1. simpl.
  destruct (decide _) as [Hin|Hout].
  - repeat (rewrite (proj2 (Z.leb_le _ _)) by lia).
    repeat (rewrite (proj2 (Z.ltb_lt _ _)) by lia). done.
  - rewrite app_nil_r.
    destruct (0 <=? cx + dx) eqn:H1; [|done].
    destruct (cx + dx <? 2 ^ zoom) eqn:H2; [|done].
    destruct (0 <=? cy + dy) eqn:H3; [|done].
    destruct (cy + dy <? 2 ^ zoom) eqn:H4; [|done].
    destruct Hout. lia.
Qed.

Lemma bind_singleton_map {A B} (f : A -> B) (l : list A) :
  (v ← l; [f v]) = map f l.
Proof. induction l as [|a l IH]; [done|]. simpl. unfold mbind in IH. by rewrite IH. Qed.

Lemma column_char cx cy zoom dx (l : list Z) tiles :
  0 <= zoom ->
  for_each (tiles_cell config cx cy zoom dx) l tiles
  = Ok (tiles ++ map (fun c => create_tile_info config (fst c) (snd c) zoom)
                     (filter (inside zoom) (map (fun dy => (cx + dx, cy + dy)) l))).
Proof.
  intros Hz. revert tiles. induction l as [|dy l IH]; intros tiles; simpl.
  - by rewrite app_nil_r.
  - rewrite tiles_cell_char by done. simpl. rewrite IH.
    rewrite (filter_cons _ (cx + dx, cy + dy)), filter_cons, filter_nil.
    destruct (decide (inside zoom (cx + dx, cy + dy))); simpl;
      by rewrite <- app_assoc.
Qed.

Lemma grid_char cx cy zoom (l l' : list Z) tiles :
  0 <= zoom ->
  for_each (fun tiles dx => for_each (tiles_cell config cx cy zoom dx) l' tiles) l tiles
  = Ok (tiles ++ map (fun c => create_tile_info config (fst c) (snd c) zoom)
                     (filter (inside zoom)
                        (dx ← l; dy ← l'; [(cx + dx, cy + dy)]))).
Proof.
  intros Hz. revert tiles. induction l as [|dx l IH]; intros tiles; simpl.
  - by rewrite app_nil_r.
  - rewrite column_char by done. simpl. rewrite IH.
    rewrite bind_singleton_map, filter_app, map_app. by rewrite <- app_assoc.
Qed.

(** [calculate_tiles_for_point] in closed form. *)
Lemma calculate_tiles_char lon lat zoom grid_size cx cy :
  mercantile_tile lon lat zoom = Ok (cx, cy) -> 0 <= zoom ->
  calculate_tiles_for_point config lon lat zoom grid_size
  = Ok (map (fun c => create_tile_info config (fst c) (snd c) zoom)
            (filter (inside zoom) (neighbourhood cx cy (grid_size `div` 2)))).
Proof.
  intros Hm Hz. unfold calculate_tiles_for_point. rewrite Hm. simpl.
  by rewrite grid_char.
Qed.

Lemma elem_of_neighbourhood_iff cx cy half c :
  c ∈ neighbourhood cx cy half <->
  cx - half <= fst c <= cx + half /\ cy - half <= snd c <= cy + half.
Proof.
  unfold neighbourhood. rewrite list_elem_of_bind. split.
  - intros (dx & Hc & Hdx). apply list_elem_of_bind in Hc as (dy & Hc & Hdy).
    apply list_elem_of_singleton in Hc as ->.
    apply elem_of_range in Hdx, Hdy. simpl. lia.
  - intros [Hx Hy]. exists (fst c - cx). split.
    + apply list_elem_of_bind. exists (snd c - cy). split.
      * destruct c as [a b]. simpl. apply list_elem_of_singleton. f_equal; lia.
      * apply elem_of_range. lia.
    + apply elem_of_range. lia.
Qed.

Lemma NoDup_neighbourhood cx cy half : NoDup (neighbourhood cx cy half).
Proof.
  unfold neighbourhood. apply NoDup_bind.
  - intros dx1 dx2 c _ _ H1 H2.
    apply list_elem_of_bind in H1 as (dy1 & H1 & _).
    apply list_elem_of_bind in H2 as (dy2 & H2 & _).
    apply list_elem_of_singleton in H1, H2. subst c. injection H2. lia.
  - intros dx _. apply NoDup_bind.
    + intros dy1 dy2 c _ _ H1 H2.
      apply list_elem_of_singleton in H1, H2. subst c. injection H2. lia.
    + intros dy _. apply NoDup_singleton.
    + apply NoDup_seqZ.
  - apply NoDup_seqZ.
Qed.

Lemma filter_Forall_id {A} (P : A -> Prop) `{!forall a, Decision (P a)} (l : list A) :
  Forall P l -> filter P l = l.
Proof.
  induction 1 as [|a l Ha _ IH]; [done|].
  rewrite filter_cons. destruct (decide (P a)); [|done]. by rewrite IH.
Qed.

(** X8.  [calculate_tiles_for_point] in closed form, for a zoom level that
    is not negative: it returns exactly the tiles of the square of
    [2 * (grid_size // 2) + 1] columns and rows around the centre tile that
    exist at the zoom level, each once, column by column, and each built by
    [create_tile_info].  Tiles beyond the edge of the map are left out
    silently. *)
Theorem X8_tiles_in_closed_form (lon lat : float) (zoom grid_size cx cy : Z) :
  mercantile_tile lon lat zoom = Ok (cx, cy) -> 0 <= zoom ->
  let half := grid_size `div` 2 in
  exists tiles,
    calculate_tiles_for_point config lon lat zoom grid_size = Ok tiles /\
    tiles = map (fun c => create_tile_info config (fst c) (snd c) zoom)
                (filter (inside zoom) (neighbourhood cx cy half)) /\
    NoDup (key <$> tiles) /\
    (forall tx ty,
       (tx, ty, zoom) ∈ (key <$> tiles) <->
       cx - half <= tx <= cx + half /\ cy - half <= ty <= cy + half /\
       0 <= tx < 2 ^ zoom /\ 0 <= ty < 2 ^ zoom) /\
    Forall (fun t => z t = zoom /\ t = create_tile_info config (x t) (y t) zoom) tiles.
Proof.
  intros Hm Hz half. eexists. split; [by apply calculate_tiles_char|].
  fold half. split; [done|].
  set (cells := filter (inside zoom) (neighbourhood cx cy half)).
  assert (key <$> map (fun c => create_tile_info config (fst c) (snd c) zoom) cells
          = (fun c : Z * Z => (fst c, snd c, zoom)) <$> cells) as Hkeys.
  { generalize cells. intros l. induction l as [|c l IH]; [done|].
    cbn. by rewrite <- IH. }
  rewrite Hkeys. split_and!.
  - apply NoDup_fmap_2.
    + intros [a b] [a' b'] [= -> ->]. done.
    + apply NoDup_filter, NoDup_neighbourhood.
  - intros tx ty. rewrite list_elem_of_fmap. split.
    + intros ([a b] & [= -> ->] & Hin). simpl.
      apply list_elem_of_filter in Hin as [[Hx Hy] Hin].
      apply elem_of_neighbourhood_iff in Hin. simpl in *. lia.
    + intros (Hx & Hy & Hx' & Hy'). exists (tx, ty). split; [done|].
      apply list_elem_of_filter. split; [split; simpl; lia|].
      apply elem_of_neighbourhood_iff. simpl. lia.
  - apply Forall_forall. intros t Hin.
    apply list_elem_of_In, in_map_iff in Hin as (c & <- & _). done.
Qed.

(** X9.  Degenerate arguments.  [mercantile.tile] is called first, with
    nothing around it: when it raises, as the package does for a zoom level
    it refuses, the method raises the same exception and no tile is
    computed.  When it returns and [grid_size] is negative, both loops are
    empty and the method returns no tile.  A [grid_size] of 0 gives what a
    [grid_size] of 1 gives: the window of the centre tile alone. *)
Theorem X9_degenerate_arguments (lon lat : float) (zoom grid_size : Z) :
  (forall e, mercantile_tile lon lat zoom = Raise e ->
     calculate_tiles_for_point config lon lat zoom grid_size = Raise e) /\
  (forall cx cy, mercantile_tile lon lat zoom = Ok (cx, cy) -> grid_size < 0 ->
     calculate_tiles_for_point config lon lat zoom grid_size = Ok []) /\
  calculate_tiles_for_point config lon lat zoom 0
  = calculate_tiles_for_point config lon lat zoom 1.
Proof.
  unfold calculate_tiles_for_point. split_and!.
  - by intros e ->.
  - intros cx cy -> Hg. simpl.
    assert (grid_size `div` 2 < 0) as Hh by (apply Z.div_lt_upper_bound; lia).
    unfold range. rewrite seqZ_nil by lia. done.
  - done.
Qed.

(** X10.  For an even [grid_size] the square has [grid_size + 1] columns
    and rows, not [grid_size]: when it lies inside the map the method
    returns [(grid_size + 1) * (grid_size + 1)] tiles.  The last column and
    row are computed although they lie outside the [grid_size] by
    [grid_size] grid that [merge_tiles] assembles around the same centre. *)
Theorem X10_even_grid_size (lon lat : float) (zoom grid_size cx cy : Z) :
  mercantile_tile lon lat zoom = Ok (cx, cy) -> 0 <= zoom ->
  Z.even grid_size = true -> 0 <= grid_size ->
  let half := grid_size `div` 2 in
  0 <= cx - half -> cx + half < 2 ^ zoom ->
  0 <= cy - half -> cy + half < 2 ^ zoom ->
  exists tiles,
    calculate_tiles_for_point config lon lat zoom grid_size = Ok tiles /\
    Z.of_nat (length tiles) = (grid_size + 1) * (grid_size + 1) /\
    create_tile_info config (cx + half) (cy + half) zoom ∈ tiles /\
    ~ in_window grid_size (mkTileInfo cx cy zoom "" "") (cx + half, cy + half).
Proof.
  intros Hm Hz Heven Hg half Hx0 Hx1 Hy0 Hy1.
  assert (grid_size = 2 * half) as Hgrid.
  { subst half. rewrite (Z.div_mod grid_size 2) at 1 by lia.
    rewrite <- Z.bit0_mod, Z.bit0_odd, <- Z.negb_even, Heven. simpl. lia. }
  assert (0 <= half) as Hh by lia.
  eexists. split; [by apply calculate_tiles_char|]. fold half.
  rewrite filter_Forall_id.
  2:{ apply Forall_forall. intros c Hc. apply elem_of_neighbourhood_iff in Hc.
      unfold inside. lia. }
  split_and!.
  - rewrite length_map, length_neighbourhood by done. rewrite Hgrid. nia.
  - apply list_elem_of_In, in_map_iff. exists (cx + half, cy + half).
    split; [done|]. apply list_elem_of_In, elem_of_neighbourhood_iff. simpl. lia.
  - unfold in_window. simpl. fold half. lia.
Qed.

(** X11.  The tiles computed for a point are those [download_tile] accepts:
    at a zoom level from 0 to 20 every tile that
    [calculate_tiles_for_point] returns passes
    [validate_tile_coordinates]; above 20 every one fails it, so that none
    can be downloaded. *)
Theorem X11_tiles_and_validation (lon lat : float) (zoom grid_size : Z)
    (tiles : list TileInfo) :
  calculate_tiles_for_point config lon lat zoom grid_size = Ok tiles ->
  0 <= zoom ->
  Forall (fun t => validate_tile_coordinates (x t) (y t) (z t)
                   = bool_decide (zoom <= 20)) tiles.
Proof.
  intros Hcalc Hz.
  destruct (mercantile_tile lon lat zoom) as [[cx cy]|e] eqn:Hm.
  2:{ unfold calculate_tiles_for_point in Hcalc. by rewrite Hm in Hcalc. }
  rewrite (calculate_tiles_char _ _ _ _ _ _ Hm Hz) in Hcalc. injection Hcalc as <-.
  apply Forall_forall. intros t Hin.
  apply list_elem_of_In, in_map_iff in Hin as ([tx ty] & <- & Hin).
  apply list_elem_of_In, list_elem_of_filter in Hin as [[Hx Hy] _]. simpl in *.
  unfold validate_tile_coordinates. rewrite Z.shiftl_1_l.
  rewrite (proj2 (Z.ltb_ge _ _)) by lia. simpl.
  case_bool_decide.
  - rewrite (proj2 (Z.ltb_ge _ _)) by lia.
    repeat (rewrite (proj2 (Z.leb_le _ _)) by lia).
    repeat (rewrite (proj2 (Z.ltb_lt _ _)) by lia). done.
  - by rewrite (proj2 (Z.ltb_lt _ _)) by lia.
Qed.

End WithConfig.

(** At the upper left corner of the map a 3 x 3 grid has four tiles. *)
Lemma X8_tiles_in_closed_form_witness :
  exists tiles,
    calculate_tiles_for_point (test_config 3) (H := mercantile_at 0 0) 0 0 5 3
      = Ok tiles /\
    key <$> tiles = [(0, 0, 5); (0, 1, 5); (1, 0, 5); (1, 1, 5)].
Proof.
  destruct (X8_tiles_in_closed_form (test_config 3) (H := mercantile_at 0 0)
              0 0 5 3 0 0) as (tiles & Hcalc & Htiles & _).
  - reflexivity.
  - lia.
  - exists tiles. split; [exact Hcalc|]. rewrite Htiles. reflexivity.
Defined.

Lemma X9_degenerate_arguments_witness :
  calculate_tiles_for_point (test_config 3) (H := mercantile_checked 10 10) 0 0 5 (-1)
    = Ok [] /\
  calculate_tiles_for_point (test_config 3) (H := mercantile_checked 10 10) 0 0 (-1) 3
    = Raise (LibraryError "mercantile.InvalidZoomError"
                          "zoom must be a positive integer").
Proof.
  destruct (X9_degenerate_arguments (test_config 3) (H := mercantile_checked 10 10)
              0 0 5 (-1)) as (_ & Hneg & _).
  destruct (X9_degenerate_arguments (test_config 3) (H := mercantile_checked 10 10)
              0 0 (-1) 3) as (Hraise & _).
  split; [apply (Hneg 10 10); [reflexivity | lia] | apply Hraise; reflexivity].
Defined.

Lemma X10_even_grid_size_witness :
  exists tiles,
    calculate_tiles_for_point (test_config 3) (H := mercantile_at 10 10) 0 0 5 2
      = Ok tiles /\
    Z.of_nat (length tiles) = (2 + 1) * (2 + 1).
Proof.
  destruct (X10_even_grid_size (test_config 3) (H := mercantile_at 10 10)
              0 0 5 2 10 10) as (tiles & Hcalc & Hlen & _).
  - reflexivity.
  - lia.
  - reflexivity.
  - lia.
  - change (2 `div` 2) with 1. lia.
  - change (2 `div` 2) with 1. change (2 ^ 5) with 32. lia.
  - change (2 `div` 2) with 1. lia.
  - change (2 `div` 2) with 1. change (2 ^ 5) with 32. lia.
  - exists tiles. split; [exact Hcalc | exact Hlen].
Defined.

Lemma X11_tiles_and_validation_witness :
  exists tiles,
    calculate_tiles_for_point (test_config 3) (H := mercantile_at 10 10) 0 0 5 3
      = Ok tiles /\
    Forall (fun t => validate_tile_coordinates (x t) (y t) (z t) = true) tiles.
Proof.
  eexists. split; [reflexivity|].
  apply (X11_tiles_and_validation (test_config 3) (H := mercantile_at 10 10) 0 0 5 3).
  - reflexivity.
  - lia.
Defined.

End BaseDownloaderProperties.

(* ===================================================================== *)
(** * The names of tiles and of output files                              *)
(* ===================================================================== *)

Module NameProperties.
Import Downloader DataProcessor DataProcessorSpec.

Lemma append_cons a s r : String a s +:+ r = String a (s +:+ r).
Proof. done. Qed.
Lemma append_nil r : "" +:+ r = r.
Proof. done. Qed.

Lemma numeral_go (x : N) s : numeral s = true -> numeral (pretty_N_go x s) = true.
Proof.
  revert s. induction (N.lt_wf_0 x) as [x _ IH]; intros s Hs.
  assert (x = 0 ∨ 0 < x)%N as [->|?] by lia; [by rewrite pretty_N_go_0|].
  rewrite pretty_N_go_step by done. apply IH; [by apply N.div_lt|].
  simpl. rewrite Hs, andb_true_r. unfold pretty_N_char. by repeat case_match.
Qed.

Lemma numeral_positive (p : positive) : numeral (pretty p) = true.
Proof.
  unfold pretty, pretty_positive, pretty, pretty_N.
  destruct (decide (N.pos p = 0%N)); [done|]. by apply numeral_go.
Qed.

Lemma numeral_pretty (n : Z) : numeral (pretty n) = true.
Proof.
  destruct n as [|p|p]; unfold pretty, pretty_Z; [done|apply numeral_positive|].
  rewrite append_cons, append_nil. simpl. apply numeral_positive.
Qed.

Lemma numeral_split (d : Ascii.ascii) (s1 s2 r1 r2 : string) :
  numeral_char d = false -> numeral s1 = true -> numeral s2 = true ->
  s1 +:+ String d r1 = s2 +:+ String d r2 -> s1 = s2 /\ r1 = r2.
Proof.
  intros Hd. revert s2. induction s1 as [|a s1 IH]; intros [|b s2] H1 H2 Heq;
    simpl in *.
  - by injection Heq as ->.
  - injection Heq as <- _. apply andb_prop in H2 as [H2 _]. congruence.
  - injection Heq as -> _. apply andb_prop in H1 as [H1 _]. congruence.
  - injection Heq as -> Heq. apply andb_prop in H1 as [_ H1], H2 as [_ H2].
    destruct (IH s2 H1 H2 Heq) as [-> ->]. done.
Qed.

Lemma zeros_S k : zeros (S k) = "0" +:+ zeros k.
Proof. unfold zeros. destruct k; done. Qed.

Lemma pretty_N_char_head (x : N) :
  (0 < x)%N -> (x < 10)%N -> occurs (pretty_N_char x) "0-" = false.
Proof.
  intros Hpos Hlt. destruct x as [|p]; [lia|].
  do 4 (destruct p as [p|p|]; try done; try lia).
Qed.

Lemma pretty_N_go_head (x : N) s :
  (0 < x)%N ->
  exists a r, pretty_N_go x s = String a r /\ occurs a "0-" = false.
Proof.
  revert s. induction (N.lt_wf_0 x) as [x _ IH]; intros s Hx.
  rewrite pretty_N_go_step by done.
  destruct (N.eq_0_gt_0_cases (x `div` 10)) as [Hq|Hq].
  - rewrite Hq, pretty_N_go_0. eexists _, _. split; [done|].
    apply N.div_small_iff in Hq; [|done].
    rewrite N.mod_small by done. by apply pretty_N_char_head.
  - apply IH; [by apply N.div_lt|done].
Qed.

(** The numeral of a number that is not negative: the single digit 0, or a
    digit other than 0 followed by more. *)
Lemma pretty_nonneg_head (n : Z) :
  0 <= n ->
  n = 0 /\ pretty n = "0" \/
  exists a r, pretty n = String a r /\ occurs a "0-" = false.
Proof.
  intros Hn. destruct n as [|p|p]; [by left| |lia]. right.
  unfold pretty, pretty_Z, pretty, pretty_positive, pretty, pretty_N.
  destruct (decide (N.pos p = 0%N)); [done|]. apply pretty_N_go_head. lia.
Qed.

Lemma zeros_strip m n p q :
  zeros m +:+ p = zeros n +:+ q -> (m <= n)%nat -> p = zeros (n - m) +:+ q.
Proof.
  revert n. induction m as [|m IH]; intros n Heq Hle.
  - by rewrite Nat.sub_0_r.
  - destruct n as [|n]; [lia|]. rewrite !zeros_S, !append_cons, !append_nil in Heq.
    injection Heq as Heq. apply IH; [done|lia].
Qed.

Lemma zfill_inj w a b :
  0 <= a -> 0 <= b -> zfill w (pretty a) = zfill w (pretty b) -> a = b.
Proof.
  assert (forall m n a b, 0 <= a -> 0 <= b -> (m < n)%nat ->
            pretty a <> zeros (n - m) +:+ pretty b) as Hlt.
  { intros m n a' b' Ha Hb Hmn Heq.
    replace (n - m)%nat with (S (n - m - 1)) in Heq by lia.
    rewrite zeros_S, append_cons, append_nil in Heq.
    destruct (pretty_nonneg_head a' Ha) as [[-> Hp]|(c & r & Hp & Hc)];
      rewrite Hp in Heq.
    - injection Heq as Heq.
      destruct (pretty_nonneg_head b' Hb) as [[-> Hq]|(c & r & Hq & _)];
        rewrite Hq in Heq; destruct (n - m - 1)%nat; try done;
        by rewrite zeros_S in Heq.
    - injection Heq as -> _. done. }
  intros Ha Hb Heq. unfold zfill in Heq. fold (zeros (w - String.length (pretty a))) in Heq.
  fold (zeros (w - String.length (pretty b))) in Heq.
  set (m := (w - String.length (pretty a))%nat) in *.
  set (n := (w - String.length (pretty b))%nat) in *.
  destruct (lt_eq_lt_dec m n) as [[Hmn|Hmn]|Hmn].
  - apply zeros_strip in Heq; [|lia]. by destruct (Hlt m n a b).
  - rewrite Hmn in Heq. apply (inj _) in Heq. by apply (inj _) in Heq.
  - symmetry in Heq. apply zeros_strip in Heq; [|lia]. by destruct (Hlt n m b a).
Qed.

Lemma zfill_head w b :
  0 <= b -> exists a r, zfill w (pretty b) = String a r /\ occurs a "-" = false.
Proof.
  intros Hb. unfold zfill. fold (zeros (w - String.length (pretty b))).
  destruct (w - String.length (pretty b))%nat as [|k].
  - destruct (pretty_nonneg_head b Hb) as [[-> Hq]|(c & r & Hq & Hc)]; rewrite Hq.
    + by eexists _, _.
    + eexists _, _. split; [done|]. simpl in *. by apply orb_false_elim in Hc as [_ ->].
  - rewrite zeros_S. by eexists _, _.
Qed.

Lemma format_06d_inj i j : format_06d i = format_06d j -> i = j.
Proof.
  unfold format_06d.
  destruct (Z.ltb_spec i 0) as [Hi|Hi], (Z.ltb_spec j 0) as [Hj|Hj]; intros Heq.
  - apply (inj _) in Heq. apply zfill_inj in Heq; lia.
  - destruct (zfill_head 6 j Hj) as (a & r & Hz & Ha). rewrite Hz in Heq.
    injection Heq as <- _. done.
  - destruct (zfill_head 6 i Hi) as (a & r & Hz & Ha). rewrite Hz in Heq.
    injection Heq as -> _. done.
  - by apply zfill_inj in Heq.
Qed.

Lemma numeral_app s r : numeral (s +:+ r) = numeral s && numeral r.
Proof.
  induction s as [|a s IH]; [done|]. rewrite append_cons. simpl.
  by rewrite IH, andb_assoc.
Qed.

Lemma numeral_zeros k : numeral (zeros k) = true.
Proof. induction k as [|k IH]; [done|]. by rewrite zeros_S, numeral_app, IH. Qed.

Lemma numeral_format_06d n : numeral (format_06d n) = true.
Proof.
  unfold format_06d, zfill.
  destruct (n <? 0); rewrite ?numeral_app; fold (zeros (5 - String.length (pretty (- n))));
    fold (zeros (6 - String.length (pretty n)));
    by rewrite numeral_zeros, numeral_pretty.
Qed.

(** X12.  Tile names do not collide: for one configuration, two tiles get
    the same cache file path from [generate_tile_path] only when they have
    the same [x], [y] and [z], and likewise the same URL from
    [generate_tile_url]. *)
Theorem X12_tile_names_injective (config : Config.t) (x1 y1 z1 x2 y2 z2 : Z) :
  (generate_tile_path config x1 y1 z1 = generate_tile_path config x2 y2 z2 ->
   (x1, y1, z1) = (x2, y2, z2)) /\
  (generate_tile_url config x1 y1 z1 = generate_tile_url config x2 y2 z2 ->
   (x1, y1, z1) = (x2, y2, z2)).
Proof.
  split; intros Heq.
  - unfold generate_tile_path in Heq. do 3 apply (inj _) in Heq.
    rewrite !append_cons, !append_nil in Heq.
    apply numeral_split in Heq as [Hz Heq]; [|done|apply numeral_pretty..].
    apply numeral_split in Heq as [Hx Heq]; [|done|apply numeral_pretty..].
    apply numeral_split in Heq as [Hy _]; [|done|apply numeral_pretty..].
    apply (inj _) in Hx, Hy, Hz. by subst.
  - unfold generate_tile_url in Heq. do 2 apply (inj _) in Heq.
    rewrite !append_cons, !append_nil in Heq.
    apply numeral_split in Heq as [Hx Heq]; [|done|apply numeral_pretty..].
    injection Heq as Heq.
    apply numeral_split in Heq as [Hy Heq]; [|done|apply numeral_pretty..].
    injection Heq as Heq.
    apply (inj _) in Hx, Hy, Heq. by subst.
Qed.

(** X13.  Output names do not collide: when [_save_image] returns the same
    path for two point indices, the indices are equal, and likewise for the
    metadata file of [save_image_metadata]; the six-digit zero padding of
    the index loses nothing, also for indices of more than six digits and
    for negative ones. *)
Theorem X13_output_names_injective (config : Config.t) (world : World)
    (i j : Z) (path : string) :
  (forall img1 img2 st1 st2 st1' st2',
     _save_image config world img1 i st1 = (Ok path, st1') ->
     _save_image config world img2 j st2 = (Ok path, st2') -> i = j) /\
  (forall md1 md2 st1 st2 st1' st2',
     save_image_metadata config world md1 i st1 = (Ok path, st1') ->
     save_image_metadata config world md2 j st2 = (Ok path, st2') -> i = j).
Proof.
  split.
  - intros img1 img2 st1 st2 st1' st2' H1 H2.
    unfold _save_image, try_except, raise in H1, H2.
    destruct (save_fails world _) in H1; [done|].
    destruct (save_fails world _) in H2; [done|].
    injection H1 as H1 _. injection H2 as H2 _. rewrite <- H2 in H1.
    do 3 apply (inj _) in H1.
    apply numeral_split in H1 as [H1 _]; [|done|apply numeral_format_06d..].
    by apply format_06d_inj.
  - intros md1 md2 st1 st2 st1' st2' H1 H2.
    unfold save_image_metadata, try_except, raise in H1, H2.
    destruct (save_fails world _) in H1; [done|].
    destruct (save_fails world _) in H2; [done|].
    injection H1 as H1 _. injection H2 as H2 _. rewrite <- H2 in H1.
    do 3 apply (inj _) in H1.
    apply numeral_split in H1 as [H1 _]; [|done|apply numeral_format_06d..].
    by apply format_06d_inj.
Qed.

(** The separators keep [x = 12, y = 3] apart from [x = 1, y = 23]. *)
Lemma X12_tile_names_injective_witness :
  generate_tile_path (test_config 3) 12 3 5 <> generate_tile_path (test_config 3) 1 23 5.
Proof.
  intros Heq.
  apply (proj1 (X12_tile_names_injective (test_config 3) 12 3 5 1 23 5)) in Heq.
  discriminate Heq.
Defined.

(** Index 1 and index 1000001 get different files. *)
Lemma X13_output_names_injective_witness :
  image_path point_config 1 <> image_path point_config 1000001.
Proof.
  intros Heq.
  destruct (X13_output_names_injective point_config online_world 1 1000001
              (image_path point_config 1)) as [Himg _].
  assert (1 = 1000001) as Habs; [|discriminate Habs].
  eapply (Himg (flat_tile (9, 9, 9)) (flat_tile (9, 9, 9)) (init ∅) (init ∅)).
  - reflexivity.
  - rewrite Heq. reflexivity.
Defined.

End NameProperties.

(* ===================================================================== *)
(** * The downloader: what the cache and the statistics record            *)
(* ===================================================================== *)

Module DownloaderProperties.
Import Downloader DownloaderSpec DownloaderFacts DownloaderStatistics.

(** [load_cached_tile] in full: what it returns, what it counts and what
    the memory cache holds afterwards. *)
Lemma load_cached_tile_effect st t :
  good st ->
  exists st',
    load_cached_tile t st = (Ok (cached_tile st t), st') /\
    good st' /\
    trace st' = trace st ++ load_events st t /\
    http_calls st' = http_calls st /\ rng_calls st' = rng_calls st /\
    clock st' = clock st /\ disk st' = disk st /\
    (forall k, monitor st' k =
       monitor st k +
       (if decide (k = (if cached_tile st t is Some _ then cache_hits else cache_misses))
        then 1 else 0)) /\
    match cached_tile st t with
    | Some img => TileCache._cache (cache st') !! key t = Some img
    | None => TileCache._cache (cache st') = TileCache._cache (cache st)
    end.
Proof.
  intros Hgood. unfold load_cached_tile, cached_tile, load_events.
  destruct (cache_get_spec st (key t) Hgood) as (c & Hget & Hwf & HN & Hc).
  assert (good (set_cache c (emit (EvCacheGet (key t)) st))) as Hgood1.
  { destruct Hgood as (_ & ? & ?). unfold good. simpl. rewrite HN, Hc. done. }
  py_unfold. rewrite Hget.
  destruct (TileCache._cache (cache st) !! key t) as [img|] eqn:Hk.
  - eexists. split; [reflexivity|]. simpl. split_and!; try done.
    + intros k. destruct (decide (k = cache_hits)); lia.
    + by rewrite Hc.
  - simpl. destruct (disk st !! file_path t) as [data|] eqn:Hd; simpl.
    + rewrite Hd.
      destruct (bytes_image data) as [img|] eqn:Hi; simpl.
      * match goal with |- context [cache_put ?k ?i ?s] =>
          destruct (cache_put_spec s k i) as (c' & -> & Hgood' & Hput) end.
        { destruct Hgood1 as (? & ? & ?). unfold good. simpl in *. done. }
        eexists. split; [reflexivity|]. simpl. frame_done.
        intros k. destruct (decide (k = cache_hits)); lia.
      * eexists. split; [reflexivity|]. simpl. frame_done.
        intros k. destruct (decide (k = cache_misses)); lia.
    + eexists. split; [reflexivity|]. simpl. frame_done.
      intros k. destruct (decide (k = cache_misses)); lia.
Qed.

(** [save_tile] in full. *)
Lemma save_tile_effect (world : World) st t img :
  good st ->
  exists r st',
    save_tile world t img st = (r, st') /\ good st' /\
    trace st' = trace st /\ http_calls st' = http_calls st /\
    rng_calls st' = rng_calls st /\ clock st' = clock st /\
    if save_fails world (file_path t) then
      r = Raise (DownloadError ("保存瓦片失败: " +:+ file_path t
                                +:+ ", 错误: cannot write file")) /\
      st' = st
    else
      r = Ok tt /\
      disk st' = <[file_path t := mkBytes (png_size world img) (Some img)]> (disk st) /\
      TileCache._cache (cache st') !! key t = Some img /\
      (forall k, monitor st' k =
         monitor st k + (if decide (k = total_bytes) then png_size world img else 0)).
Proof.
  intros Hgood. unfold save_tile. py_unfold.
  destruct (save_fails world (file_path t)) eqn:Hsave.
  - eexists _, _. split; [reflexivity|]. frame_done.
  - match goal with |- context [cache_put ?k ?i ?s] =>
      destruct (cache_put_spec s k i) as (c' & -> & Hgood' & Hput) end.
    { destruct Hgood as (? & ? & ?). unfold good. simpl in *. done. }
    simpl. rewrite lookup_insert_eq. simpl.
    eexists _, _. split; [reflexivity|]. simpl. frame_done.
    intros k. destruct (decide (k = total_bytes)); lia.
Qed.

(** X14.  [load_cached_tile] never raises and counts every call exactly
    once: [cache_hits] grows by one when it returns an image, from memory or
    from a file, and [cache_misses] by one when it returns [None]; no other
    counter changes, no request is made, the clock and the tile store stay
    as they were. *)
Theorem X14_load_counts_once (st : state) (t : TileInfo) :
  good st ->
  exists r st',
    load_cached_tile t st = (Ok r, st') /\ good st' /\
    monitor st' cache_hits
      = monitor st cache_hits + (if r is Some _ then 1 else 0) /\
    monitor st' cache_misses
      = monitor st cache_misses + (if r is Some _ then 0 else 1) /\
    (forall k, k <> cache_hits -> k <> cache_misses -> monitor st' k = monitor st k) /\
    http_calls st' = http_calls st /\ clock st' = clock st /\ disk st' = disk st.
Proof.
  intros Hgood.
  destruct (load_cached_tile_effect st t Hgood)
    as (st' & Hrun & Hgood' & _ & Hh & _ & Hc & Hd & Hm & _).
  exists (cached_tile st t), st'. split_and!; try done.
  - rewrite Hm. destruct (cached_tile st t); simpl; lia.
  - rewrite Hm. destruct (cached_tile st t); simpl; lia.
  - intros k H1 H2. rewrite Hm.
    destruct (cached_tile st t); destruct (decide _); try done; lia.
Qed.

Lemma X14_load_counts_once_witness :
  exists r st',
    load_cached_tile (create_tile_info (test_config 3) 1 1 1) (init ∅) = (Ok r, st') /\
    monitor st' cache_misses = 1.
Proof.
  destruct (X14_load_counts_once (init ∅) (create_tile_info (test_config 3) 1 1 1)
              (good_init ∅)) as (r & st' & Hrun & _ & _ & Hmiss & _).
  exists r, st'. split; [exact Hrun|].
  rewrite Hmiss. vm_compute in Hrun. injection Hrun as <- _. reflexivity.
Defined.

(** X15.  A tile found in a file is promoted to the memory cache: when the
    memory cache does not hold the tile and its file decodes to an image,
    [load_cached_tile] returns that image after one memory lookup and one
    look at the file, and the next [load_cached_tile] of the same tile
    returns it from memory without looking at the file system.  A file that
    does not decode is a miss, not an error, and leaves the memory cache
    unchanged. *)
Theorem X15_file_hit_promotes (st : state) (t : TileInfo) (data : Bytes) :
  good st ->
  TileCache._cache (cache st) !! key t = None ->
  disk st !! file_path t = Some data ->
  match bytes_image data with
  | Some img =>
      exists st1 st2,
        load_cached_tile t st = (Ok (Some img), st1) /\
        trace st1 = trace st ++ [EvCacheGet (key t); EvPathExists (file_path t)] /\
        load_cached_tile t st1 = (Ok (Some img), st2) /\
        trace st2 = trace st1 ++ [EvCacheGet (key t)]
  | None =>
      exists st1,
        load_cached_tile t st = (Ok None, st1) /\
        TileCache._cache (cache st1) = TileCache._cache (cache st) /\
        monitor st1 cache_misses = monitor st cache_misses + 1
  end.
Proof.
  intros Hgood Hmem Hdisk.
  destruct (load_cached_tile_effect st t Hgood)
    as (st1 & Hrun & Hgood1 & Htr & _ & _ & _ & _ & Hm & Hcache).
  unfold cached_tile, load_events in *. rewrite Hmem, Hdisk in *. simpl in *.
  destruct (bytes_image data) as [img|].
  - destruct (load_cached_tile_effect st1 t Hgood1)
      as (st2 & Hrun2 & _ & Htr2 & _).
    unfold cached_tile, load_events in *. rewrite Hcache in *.
    exists st1, st2. done.
  - exists st1. split_and!; try done; try (rewrite Hm; simpl; lia).
Qed.

Lemma X15_file_hit_promotes_witness :
  let t := create_tile_info (test_config 3) 1 1 1 in
  let data := mkBytes 100 (Some (flat_tile (9, 9, 9))) in
  exists st1 st2,
    load_cached_tile t (init {[ file_path t := data ]})
      = (Ok (Some (flat_tile (9, 9, 9))), st1) /\
    load_cached_tile t st1 = (Ok (Some (flat_tile (9, 9, 9))), st2) /\
    trace st2 = [EvCacheGet (key t); EvPathExists (file_path t); EvCacheGet (key t)].
Proof.
  intros t data.
  pose proof (X15_file_hit_promotes (init {[ file_path t := data ]}) t data
                (good_init _) (lookup_empty _) (lookup_singleton_eq _ _)) as Hx.
  simpl in Hx. destruct Hx as (st1 & st2 & Hload1 & Htr1 & Hload2 & Htr2).
  exists st1, st2. split_and!; [exact Hload1 | exact Hload2 |].
  rewrite Htr2, Htr1. reflexivity.
Defined.

(** X16.  Round trip through [save_tile]: when the file can be written,
    [save_tile] stores the image in the tile store and in the memory cache
    and adds the size of the file to [total_bytes]; the [load_cached_tile]
    of the same tile that follows returns the image after the memory lookup
    alone.  When the file cannot be written, [save_tile] raises
    [DownloadError] and changes nothing. *)
Theorem X16_save_then_load (world : World) (st : state) (t : TileInfo) (img : Image) :
  good st ->
  if save_fails world (file_path t) then
    exists msg, save_tile world t img st = (Raise (DownloadError msg), st)
  else
    exists st1 st2,
      save_tile world t img st = (Ok tt, st1) /\
      disk st1 !! file_path t = Some (mkBytes (png_size world img) (Some img)) /\
      monitor st1 total_bytes = monitor st total_bytes + png_size world img /\
      load_cached_tile t st1 = (Ok (Some img), st2) /\
      trace st2 = trace st ++ [EvCacheGet (key t)].
Proof.
  intros Hgood.
  destruct (save_tile_effect world st t img Hgood)
    as (r & st1 & Hrun & Hgood1 & Htr & _ & _ & _ & Hcase).
  destruct (save_fails world (file_path t)).
  - destruct Hcase as [-> ->]. by eexists.
  - destruct Hcase as (-> & Hdisk & Hcache & Hm).
    destruct (load_cached_tile_effect st1 t Hgood1) as (st2 & Hrun2 & _ & Htr2 & _).
    unfold cached_tile, load_events in *. rewrite Hcache in *.
    exists st1, st2. split_and!; try done.
    + by rewrite Hdisk, lookup_insert_eq.
    + by rewrite Htr2, Htr.
Qed.

Lemma X16_save_then_load_witness :
  exists st1 st2,
    save_tile online_world (create_tile_info (test_config 3) 1 1 1)
      (flat_tile (9, 9, 9)) (init ∅) = (Ok tt, st1) /\
    load_cached_tile (create_tile_info (test_config 3) 1 1 1) st1
      = (Ok (Some (flat_tile (9, 9, 9))), st2).
Proof.
  pose proof (X16_save_then_load online_world (init ∅)
                (create_tile_info (test_config 3) 1 1 1) (flat_tile (9, 9, 9))
                (good_init ∅)) as Hx.
  simpl in Hx. destruct Hx as (st1 & st2 & Hsave & _ & _ & Hload & _).
  exists st1, st2. by split.
Defined.

(** X17.  [reset_statistics] sets every counter to zero and empties the
    memory cache, keeping its capacity; the tile store is not touched.  A
    tile that was stored before is therefore still served without a
    request: the first [load_cached_tile] after the reset reads its file
    again and counts a cache hit. *)
Theorem X17_reset_keeps_tile_store (st : state) (t : TileInfo) (data : Bytes)
    (img : Image) :
  good st ->
  disk st !! file_path t = Some data -> bytes_image data = Some img ->
  exists st1 st2,
    reset_statistics st = (Ok tt, st1) /\ good st1 /\
    (forall k, monitor st1 k = 0) /\
    TileCache.size_ (cache st1) = 0 /\
    TileCache.max_size (cache st1) = TileCache.max_size (cache st) /\
    disk st1 = disk st /\ trace st1 = trace st /\
    load_cached_tile t st1 = (Ok (Some img), st2) /\
    trace st2 = trace st ++ [EvCacheGet (key t); EvPathExists (file_path t)] /\
    monitor st2 cache_hits = 1 /\ http_calls st2 = http_calls st.
Proof.
  intros Hgood Hdisk Himg.
  set (st1 := set_cache (TileCache.clear (cache st)) (set_monitor (fun _ => 0) st)).
  assert (good st1) as Hgood1.
  { destruct Hgood as (_ & HN & _). unfold good, st1. simpl.
    split_and!; [apply TileCacheFacts.wf_clear | done |].
    rewrite map_size_empty. lia. }
  destruct (load_cached_tile_effect st1 t Hgood1)
    as (st2 & Hrun & _ & Htr & Hh & _ & _ & _ & Hm & _).
  unfold cached_tile, load_events in *. simpl in Hrun, Htr, Hm.
  rewrite lookup_empty, Hdisk in *. simpl in *. rewrite Himg in *.
  exists st1, st2. split_and!; try done; try (by rewrite Hm).
Qed.

Lemma X17_reset_keeps_tile_store_witness :
  let t := create_tile_info (test_config 3) 1 1 1 in
  let data := mkBytes 100 (Some (flat_tile (9, 9, 9))) in
  exists st1 st2,
    reset_statistics (init {[ file_path t := data ]}) = (Ok tt, st1) /\
    load_cached_tile t st1 = (Ok (Some (flat_tile (9, 9, 9))), st2).
Proof.
  intros t data.
  destruct (X17_reset_keeps_tile_store (init {[ file_path t := data ]}) t data
              (flat_tile (9, 9, 9)) (good_init _))
    as (st1 & st2 & Hreset & _ & _ & _ & _ & _ & _ & Hload & _).
  - apply lookup_singleton_eq.
  - reflexivity.
  - exists st1, st2. by split.
Defined.

End DownloaderProperties.

(* ===================================================================== *)
(** * SyncDownloader: what an attempt and a download leave behind         *)
(* ===================================================================== *)

Module SyncDownloaderProperties.
Import Downloader DownloaderSpec DownloaderFacts DownloaderProperties.
Import SyncDownloader SyncDownloaderSpec SyncDownloaderFacts.
Section WithWorld.
Context (config : Config.t) (world : World).

(** One attempt in full, when its delay, if it has one, is a duration: the
    result and what it stores, or the exception and that nothing was
    stored. *)
Lemma download_with_retry_effect st t attempt :
  good st ->
  attempt <= 0 \/ sleepable (request_delay config world (rng_calls st)) ->
  exists r st',
    _download_with_retry config world t attempt st = (r, st') /\ good st' /\
    http_calls st' = S (http_calls st) /\
    match r with
    | Ok res =>
        exists resp img,
          http_get world (http_calls st) (url t) = HttpReturns resp /\
          bytes_image (content resp) = Some img /\
          res = {| tile_info := t; success := true; image := Some img;
                   error := None; download_time := 0%Q;
                   file_size := bytes_len (content resp); from_cache := false |} /\
          disk st' = <[file_path t := mkBytes (png_size world img) (Some img)]> (disk st) /\
          TileCache._cache (cache st') !! key t = Some img /\
          (forall k, monitor st' k =
             monitor st k + (if decide (k = total_bytes) then png_size world img else 0))
    | Raise e =>
        (exists msg, e = DownloadError msg) /\
        disk st' = disk st /\ cache st' = cache st /\ monitor st' = monitor st
    end.
Proof.
  intros Hgood Hd. unfold _download_with_retry.
  pose proof (attempt_delay_ok config world st attempt Hd) as Hdelay.
  set (d := request_delay config world (rng_calls st)) in *.
  set (st1 := if 0 <? attempt then slept d (set_rng_calls (S (rng_calls st)) st)
              else st) in *.
  assert (good st1 /\ http_calls st1 = http_calls st /\ disk st1 = disk st /\
          cache st1 = cache st /\ monitor st1 = monitor st)
    as (Hgood1 & Hh1 & Hd1 & Hc1 & Hm1).
  { subst st1. destruct (0 <? attempt); simpl; frame_done. }
  py_unfold. rewrite Hdelay. clearbody st1. cbv zeta.
  set (st2 := set_clock (clock st1 + http_latency world (http_calls st1))%Q
                (set_http_calls (S (http_calls st1)) (emit (EvHttpGet (url t)) st1))).
  assert (good st2 /\ http_calls st2 = S (http_calls st) /\ disk st2 = disk st /\
          cache st2 = cache st /\ monitor st2 = monitor st)
    as (Hgood2 & Hh2 & Hd2 & Hc2 & Hm2).
  { subst st2. simpl. rewrite Hh1, Hd1, Hc1, Hm1. frame_done. }
  clearbody st2. rewrite Hh1.
  destruct (http_get world (http_calls st) (url t)) as [e|resp] eqn:Hget.
  { eexists _, _. split; [reflexivity|]. frame_done.
    unfold classify_error; destruct e; try (repeat case_match); eauto. }
  destruct ((400 <=? status_code resp) && (status_code resp <? 600)).
  { eexists _, _. split; [reflexivity|]. frame_done.
    unfold classify_error; repeat case_match; eauto. }
  destruct (is_image_type (default "" (content_type resp))).
  2:{ eexists _, _. split; [reflexivity|]. frame_done. simpl; eauto. }
  destruct (bytes_len (content resp) =? 0).
  { eexists _, _. split; [reflexivity|]. frame_done. simpl; eauto. }
  destruct (bytes_image (content resp)) as [img|] eqn:Himg.
  2:{ eexists _, _. split; [reflexivity|]. frame_done. simpl; eauto. }
  destruct (save_tile_effect world st2 t img Hgood2)
    as (r & st3 & Hsave & Hgood3 & _ & Hh3 & _ & _ & Hcase).
  unfold mret, Py_ret. rewrite Hsave.
  destruct (save_fails world (file_path t)).
  - destruct Hcase as [-> ->]. eexists _, _. split; [reflexivity|]. simpl.
    frame_done. eauto.
  - destruct Hcase as (-> & Hd3 & Hc3 & Hm3).
    eexists _, _. split; [reflexivity|]. simpl. rewrite Hh3.
    split_and!; try done. exists resp, img. split_and!; try done.
    + by rewrite Hd3, Hd2.
    + intros k. by rewrite Hm3, Hm2.
Qed.

(** One attempt, whatever its delay: what the result says and what the
    counters and the memory cache hold after it. *)
Lemma download_with_retry_outcome st t attempt :
  good st ->
  exists r st',
    _download_with_retry config world t attempt st = (r, st') /\ good st' /\
    (forall k, k <> total_bytes -> monitor st' k = monitor st k) /\
    match r with
    | Ok res =>
        success res = true /\ tile_info res = t /\ from_cache res = false /\
        exists img, image res = Some img /\
                    TileCache._cache (cache st') !! key t = Some img
    | Raise e => exists msg, e = DownloadError msg
    end.
Proof.
  intros Hgood.
  assert (attempt <= 0 \/ sleepable (request_delay config world (rng_calls st)) \/
          0 < attempt /\ ~ sleepable (request_delay config world (rng_calls st)))
    as [Hd|[Hd|[Ha Hs]]].
  { destruct (Z.le_gt_cases attempt 0); [by left|].
    destruct (sleepable_dec (request_delay config world (rng_calls st))); [|right; right];
      by auto with lia. }
  3:{ destruct (download_with_retry_no_delay config world st t attempt Ha Hs)
        as (msg & Hrun & _).
      eexists _, _. split; [exact Hrun|]. simpl. frame_done. eauto. }
  all: (destruct (download_with_retry_effect st t attempt Hgood ltac:(auto))
          as (r & st' & Hrun & Hgood' & _ & Hres);
        exists r, st'; split; [exact Hrun|]; split; [done|];
        destruct r as [res|e];
        [ destruct Hres as (resp & img & _ & _ & -> & _ & Hcache & Hm); simpl;
          split; [intros k Hk; rewrite Hm; destruct (decide (k = total_bytes)); [done|lia]|];
          split_and!; try done; by exists img
        | destruct Hres as (Hmsg & _ & _ & Hm); split; [by rewrite Hm | done] ]).
Qed.

(** The retry loop in full.  When it returns a result it has counted one
    successful download and the tile is in the memory cache; when it returns
    without one, or raises from a wait that is not a duration, it has
    counted nothing. *)
Lemma download_attempts_effect t start attempts st :
  good st ->
  exists r st',
    download_attempts config world t start attempts st = (r, st') /\ good st' /\
    (forall k, k <> total_bytes ->
       monitor st' k =
       monitor st k + (if decide (k = successful_downloads)
                       then (if r is Ok (Some _) then 1 else 0) else 0)) /\
    match r with
    | Ok (Some res) =>
        success res = true /\ tile_info res = t /\ from_cache res = false /\
        exists img, image res = Some img /\
                    TileCache._cache (cache st') !! key t = Some img
    | _ => True
    end.
Proof.
  revert st. induction attempts as [|attempt rest IH]; intros st Hgood.
  - eexists _, _. split; [reflexivity|]. simpl. split_and!; try done.
    intros k _. destruct (decide _); lia.
  - cbn [download_attempts]. unfold try_except at 1. unfold mbind at 1, Py_bind at 1.
    unfold mbind at 1, Py_bind at 1.
    destruct (download_with_retry_outcome st t attempt Hgood)
      as (r & st1 & -> & Hgood1 & Hm1 & Hres).
    destruct r as [res|e].
    + destruct Hres as (Hs & Ht & Hf & img & Hi & Hcache). rewrite Hs.
      py_unfold. simpl.
      eexists _, _. split; [reflexivity|]. simpl.
      split_and!; try done; try frame_done; try (by exists img).
      intros k Hk. rewrite Hm1 by done.
      destruct (decide (k = successful_downloads)); lia.
    + destruct (attempt <? Config.max_retries config).
      * unfold mbind at 1, Py_bind at 1.
        destruct (retry_wait_any config world st1 attempt)
          as (w & st2 & -> & Hc2 & Hd2 & Hm2 & _).
        assert (good st2) as Hgood2.
        { destruct Hgood1 as (? & ? & ?). unfold good. by rewrite Hc2. }
        destruct w as [[]|e'].
        -- destruct (IH st2 Hgood2) as (r & st' & Hrun & Hgood' & Hm' & Hret).
           unfold mret, Py_ret. rewrite Hrun.
           exists r, st'. split; [by destruct r as [[?|]|?]|]. split; [done|].
           split; [|done]. intros k Hk. rewrite Hm', Hm2, Hm1 by done. done.
        -- eexists _, _. split; [reflexivity|]. split; [done|]. split; [|done].
           intros k Hk. rewrite Hm2, Hm1 by done. destruct (decide _); lia.
      * destruct (IH st1 Hgood1) as (r & st' & Hrun & Hgood' & Hm' & Hret).
        unfold mbind at 1, Py_bind at 1, mret, Py_ret. rewrite Hrun.
        exists r, st'. split; [by destruct r as [[?|]|?]|]. split; [done|].
        split; [|done]. intros k Hk. rewrite Hm', Hm1 by done. done.
Qed.

(** [download_tile] in full: when it returns, the result by case, what the
    counters record and what the memory cache holds; when it raises, from a
    wait that is not a duration, only the cache miss has been counted. *)
Lemma download_tile_effect st t :
  good st ->
  exists r st',
    download_tile config world t st = (r, st') /\ good st' /\
    match r with
    | Ok r =>
        tile_info r = t /\
        from_cache r = bool_decide (is_Some (cached_tile st t)) /\
        (from_cache r = true -> success r = true) /\
        (success r = true -> from_cache r = false ->
         validate_tile_coordinates (x t) (y t) (z t) = true) /\
        (forall k, k <> total_bytes ->
           monitor st' k =
           monitor st k +
           (if decide (k = successful_downloads)
            then (if success r && negb (from_cache r) then 1 else 0)
            else if decide (k = failed_downloads)
            then (if negb (success r) && validate_tile_coordinates (x t) (y t) (z t)
                  then 1 else 0)
            else if decide (k = cache_hits) then (if from_cache r then 1 else 0)
            else if decide (k = cache_misses) then (if from_cache r then 0 else 1)
            else 0)) /\
        (success r = true ->
         exists img, image r = Some img /\
                     TileCache._cache (cache st') !! key t = Some img)
    | Raise e =>
        cached_tile st t = None /\
        validate_tile_coordinates (x t) (y t) (z t) = true /\
        (forall k, k <> total_bytes ->
           monitor st' k =
           monitor st k + (if decide (k = cache_misses) then 1 else 0))
    end.
Proof.
  intros Hgood. unfold download_tile. py_unfold.
  destruct (load_cached_tile_effect st t Hgood)
    as (st1 & -> & Hgood1 & _ & _ & _ & _ & _ & Hm1 & Hcache1).
  destruct (cached_tile st t) as [img|] eqn:Hc.
  - eexists _, _. split; [reflexivity|]. simpl. split_and!; try done.
    + intros k Hk. rewrite Hm1. repeat destruct (decide _); subst; try done; lia.
    + intros _. by exists img.
  - destruct (validate_tile_coordinates (x t) (y t) (z t)) eqn:Hv; simpl.
    + destruct (download_attempts_effect t (clock st)
                  (range 0 (Config.max_retries config + 1)) st1 Hgood1)
        as (ret & st2 & -> & Hgood2 & Hm2 & Hret).
      destruct ret as [[res|]|e].
      * destruct Hret as (Hs & Ht & Hf & img & Hi & Hcache).
        eexists _, _. split; [reflexivity|]. simpl. rewrite Hs, Hf. simpl.
        split_and!; try done.
        -- intros k Hk. rewrite Hm2, Hm1 by done.
           repeat destruct (decide _); subst; try done; lia.
        -- intros _. by exists img.
      * eexists _, _. split; [reflexivity|]. simpl.
        split_and!; try done; try frame_done.
        intros k Hk. rewrite Hm2, Hm1 by done.
        repeat destruct (decide _); subst; try done; lia.
      * eexists _, _. split; [reflexivity|]. split_and!; try done.
        intros k Hk. rewrite Hm2, Hm1 by done.
        repeat destruct (decide _); subst; try done; lia.
    + eexists _, _. split; [reflexivity|]. simpl. split_and!; try done.
      intros k Hk. rewrite Hm1. repeat destruct (decide _); subst; try done; lia.
Qed.

(** X18.  One attempt stores the tile or leaves everything as it was.  When
    [_download_with_retry] returns, the result is a success for the tile,
    not from the cache and without an error text, and its image is then in
    the tile store under the tile's path and in the memory cache, and the
    size of the file was added to [total_bytes]; it never returns a failure
    result.  When it raises, the exception is a [DownloadError] and the
    tile store, the memory cache and the counters are unchanged.  An attempt
    makes exactly one request, with one exception: a retry (an attempt
    index above zero) whose delay, drawn from [request_interval_range], is
    not a duration [time.sleep] takes.  The sleep then raises inside the
    [try], the attempt leaves with a [DownloadError], and no request was
    made and nothing waited for. *)
Theorem X18_attempt_stores_or_leaves (st : state) (t : TileInfo) (attempt : Z)
    (r : result DownloadResult) (st' : state) :
  good st ->
  _download_with_retry config world t attempt st = (r, st') ->
  (attempt <= 0 \/ sleepable (request_delay config world (rng_calls st)) ->
   http_calls st' = S (http_calls st)) /\
  (0 < attempt -> ~ sleepable (request_delay config world (rng_calls st)) ->
   http_calls st' = http_calls st /\ trace st' = trace st /\
   clock st' = clock st /\ exists msg, r = Raise (DownloadError msg)) /\
  match r with
  | Ok res =>
      success res = true /\ tile_info res = t /\ error res = None /\
      from_cache res = false /\
      exists img,
        image res = Some img /\
        disk st' !! file_path t = Some (mkBytes (png_size world img) (Some img)) /\
        TileCache._cache (cache st') !! key t = Some img /\
        monitor st' total_bytes = monitor st total_bytes + png_size world img
  | Raise e =>
      (exists msg, e = DownloadError msg) /\
      disk st' = disk st /\ cache st' = cache st /\ monitor st' = monitor st
  end.
Proof.
  intros Hgood Hrun.
  assert (attempt <= 0 \/ sleepable (request_delay config world (rng_calls st)) \/
          0 < attempt /\ ~ sleepable (request_delay config world (rng_calls st)))
    as Hcases.
  { destruct (Z.le_gt_cases attempt 0); [by left|].
    destruct (sleepable_dec (request_delay config world (rng_calls st))); [|right; right];
      by auto with lia. }
  assert (attempt <= 0 \/ sleepable (request_delay config world (rng_calls st)) \/
          http_calls st' = http_calls st /\ trace st' = trace st /\
          clock st' = clock st /\ disk st' = disk st /\ cache st' = cache st /\
          monitor st' = monitor st /\ exists msg, r = Raise (DownloadError msg))
    as Hno.
  { destruct Hcases as [?|[?|[Ha Hs]]]; [by left | by right; left |].
    destruct (download_with_retry_no_delay config world st t attempt Ha Hs)
      as (msg & Hrun0 & _).
    rewrite Hrun in Hrun0. injection Hrun0 as -> ->. right; right.
    split_and!; try done. by exists msg. }
  split_and!.
  - intros Hd.
    destruct (download_with_retry_effect st t attempt Hgood Hd)
      as (r0 & st0 & Hrun0 & _ & Hh & _).
    rewrite Hrun in Hrun0. by injection Hrun0 as <- <-.
  - intros Ha Hs. destruct Hno as [?|[?|Hno]]; [lia | done |].
    destruct Hno as (? & ? & ? & _ & _ & _ & ?). done.
  - assert (attempt <= 0 \/ sleepable (request_delay config world (rng_calls st)) \/
            0 < attempt /\ ~ sleepable (request_delay config world (rng_calls st)))
      as [Hd|[Hd|[Ha Hs]]] by exact Hcases.
    3:{ destruct Hno as [?|[?|Hno]]; [lia | done |].
        destruct Hno as (_ & _ & _ & ? & ? & ? & msg & ->). split_and!; eauto. }
    all: (destruct (download_with_retry_effect st t attempt Hgood ltac:(auto))
            as (r0 & st0 & Hrun0 & _ & _ & Hres);
          rewrite Hrun in Hrun0; injection Hrun0 as <- <-;
          destruct r as [res|e]; [|done];
          destruct Hres as (resp & img & _ & _ & -> & Hd' & Hc & Hm); simpl;
          split_and!; try done; exists img;
          split_and!; try done; try (by rewrite Hd', lookup_insert_eq);
          try (rewrite Hm; simpl; lia)).
Qed.


(** X20.  What was downloaded is not downloaded again: after a
    [download_tile] that succeeded, from the network or from the cache, the
    next [download_tile] of the same tile returns the same image from the
    memory cache, after one cache lookup, without a request and whether or
    not the tile coordinates are valid. *)
Theorem X20_second_download_from_cache (st : state) (t : TileInfo)
    (r : DownloadResult) (st1 : state) :
  good st ->
  download_tile config world t st = (Ok r, st1) ->
  success r = true ->
  exists img st2,
    image r = Some img /\
    download_tile config world t st1 = (Ok (cached_result t img), st2) /\
    http_calls st2 = http_calls st1 /\
    trace st2 = trace st1 ++ [EvCacheGet (key t)].
Proof.
  intros Hgood Hrun Hs.
  destruct (download_tile_effect st t Hgood) as (r0 & st0 & Hrun0 & Hgood1 & Hres).
  rewrite Hrun in Hrun0. injection Hrun0 as <- <-.
  destruct Hres as (_ & _ & _ & _ & _ & Hcache).
  destruct (Hcache Hs) as (img & Hi & Hc).
  assert (cached_tile st1 t = Some img) as Hcached.
  { unfold cached_tile. by rewrite Hc. }
  destruct (download_tile_cached config world st1 t img Hgood1 Hcached)
    as (st2 & Hrun2 & _ & Htr & Hh).
  exists img, st2. split_and!; try done.
  rewrite Htr. unfold load_events. by rewrite Hc.
Qed.

(** X21.  With a negative [max_retries] the loop over the attempts is empty:
    the download of a tile that is valid and not cached makes no request at
    all and returns the failure result that names the negative number of
    retries, counted as a failed download. *)
Theorem X21_negative_max_retries (st : state) (t : TileInfo) :
  good st ->
  Config.max_retries config < 0 ->
  cached_tile st t = None ->
  validate_tile_coordinates (x t) (y t) (z t) = true ->
  exists r st',
    download_tile config world t st = (Ok r, st') /\
    success r = false /\ image r = None /\
    error r = Some (exhausted_message config) /\
    http_calls st' = http_calls st /\
    trace st' = trace st ++ load_events st t /\
    monitor st' failed_downloads = monitor st failed_downloads + 1.
Proof.
  intros Hgood Hneg Hc Hv. unfold download_tile. py_unfold.
  destruct (load_cached_tile_effect st t Hgood)
    as (st1 & -> & _ & Htr & Hh & _ & _ & _ & Hm & _).
  rewrite Hc, Hv in *. simpl.
  unfold range. rewrite seqZ_nil by lia. simpl.
  eexists _, _. split; [reflexivity|]. simpl. split_and!; try done.
  rewrite Hm. simpl. lia.
Qed.

(** X22.  What one [download_tile] adds to the counters.
    [successful_downloads] grows by one exactly when the result is a
    success that does not come from the cache; [failed_downloads] grows by
    one exactly when the result is a failure for valid coordinates, so that
    a tile rejected for its coordinates is counted in neither;
    [cache_hits] grows by one when the result comes from the cache and
    [cache_misses] by one otherwise; [total_downloads] does not change. *)
Theorem X22_download_accounting (st : state) (t : TileInfo)
    (r : DownloadResult) (st' : state) :
  good st ->
  download_tile config world t st = (Ok r, st') ->
  monitor st' successful_downloads
    = monitor st successful_downloads
      + (if success r && negb (from_cache r) then 1 else 0) /\
  monitor st' failed_downloads
    = monitor st failed_downloads
      + (if negb (success r) && validate_tile_coordinates (x t) (y t) (z t)
         then 1 else 0) /\
  monitor st' cache_hits
    = monitor st cache_hits + (if from_cache r then 1 else 0) /\
  monitor st' cache_misses
    = monitor st cache_misses + (if from_cache r then 0 else 1) /\
  monitor st' total_downloads = monitor st total_downloads /\
  (from_cache r = true -> success r = true).
Proof.
  intros Hgood Hrun.
  destruct (download_tile_effect st t Hgood) as (r0 & st0 & Hrun0 & _ & Hres).
  rewrite Hrun in Hrun0. injection Hrun0 as <- <-.
  destruct Hres as (_ & _ & Hfc & _ & Hm & _).
  split_and!; try done; rewrite Hm by done; simpl; lia.
Qed.

Lemma download_tiles_step_effect total results i t st :
  valid_waits config world ->
  good st ->
  exists r st',
    download_tiles_step config world total results i t st
      = (Ok (results ++ [r]), st') /\
    good st' /\ tile_info r = t /\
    (forall k, k <> total_bytes ->
       monitor st' k = monitor st k + (if counted_under k r then 1 else 0)).
Proof.
  intros Hwaits Hgood. unfold download_tiles_step.
  unfold try_except, mbind, Py_bind, mret, Py_ret.
  destruct (download_tile_effect st t Hgood) as (r0 & st1 & Hrun & Hgood1 & Hres).
  destruct (download_tile_total config world st t (proj2 Hwaits) Hgood)
    as (r & st1' & Hrun' & _).
  rewrite Hrun in Hrun'. injection Hrun' as -> <-. rewrite Hrun.
  destruct Hres as (Ht & _ & _ & _ & Hm & _).
  assert (forall k, k <> total_bytes ->
            monitor st1 k = monitor st k + (if counted_under k r then 1 else 0)) as Hm'.
  { intros k Hk. rewrite Hm by done.
    destruct k; simpl; rewrite ?Ht; try done. by destruct (from_cache r). }
  destruct (i <? total).
  - rewrite add_random_delay_ok by apply Hwaits.
    eexists _, _. split; [reflexivity|]. simpl. frame_done.
  - eexists _, _. split; [reflexivity|]. done.
Qed.

Lemma download_tiles_loop_effect total tiles :
  valid_waits config world ->
  forall results i st,
    good st ->
    exists rs st',
      download_tiles_loop config world total results i tiles st
        = (Ok (results ++ rs), st') /\
      good st' /\ map tile_info rs = tiles /\
      (forall k, k <> total_bytes ->
         monitor st' k =
         monitor st k
         + Z.of_nat (length (filter (fun r => counted_under k r = true) rs))).
Proof.
  intros Hwaits.
  induction tiles as [|t tiles IH]; intros results i st Hgood.
  - exists [], st. simpl. rewrite app_nil_r. split_and!; try done.
    intros k _. lia.
  - simpl. unfold mbind, Py_bind.
    destruct (download_tiles_step_effect total results i t st Hwaits Hgood)
      as (r & st1 & -> & Hgood1 & Ht & Hm1).
    destruct (IH (results ++ [r]) (i + 1) st1 Hgood1)
      as (rs & st2 & -> & Hgood2 & Hrs & Hm2).
    exists (r :: rs), st2. rewrite <- app_assoc. simpl.
    split_and!; [done | done | by rewrite Ht, Hrs |].
    intros k Hk. rewrite Hm2, Hm1 by done. rewrite filter_cons.
    destruct (counted_under k r); simpl.
    + destruct (decide (true = true)); [|done]. simpl. lia.
    + destruct (decide (false = true)); [done|]. lia.
Qed.

(** X23.  What [download_tiles] adds to the counters, under a configuration
    whose waits are durations.  [total_downloads]
    grows by the number of tiles asked for, whether they are then served
    from the cache, downloaded, rejected or given up; each of
    [successful_downloads], [failed_downloads], [cache_hits] and
    [cache_misses] grows by the number of results it counts; so the hits and
    misses together grow as [total_downloads] does, while a result for
    invalid coordinates is in neither of the first two. *)
Theorem X23_batch_accounting (st : state) (tiles : list TileInfo)
    (results : list DownloadResult) (st' : state) :
  valid_waits config world ->
  good st ->
  download_tiles config world tiles st = (Ok results, st') ->
  monitor st' total_downloads
    = monitor st total_downloads + Z.of_nat (length tiles) /\
  (forall k, k <> total_bytes -> k <> total_downloads ->
     monitor st' k =
     monitor st k
     + Z.of_nat (length (filter (fun r => counted_under k r = true) results))) /\
  (monitor st' cache_hits + monitor st' cache_misses)
    - (monitor st cache_hits + monitor st cache_misses)
    = monitor st' total_downloads - monitor st total_downloads.
Proof.
  intros Hwaits Hgood Hrun. unfold download_tiles in Hrun. py_unfold.
  match type of Hrun with download_tiles_loop _ _ ?n _ _ _ ?s = _ =>
    destruct (download_tiles_loop_effect n tiles Hwaits [] 1 s)
      as (rs & st2 & Hloop & _ & Hmap & Hm) end.
  { frame_done. }
  rewrite Hloop in Hrun. injection Hrun as <- <-. simpl in Hm.
  assert (length rs = length tiles) as Hlen by (by rewrite <- Hmap, length_map).
  assert (forall l : list DownloadResult,
            (length (filter (fun r => counted_under cache_hits r = true) l)
             + length (filter (fun r => counted_under cache_misses r = true) l))%nat
            = length l) as Hsplit.
  { induction l as [|r l IH]; [done|]. rewrite !filter_cons. simpl in IH |- *.
    destruct (from_cache r); simpl;
      repeat (destruct (decide _); try done); simpl; lia. }
  split_and!.
  - rewrite Hm by done. simpl.
    assert (filter (fun r => false = true) rs = []) as ->; [|simpl; lia].
    clear. induction rs as [|r rs IH]; [done|]. rewrite filter_cons.
    destruct (decide _); done.
  - intros k Hk Hk'. rewrite Hm by done. destruct k; simpl; try done; lia.
  - rewrite !Hm by done. simpl.
    assert (filter (fun r => false = true) rs = []) as ->.
    { clear. induction rs as [|r rs IH]; [done|]. rewrite filter_cons.
      destruct (decide _); done. }
    specialize (Hsplit rs). simpl in *. lia.
Qed.

End WithWorld.

Lemma X18_attempt_stores_or_leaves_witness :
  let t := create_tile_info (test_config 3) 1 1 1 in
  exists res st',
    _download_with_retry (test_config 3) online_world t 0 (init ∅) = (Ok res, st') /\
    http_calls st' = 1%nat /\ success res = true /\ from_cache res = false.
Proof.
  intros t.
  destruct (_download_with_retry (test_config 3) online_world t 0 (init ∅))
    as [r st'] eqn:Hrun.
  destruct (X18_attempt_stores_or_leaves (test_config 3) online_world (init ∅) t 0
              r st' (good_init ∅) Hrun) as (Hh & _ & Hres).
  assert (is_ok r = true) as Hok.
  { vm_compute in Hrun. by injection Hrun as <- _. }
  destruct r as [res|e]; [|done].
  exists res, st'. split; [done|]. split; [apply Hh; left; lia|].
  destruct Hres as (Hs & _ & _ & Hf & _). by split.
Defined.


Lemma X20_second_download_from_cache_witness :
  let t := create_tile_info (test_config 3) 1 1 1 in
  exists r st1 st2,
    download_tile (test_config 3) online_world t (init ∅) = (Ok r, st1) /\
    download_tile (test_config 3) online_world t st1
      = (Ok (cached_result t (flat_tile (9, 9, 9))), st2) /\
    http_calls st2 = 1%nat.
Proof.
  intros t.
  destruct (download_tile (test_config 3) online_world t (init ∅))
    as [r0 st1] eqn:Hrun.
  assert (exists r, r0 = Ok r /\ success r = true /\
                    image r = Some (flat_tile (9, 9, 9)) /\ http_calls st1 = 1%nat)
    as (r & -> & Hs & Hi & Hh1).
  { pose proof Hrun as Hrun'. vm_compute in Hrun'. injection Hrun' as <- <-.
    eexists. split; [reflexivity|]. by split_and!. }
  destruct (X20_second_download_from_cache (test_config 3) online_world (init ∅) t
              r st1 (good_init ∅) Hrun Hs) as (img & st2 & Hi' & Hrun2 & Hh2 & _).
  rewrite Hi in Hi'. injection Hi' as <-.
  exists r, st1, st2. split_and!; [done | exact Hrun2 | by rewrite Hh2].
Defined.

Lemma X21_negative_max_retries_witness :
  exists r st',
    download_tile (test_config (-1)) offline_world
      (create_tile_info (test_config (-1)) 1 1 1) (init ∅) = (Ok r, st') /\
    success r = false /\ http_calls st' = 0%nat /\
    error r = Some "下载失败，已重试 -1 次".
Proof.
  destruct (X21_negative_max_retries (test_config (-1)) offline_world (init ∅)
              (create_tile_info (test_config (-1)) 1 1 1))
    as (r & st' & Hrun & Hs & _ & He & Hh & _).
  - apply good_init.
  - simpl. lia.
  - reflexivity.
  - reflexivity.
  - exists r, st'. split_and!; [exact Hrun | exact Hs | exact Hh | exact He].
Defined.

Lemma X22_download_accounting_witness :
  exists r st',
    download_tile (test_config 0) offline_world
      (create_tile_info (test_config 0) 1 1 1) (init ∅) = (Ok r, st') /\
    monitor st' failed_downloads = 1 /\ monitor st' cache_misses = 1 /\
    monitor st' successful_downloads = 0.
Proof.
  destruct (download_tile (test_config 0) offline_world
              (create_tile_info (test_config 0) 1 1 1) (init ∅))
    as [r0 st'] eqn:Hrun.
  assert (exists r, r0 = Ok r /\ success r = false /\ from_cache r = false)
    as (r & -> & Hs & Hf).
  { pose proof Hrun as Hrun'. vm_compute in Hrun'. injection Hrun' as <- _.
    eexists. by split_and!. }
  destruct (X22_download_accounting (test_config 0) offline_world (init ∅) _ r st'
              (good_init ∅) Hrun) as (Hsucc & Hfail & _ & Hmiss & _).
  exists r, st'. rewrite Hs, Hf in *. by split_and!.
Defined.

(** One tile is given up, one is rejected for its zoom level: two tiles
    asked for, two cache misses, one failed download. *)
Lemma X23_batch_accounting_witness :
  exists results st',
    download_tiles (test_config 0) offline_world
      [create_tile_info (test_config 0) 1 1 1;
       create_tile_info (test_config 0) 0 0 21] (init ∅) = (Ok results, st') /\
    monitor st' total_downloads = 2 /\ monitor st' cache_misses = 2 /\
    monitor st' failed_downloads = 1.
Proof.
  destruct (download_tiles (test_config 0) offline_world
              [create_tile_info (test_config 0) 1 1 1;
               create_tile_info (test_config 0) 0 0 21] (init ∅))
    as [r0 st'] eqn:Hrun.
  assert (exists results, r0 = Ok results /\
            map success results = [false; false] /\
            map from_cache results = [false; false] /\
            map tile_info results = [create_tile_info (test_config 0) 1 1 1;
                                     create_tile_info (test_config 0) 0 0 21])
    as (results & -> & Hs & Hf & Ht).
  { pose proof Hrun as Hrun'. vm_compute in Hrun'. injection Hrun' as <- _.
    eexists. by split_and!. }
  destruct (X23_batch_accounting (test_config 0) offline_world (init ∅) _ results st'
              (valid_waits_test_config 0 offline_world
                 uniform_in_range_offline ltac:(lia))
              (good_init ∅) Hrun) as (Htotal & Hk & _).
  exists results, st'. split; [done|]. split; [exact Htotal|].
  destruct results as [|r1 [|r2 [|r3 results]]]; try done.
  injection Hs as Hs1 Hs2. injection Hf as Hf1 Hf2. injection Ht as Ht1 Ht2.
  split.
  - rewrite (Hk cache_misses) by done. simpl.
    rewrite !filter_cons, filter_nil. simpl. rewrite Hf1, Hf2. reflexivity.
  - rewrite (Hk failed_downloads) by done. simpl.
    rewrite !filter_cons, filter_nil. simpl. rewrite Hs1, Hs2, Ht1, Ht2. reflexivity.
Defined.

End SyncDownloaderProperties.

(* ===================================================================== *)
(** * ImageProcessor: what the metadata says about the mosaic             *)
(* ===================================================================== *)

Module ImageProcessorProperties.
Import TileMerger TileMergerSpec TileMergerFacts ImageProcessor.
Section WithLibs.
Context `{LibM} `{PIL}.


End WithLibs.


End ImageProcessorProperties.

(* ===================================================================== *)
(** * Loading the points                                                  *)
(* ===================================================================== *)

Module DataProcessorInputProperties.
Import DataLoader DataProcessorInput.

(** A float between two numbers is a number. *)
Lemma between_finite (lo hi x : float) :
  finite lo -> finite hi -> (lo <=? x)%float = true -> (x <=? hi)%float = true ->
  finite x.
Proof.
  unfold finite. rewrite !leb_spec.
  destruct (Prim2SF x) as [s|[|]| |s m e]; try done.
  - destruct (Prim2SF lo) as [?|[|]| |[|] ? ?]; done.
  - intros _ Hhi _. destruct (Prim2SF hi) as [?|[|]| |[|] ? ?]; done.
Qed.

Lemma validate_finite (p : GeoPoint) :
  validate p = true -> finite (longitude p) /\ finite (latitude p).
Proof.
  unfold validate. intros Hv.
  apply andb_prop in Hv as [Hv H4]. apply andb_prop in Hv as [Hv H3].
  apply andb_prop in Hv as [H1 H2].
  split; eapply between_finite; try eassumption; done.
Qed.

(** X26.  [_load_points] returns the loaded points that pass
    [GeoPoint.validate], in their order, and each of them has a longitude
    and a latitude that are numbers (a NaN or an infinity does not pass).
    It raises nothing but [DataProcessingError].  It raises when the loader
    returns no point at all, but when the loader returns points of which
    none is valid it returns the empty list without an error. *)
Theorem X26_loaded_points_are_valid (loaded : result (list GeoPoint)) :
  (forall points,
     _load_points loaded = Ok points ->
     exists all,
       loaded = Ok all /\ all <> [] /\
       points = List.filter validate all /\
       Forall (fun p => validate p = true /\
                        finite (longitude p) /\ finite (latitude p)) points) /\
  (forall e, _load_points loaded = Raise e -> exists msg, e = DataProcessingError msg) /\
  (loaded = Ok [] ->
   _load_points loaded
   = Raise (DataProcessingError "加载地理点数据失败: 没有找到有效的地理点数据")) /\
  (forall all, loaded = Ok all -> all <> [] ->
     Forall (fun p => validate p = false) all -> _load_points loaded = Ok []).
Proof.
  unfold _load_points. split_and!.
  - intros points. destruct loaded as [[|p all]|e]; simpl; try done.
    intros [= <-]. exists (p :: all). split_and!; try done.
    apply Forall_forall. intros q Hq.
    apply list_elem_of_In, (filter_In validate q (p :: all)) in Hq as [_ Hq].
    split; [done|]. by apply validate_finite.
  - intros e. destruct loaded as [[|p all]|e']; simpl; intros [= <-]; by eexists.
  - by intros ->.
  - intros all -> Hne Hall.
    assert (List.filter validate all = []) as Hnone.
    { clear Hne. induction Hall as [|q l Hq _ IH]; [done|]. simpl. by rewrite Hq. }
    destruct all as [|p all]; [done|]. cbv beta iota zeta delta [mbind result_bind].
    by rewrite Hnone.
Qed.

(** A point whose longitude is NaN is dropped, without an error. *)
Lemma X26_loaded_points_are_valid_witness :
  _load_points (Ok [mkGeoPoint nan 0 [] 0]) = Ok [].
Proof.
  apply (proj2 (proj2 (proj2 (X26_loaded_points_are_valid
                                (Ok [mkGeoPoint nan 0 [] 0]))))
           [mkGeoPoint nan 0 [] 0]).
  - reflexivity.
  - discriminate.
  - repeat constructor.
Defined.

End DataProcessorInputProperties.

(* ===================================================================== *)
(** * Downloading in batches                                              *)
(* ===================================================================== *)

Module AsyncDownloaderProperties.
Import AsyncDownloader AsyncDownloaderSpec.

(** A slice that starts inside the list or at its end. *)
Lemma slice_take_drop {A} (l : list A) (i b : Z) :
  0 <= i -> 0 < b ->
  slice l i (i + b) = take (Z.to_nat b) (drop (Z.to_nat i) l).
Proof.
  intros Hi Hb. unfold slice.
  destruct (Z.ltb_spec i 0) as [?|_]; [lia|].
  destruct (Z.ltb_spec (i + b) 0) as [?|_]; [lia|].
  destruct (decide (Z.of_nat (length l) <= i)) as [Hout|Hin].
  - rewrite !drop_ge by lia. by rewrite !take_nil.
  - destruct (decide (i + b <= Z.of_nat (length l))) as [Hfull|Hpart].
    + f_equal; [lia|]. f_equal. lia.
    + replace (Z.to_nat (i `min` Z.of_nat (length l))) with (Z.to_nat i) by lia.
      rewrite !take_ge; [done| |]; rewrite length_drop; lia.
Qed.

Lemma range_step_chunks (total b : Z) :
  0 <= total -> 0 < b ->
  range_step 0 total b
  = Ok ((fun k : nat => Z.of_nat k * b) <$> seq 0 (Z.to_nat ((total + b - 1) `div` b))).
Proof.
  intros Ht Hb. unfold range_step.
  destruct (Z.eqb_spec b 0) as [?|_]; [lia|].
  destruct (Z.ltb_spec 0 b) as [_|?]; [|lia].
  assert ((if 0 <? total then (total - 0 - 1) `div` b + 1 else 0)
          = (total + b - 1) `div` b) as ->.
  { destruct (Z.ltb_spec 0 total) as [Hpos|Hzero].
    - replace (total + b - 1) with (total - 0 - 1 + 1 * b) by lia.
      rewrite Z.div_add by lia. lia.
    - replace total with 0 by lia. rewrite Z.div_small; lia. }
  f_equal. unfold seqZ. rewrite <- list_fmap_compose.
  apply list_fmap_ext. intros _ k _. simpl. lia.
Qed.

Lemma concat_chunks (tiles : list TileInfo) (b : Z) (m k0 : nat) :
  0 < b -> Z.of_nat (length tiles) <= Z.of_nat (k0 + m) * b ->
  concat (chunk tiles b <$> seq k0 m) = drop (k0 * Z.to_nat b) tiles.
Proof.
  intros Hb. revert k0. induction m as [|m IH]; intros k0 Hlen.
  - simpl. rewrite drop_ge; [done|]. nia.
  - simpl. rewrite IH by (replace (S k0 + m)%nat with (k0 + S m)%nat by lia; done).
    unfold chunk.
    replace (S k0 * Z.to_nat b)%nat with (k0 * Z.to_nat b + Z.to_nat b)%nat by lia.
    rewrite <- drop_drop. apply take_drop.
Qed.

Section WithLoop.
Context {S : Type}.
Variable download_tiles_async : list TileInfo -> Py S (list DownloadResult).
Variable asyncio_sleep : Q -> Py S unit.

Lemma in_batches_more (batch : list TileInfo) (rest : list (list TileInfo))
    (acc : list DownloadResult) (st : S) :
  rest <> [] ->
  in_batches download_tiles_async asyncio_sleep (batch :: rest) acc st
  = (batch_results ← download_tiles_async batch;
     asyncio_sleep 1;;
     in_batches download_tiles_async asyncio_sleep rest (acc ++ batch_results)) st.
Proof. by destruct rest. Qed.

Lemma batch_loop_in_batches (tiles : list TileInfo) (b : Z) (m k0 : nat)
    (acc : list DownloadResult) (st : S) :
  0 < b ->
  (m <> 0%nat ->
   Z.of_nat (k0 + m - 1) * b < Z.of_nat (length tiles) <= Z.of_nat (k0 + m) * b) ->
  batch_loop download_tiles_async asyncio_sleep tiles b
    ((fun k : nat => Z.of_nat k * b) <$> seq k0 m) acc st
  = in_batches download_tiles_async asyncio_sleep (chunk tiles b <$> seq k0 m) acc st.
Proof.
  intros Hb. revert k0 acc st. induction m as [|m IH]; intros k0 acc st Hm; [done|].
  specialize (Hm ltac:(lia)).
  change (seq k0 (Datatypes.S m)) with (k0 :: seq (Datatypes.S k0) m).
  rewrite !fmap_cons. cbn [batch_loop].
  assert (slice tiles (Z.of_nat k0 * b) (Z.of_nat k0 * b + b) = chunk tiles b k0) as Hs.
  { rewrite slice_take_drop by lia. unfold chunk. do 2 f_equal. nia. }
  destruct m as [|m].
  - simpl. unfold batch_step, mbind, Py_bind, mret, Py_ret. rewrite Hs.
    destruct (download_tiles_async (chunk tiles b k0) st) as [[rs|e] st1]; [|done].
    destruct (Z.ltb_spec (Z.of_nat k0 * b + b) (Z.of_nat (length tiles))); [nia|done].
  - rewrite in_batches_more by done.
    unfold batch_step, mbind, Py_bind, mret, Py_ret. rewrite Hs.
    destruct (download_tiles_async (chunk tiles b k0) st) as [[rs|e] st1]; [|done].
    destruct (Z.ltb_spec (Z.of_nat k0 * b + b) (Z.of_nat (length tiles))); [|nia].
    destruct (asyncio_sleep 1 st1) as [[[]|e] st2]; [|done].
    apply IH. intros _. split; nia.
Qed.

(** X27.  With a positive [batch_size], [download_tiles_batch] hands the tiles
    to [download_tiles_async] in [(len(tiles) + batch_size - 1) // batch_size]
    consecutive batches: batch [k] is [tiles[k*batch_size:(k+1)*batch_size]],
    none is empty, together they are the tile list in its order, and it sleeps
    one second after every batch but the last.  With [batch_size = 0] it
    raises [ValueError] before any download; with a negative [batch_size] it
    downloads nothing and returns an empty list whatever the tiles are. *)
Theorem X27_batches_partition_tiles (tiles : list TileInfo) (batch_size : Z) :
  (0 < batch_size ->
   exists batches,
     concat batches = tiles /\
     Z.of_nat (length batches)
     = (Z.of_nat (length tiles) + batch_size - 1) `div` batch_size /\
     (forall k batch, batches !! k = Some batch ->
        batch = take (Z.to_nat batch_size) (drop (k * Z.to_nat batch_size) tiles) /\
        batch <> []) /\
     forall st,
       download_tiles_batch download_tiles_async asyncio_sleep tiles batch_size st
       = in_batches download_tiles_async asyncio_sleep batches [] st) /\
  (forall st,
     download_tiles_batch download_tiles_async asyncio_sleep tiles 0 st
     = (Raise (ValueError "range() arg 3 must not be zero"), st)) /\
  (batch_size < 0 ->
   forall st,
     download_tiles_batch download_tiles_async asyncio_sleep tiles batch_size st
     = (Ok [], st)).
Proof.
  split_and!.
  - intros Hb.
    set (total := Z.of_nat (length tiles)).
    set (n := (total + batch_size - 1) `div` batch_size).
    assert (0 <= n) as Hn0 by (apply Z.div_pos; lia).
    assert (batch_size * n <= total + batch_size - 1 < batch_size * (n + 1)) as Hn.
    { pose proof (Z.mul_div_le (total + batch_size - 1) batch_size Hb).
      pose proof (Z.mul_succ_div_gt (total + batch_size - 1) batch_size Hb).
      fold n in H, H0. lia. }
    exists (chunk tiles batch_size <$> seq 0 (Z.to_nat n)). split_and!.
    + rewrite concat_chunks; [done|done|]. fold total. nia.
    + rewrite length_fmap, length_seq. lia.
    + intros k batch Hk. rewrite list_lookup_fmap in Hk.
      destruct (seq 0 (Z.to_nat n) !! k) as [k'|] eqn:Hs; [|done].
      apply lookup_seq in Hs as [-> Hlt]. simpl in Hk. injection Hk as <-.
      split; [done|]. unfold chunk. intros Hnil.
      apply (f_equal length) in Hnil. rewrite length_take, length_drop in Hnil.
      simpl in Hnil. fold total in Hn. nia.
    + intros st. unfold download_tiles_batch, lift, mbind, Py_bind.
      fold total. rewrite range_step_chunks by lia. fold n.
      apply batch_loop_in_batches; [done|]. intros Hne. fold total. nia.
  - intros st. done.
  - intros Hb st. unfold download_tiles_batch, lift, mbind, Py_bind, range_step.
    destruct (Z.eqb_spec batch_size 0) as [?|_]; [lia|].
    destruct (Z.ltb_spec 0 batch_size) as [?|_]; [lia|].
    destruct (Z.ltb_spec (Z.of_nat (length tiles)) 0) as [?|_]; [lia|]. done.
Qed.

End WithLoop.

(** Three tiles in batches of two, with a downloader that fails every tile. *)
Lemma X27_batches_partition_tiles_witness :
  let t := mkTileInfo 0 0 1 "" "" in
  exists batches,
    concat batches = [t; t; t] /\
    Z.of_nat (length batches) = 2 /\
    (forall k batch, batches !! k = Some batch ->
       batch = take 2 (drop (k * 2) [t; t; t]) /\ batch <> []) /\
    forall st : unit,
      download_tiles_batch (fun _ => mret []) (fun _ => mret tt) [t; t; t] 2 st
      = AsyncDownloaderSpec.in_batches (fun _ => mret []) (fun _ => mret tt) batches [] st.
Proof.
  intros t.
  apply (proj1 (X27_batches_partition_tiles (fun _ => mret []) (fun _ => mret tt)
                  [t; t; t] 2)).
  lia.
Defined.

End AsyncDownloaderProperties.

(* ===================================================================== *)
(** * The coordinate mapping                                              *)
(* ===================================================================== *)

Module MetadataManagerProperties.
Import ImageProcessor DataProcessor MetadataManager.

Lemma mapping_inner_app (acc : list MappingEntry) (i : Z) (l : list PixelRecord) :
  mapping_inner acc i l = acc ++ (mapping_entry i <$> l).
Proof.
  revert acc. induction l as [|c l IH]; intros acc; simpl.
  - by rewrite app_nil_r.
  - by rewrite IH, <- app_assoc.
Qed.

Lemma mapping_loop_acc (acc : list MappingEntry) (i : Z) (l : list ImageMetadata) :
  mapping_loop acc i l = acc ++ mapping_loop [] i l.
Proof.
  revert acc i. induction l as [|md l IH]; intros acc i; simpl.
  - by rewrite app_nil_r.
  - rewrite IH, (IH (mapping_inner [] _ _)), !mapping_inner_app. simpl.
    by rewrite app_assoc.
Qed.

Lemma mapping_loop_app (i : Z) (l1 l2 : list ImageMetadata) :
  mapping_loop [] i (l1 ++ l2)
  = mapping_loop [] i l1 ++ mapping_loop [] (i + Z.of_nat (length l1)) l2.
Proof.
  revert i. induction l1 as [|md l1 IH]; intros i; simpl.
  - by rewrite Z.add_0_r.
  - rewrite mapping_loop_acc, (mapping_loop_acc (mapping_inner _ _ _) _ l1), IH.
    rewrite <- app_assoc. do 3 f_equal. lia.
Qed.

(** An entry carries the position of the metadata it was made from. *)
Lemma mapping_loop_index (i : Z) (l : list ImageMetadata) :
  Forall (fun e => i <= image_index e < i + Z.of_nat (length l)) (mapping_loop [] i l).
Proof.
  revert i. induction l as [|md l IH]; intros i; simpl; [done|].
  rewrite mapping_loop_acc, mapping_inner_app. simpl.
  apply Forall_app. split.
  - apply Forall_fmap, Forall_forall. intros c _. simpl. lia.
  - eapply Forall_impl; [apply IH|]. simpl. intros e He. lia.
Qed.

Lemma filter_none {A} (P : A -> Prop) `{forall x, Decision (P x)} (l : list A) :
  Forall (fun x => ~ P x) l -> filter P l = [].
Proof.
  induction 1 as [|x l Hx _ IH]; [done|]. by rewrite filter_cons_False.
Qed.

Section WithLibs.
Context (config : Config.t) (world : World) `{LibM} `{PIL}.

(** X28.  The coordinate mapping names an image by the index the point
    carries, while [_save_image] names the file by the position it is given.
    For a point that [process_point_image] turned into an image and its
    metadata, and whose image [_save_image] saved under position [i]:
    [create_coordinate_mapping] writes one file that counts the metadata
    records as ['total_points'] and holds exactly one entry for that
    metadata, with the metadata's position in the list as ['image_index']
    and the point's own index as ['point_index']; the ['image_file'] of the
    entry, in the output directory, is the saved file if and only if the
    point's index is [i]. *)
Theorem X28_mapping_names_image_by_point_index
    (point : GeoPoint) (download_results : list DownloadResult) (zoom grid_size : Z)
    (image : Image) (metadata : ImageMetadata) (i : Z)
    (st st' : DataProcessor.state) (path : string)
    (before after : list ImageMetadata) (files files' : MetadataManager.state)
    (mapping_file : string) :
  process_point_image point download_results zoom grid_size = Ok (image, metadata) ->
  _save_image config world image i st = (Ok path, st') ->
  create_coordinate_mapping config world (before ++ metadata :: after) files
  = (Ok mapping_file, files') ->
  exists coordinate_mapping entry,
    files' = <[mapping_file := coordinate_mapping]> files /\
    map_total_points coordinate_mapping
    = Z.of_nat (length before) + 1 + Z.of_nat (length after) /\
    filter (fun e => image_index e = Z.of_nat (length before))
           (mappings coordinate_mapping) = [entry] /\
    map_point_index entry = index point /\
    geo_coordinates entry = (longitude point, latitude point) /\
    (Config.output_dir config +:+ "/" +:+ image_file entry = path <-> index point = i).
Proof.
  intros Hrun Hsave Hmap.
  assert (exists c, pixel_coordinates metadata = [c] /\ point_index c = index point /\
                    rec_longitude c = longitude point /\
                    rec_latitude c = latitude point) as (c & Hc & Hidx & Hlon & Hlat).
  { revert Hrun. unfold process_point_image.
    destruct (_geo_to_tile (longitude point) (latitude point) zoom)
      as [[cx cy]|e]; simpl; [|done].
    destruct (_geo_to_pixel point _ grid_size) as [px|e]; simpl; [|done].
    unfold _create_image_metadata. simpl.
    destruct (_tile_to_geo (cx - _) (cy - _) _) as [[lon1 lat1]|e]; simpl; [|done].
    destruct (_tile_to_geo (cx + _) (cy + _) _) as [[lon2 lat2]|e]; simpl; [|done].
    intros [= <- <-]. simpl. by eexists. }
  assert (path = Config.output_dir config +:+ "/" +:+ "point_" +:+ format_06d i +:+ ".png")
    as Hpath.
  { revert Hsave. unfold _save_image, try_except, raise.
    destruct (save_fails world _); [done|]. by intros [= <- _]. }
  revert Hmap. unfold create_coordinate_mapping, try_except, raise.
  destruct (save_fails world _); [done|]. intros [= <- <-].
  eexists _, (mapping_entry (Z.of_nat (length before)) c). split_and!; try done.
  - simpl. rewrite length_app. simpl. lia.
  - simpl. rewrite mapping_loop_app. simpl.
    rewrite mapping_inner_app, Hc. simpl. rewrite (mapping_loop_acc [_]).
    rewrite !filter_app, filter_cons_True, filter_nil by (simpl; lia).
    rewrite (filter_none _ (mapping_loop [] 0 before)),
            (filter_none _ (mapping_loop [] _ after)).
    + simpl. do 2 f_equal; lia.
    + eapply Forall_impl; [apply mapping_loop_index|]. simpl. intros e He. lia.
    + eapply Forall_impl; [apply mapping_loop_index|]. simpl. intros e He. lia.
  - simpl. by rewrite Hlon, Hlat.
  - simpl. rewrite Hpath, Hidx. split.
    + intros Heq. do 3 apply (inj _) in Heq.
      apply NameProperties.numeral_split in Heq as [Heq _];
        [|done|apply NameProperties.numeral_format_06d..].
      by apply NameProperties.format_06d_inj.
    + by intros ->.
Qed.

End WithLibs.

(** The point with index 7, processed at position 0: the mapping names
    another file than the one that was saved. *)
Lemma X28_mapping_names_image_by_point_index_witness :
  exists img md entry,
    process_point_image (H := exact_libm) (H0 := nearest_pil)
      (mkGeoPoint 45 0 [] 7) [] 1 1 = Ok (img, md) /\
    map_point_index entry = 7 /\
    (Config.output_dir point_config +:+ "/" +:+ image_file entry
     = "./output/point_000000.png" <-> 7 = 0).
Proof.
  destruct (process_point_image (H := exact_libm) (H0 := nearest_pil)
              (mkGeoPoint 45 0 [] 7) [] 1 1) as [[img md]|e] eqn:Hrun.
  2:{ vm_compute in Hrun. discriminate Hrun. }
  destruct (X28_mapping_names_image_by_point_index point_config online_world
              (H := exact_libm) (H0 := nearest_pil)
              (mkGeoPoint 45 0 [] 7) [] 1 1 img md 0
              (DataProcessor.init ∅)
              (set_image_files (<["./output/point_000000.png" := img]> ∅)
                 (DataProcessor.init ∅))
              "./output/point_000000.png" [] [] ∅
              (<["./output/coordinate_mapping.json" :=
                   {| map_total_points := 1; mappings := mapping_loop [] 0 [md] |}]> ∅)
              "./output/coordinate_mapping.json" Hrun)
    as (cm & entry & _ & _ & _ & Hidx & _ & Hiff).
  - reflexivity.
  - reflexivity.
  - exists img, md, entry. by split_and!.
Defined.

End MetadataManagerProperties.

(* ===================================================================== *)
(** * Waits that are no durations                                         *)
(* ===================================================================== *)

Module InvalidWaitProperties.
Import Downloader DownloaderSpec DownloaderFacts DownloaderProperties.
Import SyncDownloader SyncDownloaderSpec SyncDownloaderFacts SyncDownloaderProperties.
Section WithWorld.
Context (config : Config.t) (world : World).

Lemma one_in_float_range (base : Q) : in_float_range (base ^ 0).
Proof. unfold in_float_range, Qlt. vm_compute. reflexivity. Qed.

(** The first attempt fails and the wait before the retry is negative: the
    [ValueError] of [time.sleep] leaves the handler and the loop. *)
Lemma first_wait_escapes st t start rest e0 :
  good st ->
  0 < Config.max_retries config ->
  http_get world (http_calls st) (url t) = HttpRaises e0 ->
  (retry_wait config world (rng_calls st) 0 < 0)%Q ->
  exists st',
    download_attempts config world t start (0 :: rest) st
    = (Raise (ValueError "sleep length must be non-negative"), st') /\
    good st' /\ http_calls st' = S (http_calls st) /\ monitor st' = monitor st.
Proof.
  intros Hgood Hmax Hget Hneg.
  cbn [download_attempts]. unfold try_except at 1. unfold mbind at 1, Py_bind at 1.
  unfold mbind at 1, Py_bind at 1.
  destruct (download_with_retry_spec config world st t 0 Hgood
              (or_introl (Z.le_refl 0)))
    as (r & st1 & Hrun & Hgood1 & _ & Hh1 & Hr1 & _).
  destruct (download_with_retry_effect config world st t 0 Hgood
              (or_introl (Z.le_refl 0)))
    as (r' & st1' & Hrun' & _ & _ & Hres).
  rewrite Hrun in Hrun'. injection Hrun' as <- <-. rewrite Hrun.
  destruct r as [res|e].
  { destruct Hres as (resp & img & Hget' & _). congruence. }
  destruct Hres as (_ & _ & _ & Hm1).
  rewrite (proj2 (Z.ltb_lt 0 (Config.max_retries config)) Hmax).
  unfold lift, random_uniform, mbind, Py_bind.
  rewrite py_float_pow_ok by apply one_in_float_range.
  simpl in Hr1. rewrite Nat.add_0_r in Hr1. rewrite Hr1.
  fold (retry_wait config world (rng_calls st) 0).
  rewrite time_sleep_negative by done.
  eexists. split; [reflexivity|]. simpl. frame_done.
Qed.


(** After a tile that is not the last, a delay that is no duration raises
    inside the [try] of the loop, after the result was appended: the
    handler appends a second result for the same tile. *)
Lemma download_tiles_step_doubles total results i t st :
  valid_retry_waits config world ->
  (forall rng, ~ sleepable (request_delay config world rng)) ->
  good st ->
  exists r st',
    good st' /\ tile_info r = t /\
    ((i <? total) = true /\
     (exists e,
        download_tiles_step config world total results i t st
        = (Ok (results ++ [r; unexpected_result t e]), st') /\
        (e = ValueError "sleep length must be non-negative" \/
         e = OverflowError "timestamp too large to convert to C _PyTime_t"))
     \/
     (i <? total) = false /\
     download_tiles_step config world total results i t st
     = (Ok (results ++ [r]), st')).
Proof.
  intros Hwait Hno Hgood. unfold download_tiles_step.
  unfold try_except, mbind, Py_bind, mret, Py_ret.
  destruct (download_tile_total config world st t Hwait Hgood)
    as (r & st1 & -> & Hgood1 & Ht).
  destruct (i <? total).
  - destruct (add_random_delay_raises config world st1 (Hno _)) as (e & -> & He).
    exists r, (set_rng_calls (S (rng_calls st1)) st1).
    split; [frame_done|]. split; [exact Ht|].
    left. split; [done|]. exists e. rewrite <- app_assoc. done.
  - exists r, st1. split_and!; try done. by right.
Qed.

Lemma download_tiles_loop_doubles total tiles :
  valid_retry_waits config world ->
  (forall rng, ~ sleepable (request_delay config world rng)) ->
  forall results i st,
    good st -> i + Z.of_nat (length tiles) = total + 1 ->
    exists rs st',
      download_tiles_loop config world total results i tiles st
      = (Ok (results ++ rs), st') /\
      good st' /\ map tile_info rs = removelast (twice tiles).
Proof.
  intros Hwait Hno.
  induction tiles as [|t tiles IH]; intros results i st Hgood Hi.
  - exists [], st. simpl. rewrite app_nil_r. done.
  - cbn [download_tiles_loop]. unfold mbind, Py_bind.
    destruct (download_tiles_step_doubles total results i t st Hwait Hno Hgood)
      as (r & st1 & Hgood1 & Ht & [(Hlt & e & -> & _)|(Hlt & ->)]).
    + apply Z.ltb_lt in Hlt. cbn [length] in Hi.
      destruct (IH (results ++ [r; unexpected_result t e]) (i + 1) st1 Hgood1)
        as (rs & st2 & -> & Hgood2 & Hrs); [lia|].
      exists (r :: unexpected_result t e :: rs), st2.
      rewrite <- app_assoc. split_and!; try done.
      cbn [map]. rewrite Ht, Hrs. simpl.
      destruct tiles as [|t' tiles]; [simpl in Hi; lia|]. done.
    + apply Z.ltb_ge in Hlt. cbn [length] in Hi.
      destruct tiles as [|t' tiles]; [|simpl in Hi; lia].
      exists [r], st1. simpl. by rewrite Ht.
Qed.

(** X30.  A delay that is no duration doubles the results.  Under a
    configuration whose waits before a retry are durations, but whose delay
    between two tiles never is one (a negative [request_interval_range]):
    [download_tiles] still returns, but the delay after every tile that is
    not the last raises inside the [try] of the loop after the tile's result
    was appended, and the handler appends a failure result for the same
    tile.  The results are those of the tiles in order, each tile but the
    last twice; for a list that is not empty there are
    [2 * len(tiles) - 1] results. *)
Theorem X30_negative_delay_doubles_results (st : state) (tiles : list TileInfo) :
  valid_retry_waits config world ->
  (forall rng, ~ sleepable (request_delay config world rng)) ->
  good st ->
  exists results st',
    download_tiles config world tiles st = (Ok results, st') /\
    map tile_info results = removelast (twice tiles) /\
    (tiles <> [] ->
     Z.of_nat (length results) = 2 * Z.of_nat (length tiles) - 1).
Proof.
  intros Hwait Hno Hgood. unfold download_tiles, update_stats, modify.
  unfold mbind at 1, Py_bind at 1.
  match goal with |- context [download_tiles_loop _ _ ?n _ _ _ ?s] =>
    destruct (download_tiles_loop_doubles n tiles Hwait Hno [] 1 s)
      as (rs & st' & Hrun & _ & Hrs) end.
  { frame_done. }
  { lia. }
  rewrite Hrun. exists rs, st'. split_and!; try done.
  intros Hne. rewrite <- (length_map tile_info), Hrs.
  assert (forall l : list TileInfo, length (twice l) = (2 * length l)%nat) as Htw.
  { induction l as [|a l IHl]; [done|]. unfold twice, mbind in *. simpl in *. lia. }
  destruct tiles as [|t tiles]; [done|].
  pose proof (Htw (t :: tiles)) as Hlen.
  assert (forall l : list TileInfo, l <> [] -> length (removelast l) = pred (length l))
    as Hrl.
  { intros l Hl. destruct (exists_last Hl) as (l' & a & ->).
    rewrite removelast_last, length_app. simpl. lia. }
  rewrite Hrl; [simpl in *; lia|]. done.
Qed.

End WithWorld.


(** Two tiles with delays drawn from [(-1, -1)]: three results. *)
Lemma X30_negative_delay_doubles_results_witness :
  let t1 := create_tile_info negative_delay_config 1 1 1 in
  let t2 := create_tile_info negative_delay_config 0 0 21 in
  exists results st',
    download_tiles negative_delay_config offline_world [t1; t2] (init ∅)
    = (Ok results, st') /\
    map tile_info results = [t1; t1; t2].
Proof.
  intros t1 t2.
  destruct (X30_negative_delay_doubles_results negative_delay_config offline_world
              (init ∅) [t1; t2]) as (results & st' & Hrun & Hmap & _).
  - intros rng attempt Ha. simpl in Ha. lia.
  - intros rng [Hpos _]. revert Hpos. unfold Qle. vm_compute. intros Hpos. by apply Hpos.
  - apply good_init.
  - exists results, st'. split; [exact Hrun | exact Hmap].
Defined.

End InvalidWaitProperties.
